(** * Elgato Key Light controller: a shallow embedding of the control core

    The development follows the Go program function by function.  Go's
    [int] is modelled by [Z] with the 64-bit wrap-around written out, the
    [map[string]string] registry by a [gmap string string] together with
    the (unspecified) order in which a [range] loop visits it, and the
    effects (HTTP requests, sleeping, printing, the settings file) by a
    small state-and-error monad over an explicit environment. *)

From Stdlib Require Import ZArith Lia.
From stdpp Require Import base option list strings pretty gmap.

Open Scope Z_scope.

(** ** Go integers *)

Module GoInt.

Definition min_int : Z := - 2 ^ 63.
Definition max_int : Z := 2 ^ 63 - 1.

(** Two's complement wrap-around of a 64-bit signed integer. *)
Definition wrap (x : Z) : Z := (x + 2 ^ 63) mod 2 ^ 64 - 2 ^ 63.

Definition in_range (x : Z) : Prop := min_int <= x <= max_int.

Definition add (a b : Z) : Z := wrap (a + b).
Definition sub (a b : Z) : Z := wrap (a - b).

(** Integer division truncates toward zero and panics on a zero
    divisor; [None] stands for the panic. *)
Definition quot (a b : Z) : option Z :=
  if decide (b = 0) then None else Some (wrap (Z.quot a b)).

End GoInt.

(** ** Data model *)

(** [Config]: the persisted settings.  A nil [Lights] map and an empty one
    behave alike for every read the program makes, both are [∅]. *)
Record Config := mkConfig {
  Lights : gmap string string;
  LastBrightness : Z;
  LastTemperature : Z;
  LastSelectedLight : string;
}.

Record LightState := mkLightState {
  On : Z;
  Brightness : Z;
  Temperature : Z;
}.

Record LightsResponse := mkLightsResponse {
  RespLights : list LightState;
}.

Inductive lightMode := allLights | light1 | light2.

Inductive controlFocus :=
  focusToggle | focusTurnOff | focusTurnOn | focusBrightness | focusTemperature.

(** The numeric value of a focus constant ([iota] numbering). *)
Definition focus_num (f : controlFocus) : Z :=
  match f with
  | focusToggle => 0
  | focusTurnOff => 1
  | focusTurnOn => 2
  | focusBrightness => 3
  | focusTemperature => 4
  end.

Record model := mkModel {
  config : Config;
  lights : gmap string string;
  lightsList : list string;
  selectedLightMode : lightMode;
  focusedControl : controlFocus;
  brightnessValue : Z;
  temperatureValue : Z;
  message : string;
  quitting : bool;
}.

#[global] Instance lightMode_eq_dec : EqDecision lightMode.
Proof. solve_decision. Defined.
#[global] Instance controlFocus_eq_dec : EqDecision controlFocus.
Proof. solve_decision. Defined.

(** ** Errors, requests and replies *)

Inductive error :=
  | LibError (detail : string)            (* an error of net/http or encoding/json *)
  | Errorf (msg : string)                 (* fmt.Errorf without a wrapped error *)
  | Wrapf (msg : string) (inner : error). (* fmt.Errorf("msg: %w", inner) *)

Inductive result (A : Type) :=
  | Ok (a : A)
  | Err (e : error).
Arguments Ok {A} a.
Arguments Err {A} e.

(** [err.Error()]. *)
Fixpoint Error (e : error) : string :=
  match e with
  | LibError detail => detail
  | Errorf msg => msg
  | Wrapf msg inner => msg +:+ ": " +:+ Error inner
  end.

(** The single entry of the ["lights"] array of a PUT body: only the keys
    that were supplied are present. *)
Record Patch := mkPatch {
  p_on : option Z;
  p_brightness : option Z;
  p_temperature : option Z;
}.

(** What a GET to [/elgato/lights] comes back with: a transport error, or
    a response with its status code and the outcome of decoding its body
    into a [LightsResponse]. *)
Inductive GetReply :=
  | GetFail (e : error)
  | GetResp (status : Z) (body : result LightsResponse).

(** What a PUT comes back with: the request could not be built, the
    transport failed, or a response with its status code. *)
Inductive PutReply :=
  | PutNoRequest (e : error)
  | PutFail (e : error)
  | PutResp (status : Z).

(** The settings file as [loadConfig] sees it. *)
Inductive ConfigFile :=
  | Unreadable
  | Malformed
  | Parsed (c : Config).

(** ** Environment, state and the command monad *)

(** Everything outside the program: how each device answers the n-th
    request of the run, the order a [range] over a map takes when started
    at step n, whether writing the settings file succeeds, and
    [fmt.Sscanf(s, "%d", _)]. *)
Record Env := mkEnv {
  http_get : string -> nat -> GetReply;
  http_put : string -> Patch -> nat -> PutReply;
  range_order : nat -> list (string * string) -> list (string * string);
  write_file_ok : nat -> bool;
  sscanf_d : string -> option Z;
}.

(** Go leaves the iteration order of a map unspecified: any order of the
    entries may come up, and a different one each time. *)
Definition Env_ok (E : Env) : Prop :=
  forall n l, range_order E n l ≡ₚ l.

Inductive Event :=
  | EvGet (ip : string) (r : GetReply)
  | EvPut (ip : string) (p : Patch) (r : PutReply)
  | EvSleep (ms : Z)
  | EvPrint (s : string)
  | EvSave (c : Config) (ok : bool)
  | EvGo (task : string).

Record St := mkSt {
  tick : nat;
  disk : ConfigFile;
  trace : list Event;
}.

Inductive Res (A : Type) :=
  | Ret (a : A)
  | Exit (code : Z)
  | Panic.
Arguments Ret {A} a.
Arguments Exit {A} code.
Arguments Panic {A}.

Definition M (A : Type) : Type := St -> Res A * St.

#[global] Instance M_ret : MRet M := fun A a s => (Ret a, s).
#[global] Instance M_bind : MBind M := fun A B f c s =>
  match c s with
  | (Ret a, s') => f a s'
  | (Exit code, s') => (Exit code, s')
  | (Panic, s') => (Panic, s')
  end.

Definition os_Exit {A} (code : Z) : M A := fun s => (Exit code, s).
Definition panic {A} : M A := fun s => (Panic, s).

Definition emit (e : Event) : M unit := fun s =>
  (Ret tt, {| tick := S (tick s); disk := disk s; trace := trace s ++ [e] |}).

Definition Println (s : string) : M unit := emit (EvPrint s).
Definition Sleep (ms : Z) : M unit := emit (EvSleep ms).

(** A value of an integer expression that may panic. *)
Definition eval (o : option Z) : M Z :=
  match o with
  | Some z => mret z
  | None => panic
  end.

Inductive LoopCtl := Continue | Break.

(** A [for ... range] loop over the elements [l]; [s] holds the local
    variables the body assigns. *)
Fixpoint for_range {A S : Type} (body : S -> A -> M (LoopCtl * S))
    (l : list A) (s : S) : M S :=
  match l with
  | [] => mret s
  | x :: rest =>
      r ← body s x;
      match r with
      | (Continue, s') => for_range body rest s'
      | (Break, s') => mret s'
      end
  end.

(** ** Unit conversion *)

(** [setLight]: [elgatoTemp := int(1000000 / *temperature)]. *)
Definition elgatoTemp (kelvin : Z) : option Z := GoInt.quot 1000000 kelvin.

(** [cliTemperature]: [currentTemp := int(1000000 / state.Temperature)]. *)
Definition currentTemp (wire : Z) : option Z := GoInt.quot 1000000 wire.

(** The conversion as the specification words it, with rounding to the
    nearest integer: [round(1_000_000 / x)]. *)
Definition spec_round_div (a b : Z) : Z := (2 * a + b) / (2 * b).
Definition spec_wire (kelvin : Z) : Z := spec_round_div 1000000 kelvin.
Definition spec_kelvin (wire : Z) : Z := spec_round_div 1000000 wire.

(** Field updates, for the assignments [m.field = v] and
    [config.Field = v]. *)
Definition set_LastBrightness (c : Config) (v : Z) : Config :=
  {| Lights := Lights c; LastBrightness := v;
     LastTemperature := LastTemperature c;
     LastSelectedLight := LastSelectedLight c |}.

Definition set_LastTemperature (c : Config) (v : Z) : Config :=
  {| Lights := Lights c; LastBrightness := LastBrightness c;
     LastTemperature := v;
     LastSelectedLight := LastSelectedLight c |}.

Definition set_config (m : model) (c : Config) : model :=
  {| config := c; lights := lights m; lightsList := lightsList m;
     selectedLightMode := selectedLightMode m;
     focusedControl := focusedControl m;
     brightnessValue := brightnessValue m;
     temperatureValue := temperatureValue m;
     message := message m; quitting := quitting m |}.

Definition set_selectedLightMode (m : model) (v : lightMode) : model :=
  {| config := config m; lights := lights m; lightsList := lightsList m;
     selectedLightMode := v;
     focusedControl := focusedControl m;
     brightnessValue := brightnessValue m;
     temperatureValue := temperatureValue m;
     message := message m; quitting := quitting m |}.

Definition set_focusedControl (m : model) (v : controlFocus) : model :=
  {| config := config m; lights := lights m; lightsList := lightsList m;
     selectedLightMode := selectedLightMode m;
     focusedControl := v;
     brightnessValue := brightnessValue m;
     temperatureValue := temperatureValue m;
     message := message m; quitting := quitting m |}.

Definition set_brightnessValue (m : model) (v : Z) : model :=
  {| config := config m; lights := lights m; lightsList := lightsList m;
     selectedLightMode := selectedLightMode m;
     focusedControl := focusedControl m;
     brightnessValue := v;
     temperatureValue := temperatureValue m;
     message := message m; quitting := quitting m |}.

Definition set_temperatureValue (m : model) (v : Z) : model :=
  {| config := config m; lights := lights m; lightsList := lightsList m;
     selectedLightMode := selectedLightMode m;
     focusedControl := focusedControl m;
     brightnessValue := brightnessValue m;
     temperatureValue := v;
     message := message m; quitting := quitting m |}.

Definition set_message (m : model) (v : string) : model :=
  {| config := config m; lights := lights m; lightsList := lightsList m;
     selectedLightMode := selectedLightMode m;
     focusedControl := focusedControl m;
     brightnessValue := brightnessValue m;
     temperatureValue := temperatureValue m;
     message := v; quitting := quitting m |}.

Definition set_quitting (m : model) (v : bool) : model :=
  {| config := config m; lights := lights m; lightsList := lightsList m;
     selectedLightMode := selectedLightMode m;
     focusedControl := focusedControl m;
     brightnessValue := brightnessValue m;
     temperatureValue := temperatureValue m;
     message := message m; quitting := v |}.

(** Messages of the terminal program and the commands [Update] returns. *)
Inductive Msg :=
  | KeyMsg (key : string)
  | OtherMsg.

Inductive Cmd := Quit.

(** ** Relative adjustments

    The value of [newBright] and [newTemp] in the [+] and [-] branches of
    the command line, from the value read off the device. *)
Definition newBright_plus (brightness : Z) : Z :=
  let newBright := GoInt.add brightness 5 in
  if decide (newBright > 100) then 100 else newBright.

Definition newBright_minus (brightness : Z) : Z :=
  let newBright := GoInt.sub brightness 5 in
  if decide (newBright < 3) then 3 else newBright.

Definition newTemp_plus (currentTemp : Z) : Z :=
  let newTemp := GoInt.add currentTemp 200 in
  if decide (newTemp > 7000) then 7000 else newTemp.

Definition newTemp_minus (currentTemp : Z) : Z :=
  let newTemp := GoInt.sub currentTemp 200 in
  if decide (newTemp < 2900) then 2900 else newTemp.

(** ** The program *)

Section Program.

Variable E : Env.

(** *** Primitive effects *)

Definition httpGet (ip : string) : M GetReply := fun s =>
  let r := http_get E ip (tick s) in
  (Ret r, {| tick := S (tick s); disk := disk s; trace := trace s ++ [EvGet ip r] |}).

Definition httpPut (ip : string) (p : Patch) : M PutReply := fun s =>
  let r := http_put E ip p (tick s) in
  (Ret r, {| tick := S (tick s); disk := disk s; trace := trace s ++ [EvPut ip p r] |}).

(** The entries of a map in the order this [range] loop visits them. *)
Definition range_map (m : gmap string string) : M (list (string * string)) := fun s =>
  (Ret (range_order E (tick s) (map_to_list m)),
   {| tick := S (tick s); disk := disk s; trace := trace s |}).

(** [l[i]], which panics out of range. *)
Definition at_index (l : list string) (i : nat) : M string :=
  match l !! i with
  | Some x => mret x
  | None => panic
  end.

(** *** Config management *)

Definition defaultConfig : Config :=
  {| Lights := ∅; LastBrightness := 50; LastTemperature := 4000;
     LastSelectedLight := "" |}.

Definition loadConfig : M Config := fun s =>
  match disk s with
  | Unreadable => (Ret defaultConfig, s)
  | Malformed => (Ret defaultConfig, s)
  | Parsed c => (Ret c, s)
  end.

(** The errors of [MkdirAll], [MarshalIndent] and [WriteFile] are
    dropped; a failed write leaves the file as it was. *)
Definition saveConfig (c : Config) : M unit := fun s =>
  let ok := write_file_ok E (tick s) in
  (Ret tt, {| tick := S (tick s);
              disk := if ok then Parsed c else disk s;
              trace := trace s ++ [EvSave c ok] |}).

(** *** API functions *)

Definition getLightState (ip : string) : M (result LightState) :=
  r ← httpGet ip;
  match r with
  | GetFail e => mret (Err e)
  | GetResp _ (Err e) => mret (Err e)
  | GetResp _ (Ok lightsResp) =>
      match RespLights lightsResp with
      | first :: _ => mret (Ok first)
      | [] => mret (Err (Errorf "no lights in response"))
      end
  end.

Definition setLight (ip : string) (on brightness temperature : option Z)
    : M (option error) :=
  wire ← match temperature with
          | Some kelvin => t ← eval (elgatoTemp kelvin); mret (Some t)
          | None => mret None
          end;
  let light := {| p_on := on; p_brightness := brightness; p_temperature := wire |} in
  r ← httpPut ip light;
  match r with
  | PutNoRequest e => mret (Some e)
  | PutFail e => mret (Some e)
  | PutResp status =>
      if decide (status ≠ 200)
      then mret (Some (Errorf ("API returned status " +:+ pretty status)))
      else mret None
  end.

Definition toggleLight (ip : string) : M (option error) :=
  r ← getLightState ip;
  match r with
  | Err _ => setLight ip (Some 1) None None
  | Ok state =>
      let newState := if decide (On state = 0) then 1 else 0 in
      setLight ip (Some newState) None None
  end.

Definition toggleLightAttempt (ip : string) : M (option error) :=
  r ← httpGet ip;
  match r with
  | GetFail e => mret (Some (Wrapf "failed to get light state" e))
  | GetResp _ (Err e) => mret (Some (Wrapf "failed to decode response" e))
  | GetResp _ (Ok lightsResp) =>
      match RespLights lightsResp with
      | [] => mret (Some (Errorf "no lights in response"))
      | first :: _ =>
          let newState := if decide (On first = 0) then 1 else 0 in
          let payload := {| p_on := Some newState; p_brightness := None;
                            p_temperature := None |} in
          r2 ← httpPut ip payload;
          match r2 with
          | PutNoRequest e => mret (Some (Wrapf "failed to create request" e))
          | PutFail e => mret (Some (Wrapf "failed to send toggle request" e))
          | PutResp status =>
              if decide (status ≠ 200)
              then mret (Some (Errorf ("API returned status " +:+ pretty status)))
              else mret None
          end
      end
  end.

(** The loop [for attempt := 1; attempt <= 3; attempt++] with [fuel]
    iterations left to run; [lastErr] is nil before the first one. *)
Fixpoint toggleLightFast_loop (ip : string) (fuel : nat) (attempt : Z)
    (lastErr : option error) : M (option error) :=
  match fuel with
  | O =>
      match lastErr with
      | Some e => mret (Some (Wrapf "failed after 3 attempts" e))
      | None => mret (Some (Errorf "failed after 3 attempts: %!w(<nil>)"))
      end
  | S fuel' =>
      err ← toggleLightAttempt ip;
      match err with
      | None => mret None
      | Some e =>
          (if decide (attempt < 3) then Sleep 100 else mret tt);;
          toggleLightFast_loop ip fuel' (attempt + 1) (Some e)
      end
  end.

Definition toggleLightFast (ip : string) : M (option error) :=
  toggleLightFast_loop ip 3 1 None.

(** *** The interactive model *)

Definition initialModel : M model :=
  config ← loadConfig;
  entries ← range_map (Lights config);
  lightsList ← for_range (fun (acc : list string) '(name, _) =>
                  mret (Continue, acc ++ [name])) entries [];
  let config := if decide (LastBrightness config = 0)
                then set_LastBrightness config 50 else config in
  let config := if decide (LastTemperature config = 0)
                then set_LastTemperature config 4000 else config in
  mret {| config := config;
          lights := Lights config;
          lightsList := lightsList;
          selectedLightMode := allLights;
          focusedControl := focusToggle;
          brightnessValue := LastBrightness config;
          temperatureValue := LastTemperature config;
          message := "";
          quitting := false |}.

Definition getSelectedLightIPs (m : model) : M (list string) :=
  match selectedLightMode m with
  | allLights =>
      entries ← range_map (lights m);
      for_range (fun (ips : list string) '(_, ip) =>
        mret (Continue, ips ++ [ip])) entries []
  | light1 =>
      if decide (1 ≤ length (lightsList m))%nat
      then name ← at_index (lightsList m) 0;
           mret [default "" (lights m !! name)]
      else mret []
  | light2 =>
      if decide (2 ≤ length (lightsList m))%nat
      then name ← at_index (lightsList m) 1;
           mret [default "" (lights m !! name)]
      else mret []
  end.

Definition toggleLights (m : model) : M (model * option Cmd) :=
  ips ← getSelectedLightIPs m;
  '(errorCount, successCount) ←
    for_range (fun '(errorCount, successCount) ip =>
      err ← toggleLight ip;
      match err with
      | Some _ => mret (Continue, (GoInt.add errorCount 1, successCount))
      | None => mret (Continue, (errorCount, GoInt.add successCount 1))
      end) ips (0, 0);
  if decide (errorCount = 0 ∧ successCount > 0)
  then mret (set_message m ("✓ " +:+ pretty successCount +:+ " light(s) toggled"), None)
  else if decide (errorCount > 0)
  then mret (set_message m "✗ Error toggling lights", None)
  else mret (m, None).

Definition activateControl (m : model) : M (model * option Cmd) :=
  match focusedControl m with
  | focusToggle => toggleLights m
  | focusTurnOff =>
      ips ← getSelectedLightIPs m;
      for_range (fun (_ : unit) ip =>
        setLight ip (Some 0) None None;; mret (Continue, tt)) ips tt;;
      mret (set_message m "✓ Lights turned off", None)
  | focusTurnOn =>
      ips ← getSelectedLightIPs m;
      for_range (fun (_ : unit) ip =>
        setLight ip (Some 1) None None;; mret (Continue, tt)) ips tt;;
      mret (set_message m "✓ Lights turned on", None)
  | focusBrightness =>
      ips ← getSelectedLightIPs m;
      '(msg, success) ←
        for_range (fun '(msg, success) ip =>
          err ← setLight ip None (Some (brightnessValue m)) None;
          match err with
          | Some _ => mret (Break, ("✗ Error setting brightness", false))
          | None => mret (Continue, (msg, success))
          end) ips (message m, true);
      let m := set_message m msg in
      if success : bool
      then
        let m := set_config m (set_LastBrightness (config m) (brightnessValue m)) in
        saveConfig (config m);;
        mret (set_message m
                ("✓ Brightness set to " +:+ pretty (brightnessValue m) +:+ "%"), None)
      else mret (m, None)
  | focusTemperature =>
      ips ← getSelectedLightIPs m;
      '(msg, success) ←
        for_range (fun '(msg, success) ip =>
          err ← setLight ip None None (Some (temperatureValue m));
          match err with
          | Some _ => mret (Break, ("✗ Error setting temperature", false))
          | None => mret (Continue, (msg, success))
          end) ips (message m, true);
      let m := set_message m msg in
      if success : bool
      then
        let m := set_config m (set_LastTemperature (config m) (temperatureValue m)) in
        saveConfig (config m);;
        mret (set_message m
                ("✓ Temperature set to " +:+ pretty (temperatureValue m) +:+ "K"), None)
      else mret (m, None)
  end.

(** The second [switch] of [Update]: directional keys and activation. *)
Definition navigate (m : model) (key : string) : M (model * option Cmd) :=
  if decide (key = "up" ∨ key = "k") then
    if decide (focusedControl m = focusBrightness)
    then mret (set_focusedControl m focusToggle, None)
    else if decide (focusedControl m = focusTemperature)
    then mret (set_focusedControl m focusBrightness, None)
    else mret (m, None)
  else if decide (key = "down" ∨ key = "j") then
    if decide (focus_num (focusedControl m) <= focus_num focusTurnOn)
    then mret (set_focusedControl m focusBrightness, None)
    else if decide (focusedControl m = focusBrightness)
    then mret (set_focusedControl m focusTemperature, None)
    else mret (m, None)
  else if decide (key = "left" ∨ key = "h") then
    if decide (focusedControl m = focusTurnOff)
    then mret (set_focusedControl m focusToggle, None)
    else if decide (focusedControl m = focusTurnOn)
    then mret (set_focusedControl m focusTurnOff, None)
    else if decide (focusedControl m = focusBrightness)
    then
      let m := set_brightnessValue m (GoInt.sub (brightnessValue m) 5) in
      let m := if decide (brightnessValue m < 3)
               then set_brightnessValue m 3 else m in
      mret (m, None)
    else if decide (focusedControl m = focusTemperature)
    then
      let m := set_temperatureValue m (GoInt.sub (temperatureValue m) 200) in
      let m := if decide (temperatureValue m < 2900)
               then set_temperatureValue m 2900 else m in
      mret (m, None)
    else mret (m, None)
  else if decide (key = "right" ∨ key = "l") then
    if decide (focusedControl m = focusToggle)
    then mret (set_focusedControl m focusTurnOff, None)
    else if decide (focusedControl m = focusTurnOff)
    then mret (set_focusedControl m focusTurnOn, None)
    else if decide (focusedControl m = focusBrightness)
    then
      let m := set_brightnessValue m (GoInt.add (brightnessValue m) 5) in
      let m := if decide (brightnessValue m > 100)
               then set_brightnessValue m 100 else m in
      mret (m, None)
    else if decide (focusedControl m = focusTemperature)
    then
      let m := set_temperatureValue m (GoInt.add (temperatureValue m) 200) in
      let m := if decide (temperatureValue m > 7000)
               then set_temperatureValue m 7000 else m in
      mret (m, None)
    else mret (m, None)
  else if decide (key = "enter" ∨ key = " ") then activateControl m
  else mret (m, None).

(** [Update].  A [switch] on a string is the chain of comparisons it
    stands for.  The goroutine started by the key [d] runs detached from
    the input loop; starting it is recorded, its body is not part of this
    model. *)
Definition Update (m : model) (msg : Msg) : M (model * option Cmd) :=
  match msg with
  | KeyMsg key =>
      if decide (key = "a") then
        mret (set_message (set_selectedLightMode m allLights)
                "✓ Controlling all lights", None)
      else if decide (key = "1") then
        if decide (1 ≤ length (lightsList m))%nat
        then name ← at_index (lightsList m) 0;
             mret (set_message (set_selectedLightMode m light1)
                     ("✓ Controlling " +:+ name), None)
        else mret (m, None)
      else if decide (key = "2") then
        if decide (2 ≤ length (lightsList m))%nat
        then name ← at_index (lightsList m) 1;
             mret (set_message (set_selectedLightMode m light2)
                     ("✓ Controlling " +:+ name), None)
        else mret (m, None)
      else if decide (key = "ctrl+c" ∨ key = "q") then
        mret (set_quitting m true, Some Quit)
      else if decide (key = "d") then
        emit (EvGo "discoverLights");;
        mret (set_message m "Discovering lights...", None)
      else navigate m key
  | OtherMsg => mret (m, None)
  end.

(** *** Command line

    [args] is [os.Args]; a line printed is recorded without its final
    newline.  A command returns the [Config] it was given,
    with the assignments it made through the pointer.  [sscanf_d E s] is
    [Some v] when [fmt.Sscanf(s, "%d", &v)] returns [n == 1] (and then a
    nil error).  Loop counters are incremented without wrap-around: a map
    holds fewer than [2^63] entries. *)

Definition cliBrightness (config : Config) (args : list string) : M Config :=
  if decide (length args < 3)%nat
  then Println "Usage: keylight bright [+|-|=|value]";; os_Exit 1
  else
  action ← at_index args 2;
  if decide (action = "+") then
      entries ← range_map (Lights config);
      for_range (fun (_ : unit) '(name, ip) =>
        r ← getLightState ip;
        match r with
        | Err _ =>
            Println ("✗ Failed to get state for " +:+ name);;
            mret (Continue, tt)
        | Ok state =>
            let newBright := newBright_plus (Brightness state) in
            err ← setLight ip None (Some newBright) None;
            match err with
            | Some _ => Println ("✗ Failed to adjust " +:+ name)
            | None => Println ("✓ " +:+ name +:+ " brightness: " +:+ pretty newBright +:+ "%")
            end;;
            mret (Continue, tt)
        end) entries tt;;
      mret config
  else if decide (action = "-") then
      entries ← range_map (Lights config);
      for_range (fun (_ : unit) '(name, ip) =>
        r ← getLightState ip;
        match r with
        | Err _ =>
            Println ("✗ Failed to get state for " +:+ name);;
            mret (Continue, tt)
        | Ok state =>
            let newBright := newBright_minus (Brightness state) in
            err ← setLight ip None (Some newBright) None;
            match err with
            | Some _ => Println ("✗ Failed to adjust " +:+ name)
            | None => Println ("✓ " +:+ name +:+ " brightness: " +:+ pretty newBright +:+ "%")
            end;;
            mret (Continue, tt)
        end) entries tt;;
      mret config
  else if decide (action = "=") then
      entries ← range_map (Lights config);
      '(totalBright, count) ←
        for_range (fun '(totalBright, count) '(_, ip) =>
          r ← getLightState ip;
          match r with
          | Ok state =>
              mret (Continue, (GoInt.add totalBright (Brightness state), count + 1))
          | Err _ => mret (Continue, (totalBright, count))
          end) entries (0, 0);
      if decide (count = 0)
      then Println "✗ Could not read any lights";; mret config
      else
        avgBright ← eval (GoInt.quot totalBright count);
        Println ("Setting all lights to " +:+ pretty avgBright +:+ "%");;
        entries ← range_map (Lights config);
        for_range (fun (_ : unit) '(name, ip) =>
          err ← setLight ip None (Some avgBright) None;
          match err with
          | Some _ => Println ("✗ Failed to set " +:+ name)
          | None => Println ("✓ " +:+ name +:+ " brightness: " +:+ pretty avgBright +:+ "%")
          end;;
          mret (Continue, tt)) entries tt;;
        mret config
  else
      match sscanf_d E action with
      | Some brightness =>
          if decide (brightness < 3 ∨ brightness > 100)
          then Println "Brightness must be between 3 and 100";; os_Exit 1
          else
            entries ← range_map (Lights config);
            for_range (fun (_ : unit) '(name, ip) =>
              err ← setLight ip None (Some brightness) None;
              match err with
              | Some _ => Println ("✗ Failed to set " +:+ name)
              | None => Println ("✓ " +:+ name +:+ " brightness: " +:+ pretty brightness +:+ "%")
              end;;
              mret (Continue, tt)) entries tt;;
            let config := set_LastBrightness config brightness in
            saveConfig config;;
            mret config
      | None => Println "Invalid brightness value";; os_Exit 1
      end.

Definition cliTemperature (config : Config) (args : list string) : M Config :=
  if decide (length args < 3)%nat
  then Println "Usage: keylight temp [+|-|=|value]";; os_Exit 1
  else
  action ← at_index args 2;
  if decide (action = "+") then
      entries ← range_map (Lights config);
      for_range (fun (_ : unit) '(name, ip) =>
        r ← getLightState ip;
        match r with
        | Err _ =>
            Println ("✗ Failed to get state for " +:+ name);;
            mret (Continue, tt)
        | Ok state =>
            current ← eval (currentTemp (Temperature state));
            let newTemp := newTemp_plus current in
            err ← setLight ip None None (Some newTemp);
            match err with
            | Some _ => Println ("✗ Failed to adjust " +:+ name)
            | None => Println ("✓ " +:+ name +:+ " temperature: " +:+ pretty newTemp +:+ "K")
            end;;
            mret (Continue, tt)
        end) entries tt;;
      mret config
  else if decide (action = "-") then
      entries ← range_map (Lights config);
      for_range (fun (_ : unit) '(name, ip) =>
        r ← getLightState ip;
        match r with
        | Err _ =>
            Println ("✗ Failed to get state for " +:+ name);;
            mret (Continue, tt)
        | Ok state =>
            current ← eval (currentTemp (Temperature state));
            let newTemp := newTemp_minus current in
            err ← setLight ip None None (Some newTemp);
            match err with
            | Some _ => Println ("✗ Failed to adjust " +:+ name)
            | None => Println ("✓ " +:+ name +:+ " temperature: " +:+ pretty newTemp +:+ "K")
            end;;
            mret (Continue, tt)
        end) entries tt;;
      mret config
  else if decide (action = "=") then
      entries ← range_map (Lights config);
      '(totalTemp, count) ←
        for_range (fun '(totalTemp, count) '(_, ip) =>
          r ← getLightState ip;
          match r with
          | Ok state =>
              current ← eval (currentTemp (Temperature state));
              mret (Continue, (GoInt.add totalTemp current, count + 1))
          | Err _ => mret (Continue, (totalTemp, count))
          end) entries (0, 0);
      if decide (count = 0)
      then Println "✗ Could not read any lights";; mret config
      else
        avgTemp ← eval (GoInt.quot totalTemp count);
        Println ("Setting all lights to " +:+ pretty avgTemp +:+ "K");;
        entries ← range_map (Lights config);
        for_range (fun (_ : unit) '(name, ip) =>
          err ← setLight ip None None (Some avgTemp);
          match err with
          | Some _ => Println ("✗ Failed to set " +:+ name)
          | None => Println ("✓ " +:+ name +:+ " temperature: " +:+ pretty avgTemp +:+ "K")
          end;;
          mret (Continue, tt)) entries tt;;
        mret config
  else
      match sscanf_d E action with
      | Some temperature =>
          if decide (temperature < 2900 ∨ temperature > 7000)
          then Println "Temperature must be between 2900K and 7000K";; os_Exit 1
          else
            entries ← range_map (Lights config);
            for_range (fun (_ : unit) '(name, ip) =>
              err ← setLight ip None None (Some temperature);
              match err with
              | Some _ => Println ("✗ Failed to set " +:+ name)
              | None => Println ("✓ " +:+ name +:+ " temperature: " +:+ pretty temperature +:+ "K")
              end;;
              mret (Continue, tt)) entries tt;;
            let config := set_LastTemperature config temperature in
            saveConfig config;;
            mret config
      | None => Println "Invalid temperature value";; os_Exit 1
      end.

(** The first part of [cliSpecificLight]: the device an identifier
    stands for, as [(targetIP, targetName)]; both are empty when none
    is found. *)
Definition findLight (config : Config) (lightIdentifier : string)
    : M (string * string) :=
  let byIndex :=
    match sscanf_d E lightIdentifier with
    | Some index => if decide (index > 0) then Some index else None
    | None => None
    end in
  match byIndex with
  | Some index =>
      entries ← range_map (Lights config);
      '(targetIP, targetName, _) ←
        for_range (fun '(targetIP, targetName, i) '(name, ip) =>
          if decide (i = index)
          then mret (Break, (ip, name, i))
          else mret (Continue, (targetIP, targetName, i + 1)))
          entries ("", "", 1);
      mret (targetIP, targetName)
  | None =>
      entries ← range_map (Lights config);
      for_range (fun '(targetIP, targetName) '(name, ip) =>
        if decide (name = lightIdentifier)
        then mret (Break, (ip, name))
        else mret (Continue, (targetIP, targetName)))
        entries ("", "")
  end.

Definition cliSpecificLight (config : Config) (lightIdentifier : string)
    (args : list string) : M unit :=
  '(targetIP, targetName) ← findLight config lightIdentifier;
  if decide (targetIP = "")
  then
    Println ("✗ Light '" +:+ lightIdentifier +:+
             "' not found. Use 'keylight list' to see available lights.");;
    os_Exit 1
  else if decide (length args < 3)%nat
  then
    err ← toggleLightFast targetIP;
    match err with
    | Some e =>
        Println ("✗ Failed to toggle " +:+ targetName +:+ ": " +:+ Error e);;
        os_Exit 1
    | None => Println ("✓ Toggled " +:+ targetName)
    end
  else
  command ← at_index args 2;
  if decide (command = "on") then
      err ← setLight targetIP (Some 1) None None;
      match err with
      | Some _ => Println ("✗ Failed to turn on " +:+ targetName)
      | None => Println ("✓ Turned on " +:+ targetName)
      end
  else if decide (command = "off") then
      err ← setLight targetIP (Some 0) None None;
      match err with
      | Some _ => Println ("✗ Failed to turn off " +:+ targetName)
      | None => Println ("✓ Turned off " +:+ targetName)
      end
  else if decide (command = "bright") then
      if decide (length args < 4)%nat
      then Println "Usage: keylight <light> bright [+|-|value]";; os_Exit 1
      else
      action ← at_index args 3;
      if decide (action = "+") then
          r ← getLightState targetIP;
          match r with
          | Err _ => Println ("✗ Failed to get state for " +:+ targetName);; os_Exit 1
          | Ok state =>
              let newBright := newBright_plus (Brightness state) in
              err ← setLight targetIP None (Some newBright) None;
              match err with
              | Some _ => Println ("✗ Failed to adjust " +:+ targetName)
              | None => Println ("✓ " +:+ targetName +:+ " brightness: "
                                 +:+ pretty newBright +:+ "%")
              end
          end
      else if decide (action = "-") then
          r ← getLightState targetIP;
          match r with
          | Err _ => Println ("✗ Failed to get state for " +:+ targetName);; os_Exit 1
          | Ok state =>
              let newBright := newBright_minus (Brightness state) in
              err ← setLight targetIP None (Some newBright) None;
              match err with
              | Some _ => Println ("✗ Failed to adjust " +:+ targetName)
              | None => Println ("✓ " +:+ targetName +:+ " brightness: "
                                 +:+ pretty newBright +:+ "%")
              end
          end
      else
          match sscanf_d E action with
          | Some brightness =>
              if decide (brightness < 3 ∨ brightness > 100)
              then Println "Brightness must be between 3 and 100";; os_Exit 1
              else
                err ← setLight targetIP None (Some brightness) None;
                match err with
                | Some _ => Println ("✗ Failed to set brightness for " +:+ targetName)
                | None => Println ("✓ " +:+ targetName +:+ " brightness: "
                                   +:+ pretty brightness +:+ "%")
                end
          | None => Println "Invalid brightness value";; os_Exit 1
          end
  else if decide (command = "temp") then
      if decide (length args < 4)%nat
      then Println "Usage: keylight <light> temp [+|-|value]";; os_Exit 1
      else
      action ← at_index args 3;
      if decide (action = "+") then
          r ← getLightState targetIP;
          match r with
          | Err _ => Println ("✗ Failed to get state for " +:+ targetName);; os_Exit 1
          | Ok state =>
              current ← eval (currentTemp (Temperature state));
              let newTemp := newTemp_plus current in
              err ← setLight targetIP None None (Some newTemp);
              match err with
              | Some _ => Println ("✗ Failed to adjust " +:+ targetName)
              | None => Println ("✓ " +:+ targetName +:+ " temperature: "
                                 +:+ pretty newTemp +:+ "K")
              end
          end
      else if decide (action = "-") then
          r ← getLightState targetIP;
          match r with
          | Err _ => Println ("✗ Failed to get state for " +:+ targetName);; os_Exit 1
          | Ok state =>
              current ← eval (currentTemp (Temperature state));
              let newTemp := newTemp_minus current in
              err ← setLight targetIP None None (Some newTemp);
              match err with
              | Some _ => Println ("✗ Failed to adjust " +:+ targetName)
              | None => Println ("✓ " +:+ targetName +:+ " temperature: "
                                 +:+ pretty newTemp +:+ "K")
              end
          end
      else
          match sscanf_d E action with
          | Some temperature =>
              if decide (temperature < 2900 ∨ temperature > 7000)
              then Println "Temperature must be between 2900K and 7000K";; os_Exit 1
              else
                err ← setLight targetIP None None (Some temperature);
                match err with
                | Some _ => Println ("✗ Failed to set temperature for " +:+ targetName)
                | None => Println ("✓ " +:+ targetName +:+ " temperature: "
                                   +:+ pretty temperature +:+ "K")
                end
          | None => Println "Invalid temperature value";; os_Exit 1
          end
  else if decide (command = "status") then
      r ← getLightState targetIP;
      match r with
      | Err _ => Println ("✗ " +:+ targetName +:+ ": Offline")
      | Ok state =>
          let status := if decide (On state = 1) then "On" else "Off" in
          temp ← eval (currentTemp (Temperature state));
          Println (targetName +:+ ": " +:+ status +:+ " | Brightness: "
                   +:+ pretty (Brightness state) +:+ "% | Temperature: "
                   +:+ pretty temp +:+ "K")
      end
  else
      Println ("Unknown command: " +:+ command);;
      Println "Available commands: on, off, bright, temp, status";;
      os_Exit 1.

End Program.

(** ** Reading traces *)

(** The reads and the writes a run made, in order. *)
Definition gets_of (t : list Event) : list (string * GetReply) :=
  omap (fun e => match e with EvGet ip r => Some (ip, r) | _ => None end) t.

Definition puts_of (t : list Event) : list (string * Patch) :=
  omap (fun e => match e with EvPut ip p _ => Some (ip, p) | _ => None end) t.

Definition saves_of (t : list Event) : list Config :=
  omap (fun e => match e with EvSave c _ => Some c | _ => None end) t.

(** What [getLightState] makes of a reply, and the state a readable
    device reported. *)
Definition read_result (r : GetReply) : result LightState :=
  match r with
  | GetFail e => Err e
  | GetResp _ (Err e) => Err e
  | GetResp _ (Ok resp) =>
      match RespLights resp with
      | first :: _ => Ok first
      | [] => Err (Errorf "no lights in response")
      end
  end.

Definition readable (r : GetReply) : option LightState :=
  match read_result r with
  | Ok s => Some s
  | Err _ => None
  end.

(** What [setLight] makes of a reply. *)
Definition put_error (r : PutReply) : option error :=
  match r with
  | PutNoRequest e => Some e
  | PutFail e => Some e
  | PutResp status =>
      if decide (status ≠ 200)
      then Some (Errorf ("API returned status " +:+ pretty status))
      else None
  end.

Definition bright_patch (b : Z) : Patch :=
  {| p_on := None; p_brightness := Some b; p_temperature := None |}.

Definition temp_patch (wire : Z) : Patch :=
  {| p_on := None; p_brightness := None; p_temperature := Some wire |}.

(** The sum and the mean of a list of values in Go's arithmetic: the
    quotient of the sum by the count, truncated. *)
Definition go_sum (l : list Z) : Z := foldl GoInt.add 0 l.

Definition go_mean (l : list Z) : option Z :=
  GoInt.quot (go_sum l) (Z.of_nat (length l)).

(** Devices that report values of the documented ranges: brightness
    within [3,100], wire temperature within [143,344]. *)
Definition Env_in_range (E : Env) : Prop :=
  forall ip n s, readable (http_get E ip n) = Some s ->
    3 <= Brightness s <= 100 /\ 143 <= Temperature s <= 344.

(** A phase of a run that only reads: the events [t] are one GET per
    entry of [seen], in order, each answered by the environment. *)
Definition read_phase (E : Env) (seen : list (string * string))
    (t : list Event) : Prop :=
  t = (fun x => EvGet x.1 x.2) <$> gets_of t /\
  (gets_of t).*1 = seen.*2 /\
  (forall ip r, (ip, r) ∈ gets_of t -> exists n, r = http_get E ip n).

(** The values [f] of the devices that answered a read of [t]. *)
Definition readings (f : LightState -> Z) (t : list Event) : list Z :=
  f <$> omap readable (gets_of t).*2.

(** A phase that only writes and prints: one PUT of [p] per entry. *)
Definition write_phase (p : Patch) (seen : list (string * string))
    (t : list Event) : Prop :=
  gets_of t = [] /\ saves_of t = [] /\
  puts_of t = (fun e => (e.2, p)) <$> seen.

Definition kelvin_reading (s : LightState) : Z :=
  default 0 (currentTemp (Temperature s)).

(** The sum of a list of integers. *)
Definition Zsum (l : list Z) : Z := foldr Z.add 0 l.

(** What an equalize run from [st] to [st'] did, for the reading [f] of a
    device state and the patch [mk] built from the mean: it read every
    registered address once, saved nothing, and either found no readable
    device, wrote nothing and reported that, or wrote to every registered
    address the patch of the mean of the readings of the devices that
    answered. *)
Definition equalized (E : Env) (config : Config) (f : LightState -> Z)
    (mk : Z -> option Patch) (st st' : St) : Prop :=
  exists t,
    trace st' = trace st ++ t /\ disk st' = disk st /\ saves_of t = [] /\
    (gets_of t).*1 ≡ₚ (map_to_list (Lights config)).*2 /\
    (forall ip r, (ip, r) ∈ gets_of t -> exists n, r = http_get E ip n) /\
    match readings f t with
    | [] =>
        puts_of t = [] /\
        last t = Some (EvPrint "✗ Could not read any lights")
    | _ :: _ =>
        exists avg p,
          go_mean (readings f t) = Some avg /\ mk avg = Some p /\
          puts_of t ≡ₚ (fun e => (e.2, p)) <$> map_to_list (Lights config)
    end.

(** The pending values of a session lie in their ranges. *)
Definition in_range_model (m : model) : Prop :=
  3 <= brightnessValue m <= 100 /\ 2900 <= temperatureValue m <= 7000.

(** A write that carries a brightness within [3,100], respectively the
    wire value of a temperature within [2900,7000] Kelvin. *)
Definition bright_in_range (x : string * Patch) : Prop :=
  exists b, x.2 = bright_patch b /\ 3 <= b <= 100.

Definition temp_in_range (x : string * Patch) : Prop :=
  exists k wire, x.2 = temp_patch wire /\ elgatoTemp k = Some wire /\
                 2900 <= k <= 7000.

(** The pending values of the model a step returns, if it returns one,
    satisfy [P]. *)
Definition returns_model (P : model -> Prop)
    (r : Res (model * option Cmd) * St) : Prop :=
  match r.1 with
  | Ret (m', _) => P m'
  | _ => True
  end.

(** A write that came back with an error. *)
Definition failed_put (e : Event) : Prop :=
  exists ip p r, e = EvPut ip p r /\ put_error r <> None.

(** ** Example environments and inputs *)

(** An instance of [fmt.Sscanf(s, "%d", _)] for unsigned decimal input:
    the digits at the start of [s], if there is one. *)
Definition digit (a : Ascii.ascii) : option Z :=
  let n := Z.of_N (Ascii.N_of_ascii a) in
  if decide (48 <= n <= 57) then Some (n - 48) else None.

Fixpoint scan_digits (s : string) (acc : option Z) : option Z :=
  match s with
  | EmptyString => acc
  | String a rest =>
      match digit a with
      | Some d => scan_digits rest (Some (default 0 acc * 10 + d))
      | None => acc
      end
  end.

Definition scan_decimal (s : string) : option Z := scan_digits s None.

Definition mk_env (get : string -> nat -> GetReply)
    (put : string -> Patch -> nat -> PutReply)
    (order : nat -> list (string * string) -> list (string * string)) : Env :=
  {| http_get := get; http_put := put; range_order := order;
     write_file_ok := fun _ => true; sscanf_d := scan_decimal |}.

Definition one_light (on brightness temperature : Z) : result LightsResponse :=
  Ok {| RespLights := [ {| On := on; Brightness := brightness;
                           Temperature := temperature |} ] |}.

(** Every device is on at 50% and 4000K (wire 250) and accepts every
    write; maps are visited in the order of their entry list. *)
Definition calm_env : Env :=
  mk_env (fun _ _ => GetResp 200 (one_light 1 50 250))
         (fun _ _ _ => PutResp 200)
         (fun _ l => l).

(** Every device answers its reads with status 500 and a body that
    holds one light. *)
Definition status500_env : Env :=
  mk_env (fun _ _ => GetResp 500 (one_light 1 50 250))
         (fun _ _ _ => PutResp 200)
         (fun _ l => l).

(** A device that times out on the first four steps of a run and
    answers from then on, and one that never answers. *)
Definition flaky_env : Env :=
  mk_env (fun _ n => if decide (n < 4)%nat
                     then GetFail (LibError "timeout")
                     else GetResp 200 (one_light 0 50 250))
         (fun _ _ _ => PutResp 200)
         (fun _ l => l).

Definition dead_env : Env :=
  mk_env (fun _ _ => GetFail (LibError "timeout"))
         (fun _ _ _ => PutFail (LibError "timeout"))
         (fun _ l => l).

(** Two devices at 40% and 60% brightness (wire 250 and 200) and a
    third that does not answer; every write is accepted. *)
Definition mixed_env : Env :=
  mk_env (fun ip _ =>
            if decide (ip = "10.0.0.1") then GetResp 200 (one_light 1 40 250)
            else if decide (ip = "10.0.0.2") then GetResp 200 (one_light 1 60 200)
            else GetFail (LibError "timeout"))
         (fun _ _ _ => PutResp 200)
         (fun _ l => l).

(** [calm_env] with every map visited in the opposite order. *)
Definition reversed_env : Env :=
  mk_env (fun _ _ => GetResp 200 (one_light 1 50 250))
         (fun _ _ _ => PutResp 200)
         (fun _ l => reverse l).

(** The device at 10.0.0.3 answers every write with status 500, the
    others accept. *)
Definition rejecting_env : Env :=
  mk_env (fun _ _ => GetResp 200 (one_light 1 50 250))
         (fun ip _ _ => if decide (ip = "10.0.0.3") then PutResp 500
                        else PutResp 200)
         (fun _ l => l).

(** Two devices that report a brightness of 1% and 2%, below the
    documented range. *)
Definition dim_env : Env :=
  mk_env (fun ip _ =>
            if decide (ip = "10.0.0.1") then GetResp 200 (one_light 1 1 250)
            else GetResp 200 (one_light 1 2 250))
         (fun _ _ _ => PutResp 200)
         (fun _ l => l).

Definition st0 : St := {| tick := 0; disk := Unreadable; trace := [] |}.

Definition st_with (f : ConfigFile) : St := {| tick := 0; disk := f; trace := [] |}.

Definition two_lights : gmap string string :=
  <["Left" := "10.0.0.1"]> (<["Right" := "10.0.0.2"]> ∅).

Definition three_lights : gmap string string :=
  <["Back" := "10.0.0.3"]> two_lights.

Definition demo_config (l : gmap string string) (b t : Z) : Config :=
  {| Lights := l; LastBrightness := b; LastTemperature := t;
     LastSelectedLight := "" |}.

Definition demo_model (f : controlFocus) (b t : Z) : model :=
  {| config := demo_config two_lights b t;
     lights := two_lights;
     lightsList := ["Left"; "Right"];
     selectedLightMode := allLights;
     focusedControl := f;
     brightnessValue := b;
     temperatureValue := t;
     message := "";
     quitting := false |}.

(** A session with a single registered device. *)
Definition one_light_model (mode : lightMode) : model :=
  {| config := demo_config {["Left" := "10.0.0.1"]} 50 4000;
     lights := {["Left" := "10.0.0.1"]};
     lightsList := ["Left"];
     selectedLightMode := mode;
     focusedControl := focusToggle;
     brightnessValue := 50;
     temperatureValue := 4000;
     message := "";
     quitting := false |}.

(** "Clamped to range", as the specification words it. *)
Definition clamp (lo hi x : Z) : Z := Z.max lo (Z.min hi x).

(** The state after [time.Sleep(100 * time.Millisecond)]. *)
Definition slept (s : St) : St :=
  {| tick := S (tick s); disk := disk s; trace := trace s ++ [EvSleep 100] |}.

(** The round trip Kelvin, wire, Kelvin at [k] drifts upward by at most 48. *)
Definition roundtrip_ok (k : Z) : bool :=
  match elgatoTemp k with
  | Some w =>
      match currentTemp w with
      | Some k' => bool_decide (k <= k' <= k + 48)
      | None => false
      end
  | None => false
  end.

(** ** More of the command line *)

Section Listing.

Variable E : Env.

(** [cliList]: the registry, numbered in the order the map is visited. *)
Definition cliList (config : Config) : M unit :=
  if decide (size (Lights config) = 0%nat)
  then Println "No lights configured. Run: keylight detect"
  else
    Println "Configured lights:";;
    entries ← range_map E (Lights config);
    for_range (fun (i : Z) '(name, ip) =>
      Println ("  " +:+ pretty i +:+ ". " +:+ name +:+ " (" +:+ ip +:+ ")");;
      mret (Continue, i + 1)) entries 1;;
    mret tt.

(** [cliStatus]: one line per device, from a live read. *)
Definition cliStatus (config : Config) : M unit :=
  if decide (size (Lights config) = 0%nat)
  then Println "No lights configured. Run: keylight detect"
  else
    Println "Light status:";;
    entries ← range_map E (Lights config);
    for_range (fun (_ : unit) '(name, ip) =>
      r ← getLightState E ip;
      match r with
      | Err _ =>
          Println ("  " +:+ name +:+ ": Offline");;
          mret (Continue, tt)
      | Ok state =>
          let status := if decide (On state = 1) then "On" else "Off" in
          temp ← eval (currentTemp (Temperature state));
          Println ("  " +:+ name +:+ ": " +:+ status +:+ " | Brightness: "
                   +:+ pretty (Brightness state) +:+ "% | Temperature: "
                   +:+ pretty temp +:+ "K");;
          mret (Continue, tt)
      end) entries tt.

End Listing.

(** ** Vocabulary for effects *)

(** The computation [c] leaves the settings file alone and every event it
    adds to the trace satisfies [P], whether it returns, exits or
    panics. *)
Definition emits (P : Event -> Prop) {A : Type} (c : M A) : Prop :=
  forall st,
    disk (c st).2 = disk st /\
    exists t, trace (c st).2 = trace st ++ t /\ Forall P t.

(** The computation [c] returns, with a value that satisfies [Q]: it
    neither exits nor panics. *)
Definition yields {A : Type} (Q : A -> Prop) (c : M A) : Prop :=
  forall st, exists a st', c st = (Ret a, st') /\ Q a.

(** The computation [c] never ends the process with [os.Exit]. *)
Definition no_exit {A : Type} (c : M A) : Prop :=
  forall st code st', c st <> (Exit code, st').

(** An argument list whose value the commands [bright] and [temp]
    reject: the value is missing, or it is none of [+], [-] and [=] and
    either no number or a number outside [lo..hi]. *)
Definition rejected (E : Env) (lo hi : Z) (args : list string) : Prop :=
  match args !! 2%nat with
  | None => True
  | Some action =>
      (action ∉ ["+"; "-"; "="]) /\
      (match sscanf_d E action with
       | Some v => v < lo \/ v > hi
       | None => True
       end)
  end.

Definition not_save (e : Event) : Prop :=
  match e with EvSave _ _ => False | _ => True end.

Definition not_write (e : Event) : Prop :=
  match e with EvSave _ _ | EvPut _ _ _ => False | _ => True end.

Definition is_print (e : Event) : Prop :=
  match e with EvPrint _ => True | _ => False end.

(** The sleeps of a trace, in milliseconds. *)
Definition sleeps_of (t : list Event) : list Z :=
  omap (fun e => match e with EvSleep ms => Some ms | _ => None end) t.

(** The lines a run printed. *)
Definition prints_of (t : list Event) : list string :=
  omap (fun e => match e with EvPrint s => Some s | _ => None end) t.

(** The body of a PUT that only switches the light. *)
Definition on_patch (on : Z) : Patch :=
  {| p_on := Some on; p_brightness := None; p_temperature := None |}.

(** The state a toggle writes after the reading [s]. *)
Definition toggled (s : LightState) : Z := if decide (On s = 0) then 1 else 0.

(** The state [toggleLight] writes after the reply to its read: on when
    the read failed. *)
Definition toggle_value (reply : GetReply) : Z :=
  match readable reply with
  | Some s => toggled s
  | None => 1
  end.

(** The state after one more line of output. *)
Definition printed (st : St) (line : string) : St :=
  {| tick := S (tick st); disk := disk st; trace := trace st ++ [EvPrint line] |}.

(** The write a relative brightness step makes after the read [x] of a
    device: none when the read failed. *)
Definition step_write (step : Z -> Z) (x : string * GetReply)
    : option (string * Patch) :=
  s ← readable x.2; Some (x.1, bright_patch (step (Brightness s))).

(** The line [cliList] prints for the entry [x] under the number [i]. *)
Definition list_line (i : Z) (x : string * string) : string :=
  "  " +:+ pretty i +:+ ". " +:+ x.1 +:+ " (" +:+ x.2 +:+ ")".

(** Every device reports a temperature of 0 on the wire scale. *)
Definition zero_env : Env :=
  mk_env (fun _ _ => GetResp 200 (one_light 1 50 0))
         (fun _ _ _ => PutResp 200)
         (fun _ l => l).

(** An event that concerns the device at [ip] only: a request to this
    address, a line of output or a pause. *)
Definition addressed_to (ip : string) (e : Event) : Prop :=
  match e with
  | EvGet ip' _ | EvPut ip' _ _ => ip' = ip
  | EvPrint _ | EvSleep _ => True
  | EvSave _ _ | EvGo _ => False
  end.

(** ** Switching every light in parallel

    [cliTurnOn] and [cliTurnOff] start one goroutine per light and then
    collect one result per light from a channel whose buffer holds as
    many results as there are lights.  The scheduler is free to run the
    goroutines in any order and to interleave them with the collecting
    loop, so the commands are a step relation on the state below rather
    than a function; a call of [setLight] is one step. *)

Record Par := mkPar {
  unspawned : list (string * string);      (* entries the first loop has yet to visit *)
  started : list (string * string);        (* goroutines before their call of [setLight] *)
  holding : list (string * option error);  (* goroutines after it, before their send *)
  results : list (string * option error);  (* the buffer of the channel, oldest first *)
  remaining : nat;                         (* iterations the collecting loop has yet to run *)
  world : St;
}.

(** The line the collecting loop prints for a result. *)
Definition turnOn_report (name : string) (err : option error) : string :=
  match err with
  | Some _ => "✗ Failed to turn on " +:+ name
  | None => "✓ Turned on " +:+ name
  end.

Definition turnOff_report (name : string) (err : option error) : string :=
  match err with
  | Some _ => "✗ Failed to turn off " +:+ name
  | None => "✓ Turned off " +:+ name
  end.

(** One step of the command that writes [on], reports with [report] and
    has a channel of capacity [cap]: the first loop starts a goroutine;
    a goroutine calls [setLight]; a goroutine sends its result, which
    needs room in the buffer; the collecting loop, once every goroutine
    is started, receives the oldest result and prints its line. *)
Inductive par_step (E : Env) (on : Z) (report : string -> option error -> string)
    (cap : nat) : Par -> Par -> Prop :=
  | par_go p name ip rest :
      unspawned p = (name, ip) :: rest ->
      par_step E on report cap p
        {| unspawned := rest; started := started p ++ [(name, ip)];
           holding := holding p; results := results p;
           remaining := remaining p; world := world p |}
  | par_call p l1 name ip l2 err st' :
      started p = l1 ++ (name, ip) :: l2 ->
      setLight E ip (Some on) None None (world p) = (Ret err, st') ->
      par_step E on report cap p
        {| unspawned := unspawned p; started := l1 ++ l2;
           holding := holding p ++ [(name, err)]; results := results p;
           remaining := remaining p; world := st' |}
  | par_send p h1 r h2 :
      holding p = h1 ++ r :: h2 ->
      (length (results p) < cap)%nat ->
      par_step E on report cap p
        {| unspawned := unspawned p; started := started p;
           holding := h1 ++ h2; results := results p ++ [r];
           remaining := remaining p; world := world p |}
  | par_recv p name err rest k st' :
      unspawned p = [] ->
      remaining p = S k ->
      results p = (name, err) :: rest ->
      Println (report name err) (world p) = (Ret tt, st') ->
      par_step E on report cap p
        {| unspawned := []; started := started p;
           holding := holding p; results := rest;
           remaining := k; world := st' |}.

(** The state in which the first loop begins, and the states in which
    the command returns. *)
Definition par_init (entries : list (string * string)) (n : nat) (st : St) : Par :=
  {| unspawned := entries; started := []; holding := []; results := [];
     remaining := n; world := st |}.

Definition par_done (p : Par) : Prop := unspawned p = [] /\ remaining p = 0%nat.

(** The runs of a command from its first state: the states reached. *)
Definition par_runs (E : Env) (on : Z) (report : string -> option error -> string)
    (config : Config) (st : St) (p : Par) : Prop :=
  exists entries st1,
    range_map E (Lights config) st = (Ret entries, st1) /\
    rtc (par_step E on report (size (Lights config)))
        (par_init entries (size (Lights config)) st1) p.

(** [cliTurnOn config] and [cliTurnOff config] take [st] to [st']. *)
Definition cliTurnOn (E : Env) (config : Config) (st st' : St) : Prop :=
  exists p, par_runs E 1 turnOn_report config st p /\ par_done p /\ world p = st'.

Definition cliTurnOff (E : Env) (config : Config) (st st' : St) : Prop :=
  exists p, par_runs E 0 turnOff_report config st p /\ par_done p /\ world p = st'.

(** The writes of a trace with their replies. *)
Definition put_events (t : list Event) : list (string * Patch * PutReply) :=
  omap (fun e => match e with EvPut ip p r => Some (ip, p, r) | _ => None end) t.

(** The steps a state is away from the end of the command. *)
Definition par_measure (p : Par) : nat :=
  4 * length (unspawned p) + 3 * length (started p)
  + 2 * length (holding p) + length (results p).

(** What the steps keep true.  [called] lists the calls of [setLight]
    made so far with the reply each got, [printed] the results the
    collecting loop has received. *)
Definition par_inv (on : Z) (report : string -> option error -> string)
    (entries : list (string * string)) (st0 : St) (p : Par) : Prop :=
  exists (called : list (string * string * PutReply))
         (printed : list (string * option error)) (t : list Event),
    trace (world p) = trace st0 ++ t /\ disk (world p) = disk st0 /\
    unspawned p ++ started p ++ called.*1 ≡ₚ entries /\
    holding p ++ results p ++ printed
      ≡ₚ (fun d => (d.1.1, put_error d.2)) <$> called /\
    put_events t = (fun d => (d.1.2, on_patch on, d.2)) <$> called /\
    prints_of t = (fun r => report r.1 r.2) <$> printed /\
    gets_of t = [] /\ saves_of t = [] /\
    (remaining p + length printed = length entries)%nat.

(** ** Ranges of what the devices report

    The values a relative step or an equalize run starts from are the
    values the devices report.  The brightness is reported as it is
    written; the temperature is reported on the wire scale and converted
    to Kelvin by [currentTemp]. *)

(** Devices that report a brightness within [3,100]. *)
Definition Env_bright_in_range (E : Env) : Prop :=
  forall ip n s, readable (http_get E ip n) = Some s -> 3 <= Brightness s <= 100.

(** Devices whose reported temperature has a Kelvin value, and one
    within [lo,hi]. *)
Definition Env_kelvin_between (lo hi : Z) (E : Env) : Prop :=
  forall ip n s, readable (http_get E ip n) = Some s ->
    exists k, currentTemp (Temperature s) = Some k /\ lo <= k <= hi.

(** The write a relative temperature step makes after the read [x] of a
    device: none when the read failed. *)
Definition temp_step_write (step : Z -> Z) (x : string * GetReply)
    : option (string * Patch) :=
  s ← readable x.2;
  k ← currentTemp (Temperature s);
  w ← elgatoTemp (step k);
  Some (x.1, temp_patch w).

(** The round trip Kelvin, wire, Kelvin with the rounded quotient of the
    specification stays within 48 of [k]. *)
Definition spec_roundtrip_ok (k : Z) : bool :=
  bool_decide (Z.abs (spec_kelvin (spec_wire k) - k) <= 48).

(** The device at 10.0.0.1 answers its read without a temperature, which
    decodes to 0; the other devices report 60% and wire 250. *)
Definition unset_temperature_env : Env :=
  mk_env (fun ip _ =>
            if decide (ip = "10.0.0.1") then GetResp 200 (one_light 1 40 0)
            else GetResp 200 (one_light 1 60 250))
         (fun _ _ _ => PutResp 200)
         (fun _ l => l).

(** Every device reports 50% and the wire value 142, which is what
    [temp 7000] sends; its Kelvin value is 7042. *)
Definition edge_env : Env :=
  mk_env (fun _ _ => GetResp 200 (one_light 1 50 142))
         (fun _ _ _ => PutResp 200)
         (fun _ l => l).

(** * Properties *)

(** ** Go integers *)

Lemma wrap_small x : GoInt.in_range x -> GoInt.wrap x = x.
Proof.
  unfold GoInt.in_range, GoInt.min_int, GoInt.max_int, GoInt.wrap. intros H.
  rewrite Z.mod_small by lia. lia.
Qed.

Lemma wrap_in_range x : GoInt.in_range (GoInt.wrap x).
Proof.
  unfold GoInt.in_range, GoInt.min_int, GoInt.max_int, GoInt.wrap.
  pose proof (Z.mod_pos_bound (x + 2 ^ 63) (2 ^ 64) ltac:(lia)). lia.
Qed.

Lemma small_in_range x : - 2 ^ 62 <= x <= 2 ^ 62 -> GoInt.in_range x.
Proof. unfold GoInt.in_range, GoInt.min_int, GoInt.max_int. lia. Qed.

Lemma add_small a b : GoInt.in_range (a + b) -> GoInt.add a b = a + b.
Proof. apply wrap_small. Qed.

Lemma sub_small a b : GoInt.in_range (a - b) -> GoInt.sub a b = a - b.
Proof. apply wrap_small. Qed.

Lemma quot_pos a b :
  0 <= a <= GoInt.max_int -> 0 < b -> GoInt.quot a b = Some (a / b).
Proof.
  intros Ha Hb. unfold GoInt.quot. rewrite decide_False by lia.
  rewrite Z.quot_div_nonneg by lia.
  rewrite wrap_small; [done|].
  unfold GoInt.in_range, GoInt.min_int, GoInt.max_int in *.
  pose proof (Z.div_pos a b ltac:(lia) Hb).
  assert (a / b <= a) by (apply Z.div_le_upper_bound; nia).
  lia.
Qed.

(** ** Kelvin and the wire scale *)

Lemma roundtrip_ok_all :
  forallb (fun n => roundtrip_ok (2900 + Z.of_nat n)) (seq 0 4101) = true.
Proof. vm_compute. reflexivity. Qed.

Lemma roundtrip_ok_range k : 2900 <= k <= 7000 -> roundtrip_ok k = true.
Proof.
  intros Hk.
  pose proof roundtrip_ok_all as Hall.
  rewrite forallb_forall in Hall.
  specialize (Hall (Z.to_nat (k - 2900))).
  rewrite Z2Nat.id in Hall by lia.
  replace (2900 + (k - 2900)) with k in Hall by lia.
  apply Hall. apply in_seq. lia.
Qed.

(** C2, as stated, fails: 7000K goes to wire 142 and comes back as 7042K.
    The rounding formula of the specification does not stay within 1
    either: 7000K goes to 143 and comes back as 6993K. *)
Lemma kelvin_roundtrip_within_1_fails :
  elgatoTemp 7000 = Some 142 /\ currentTemp 142 = Some 7042 /\
  ~ (Z.abs (7042 - 7000) <= 1) /\
  spec_wire 7000 = 143 /\ spec_kelvin 143 = 6993 /\
  ~ (Z.abs (6993 - 7000) <= 1).
Proof. vm_compute. intuition congruence. Qed.

Lemma spec_roundtrip_ok_all :
  forallb (fun n => spec_roundtrip_ok (2900 + Z.of_nat n)) (seq 0 4101) = true.
Proof. vm_compute. reflexivity. Qed.

Lemma spec_roundtrip_ok_range k : 2900 <= k <= 7000 -> spec_roundtrip_ok k = true.
Proof.
  intros Hk.
  pose proof spec_roundtrip_ok_all as Hall.
  rewrite forallb_forall in Hall.
  specialize (Hall (Z.to_nat (k - 2900))).
  rewrite Z2Nat.id in Hall by lia.
  replace (2900 + (k - 2900)) with k in Hall by lia.
  apply Hall. apply in_seq. lia.
Qed.

(** C2 (amended): for every Kelvin value K in [2900,7000], the conversion
    to the wire scale and back is defined and yields a value within 48
    of K.  The bound does not depend on how the quotient is made an
    integer: it holds for the conversion the program makes and for the
    rounded quotient of the specification. *)
Theorem kelvin_roundtrip_drift (k : Z) :
  2900 <= k <= 7000 ->
  (exists w k', elgatoTemp k = Some w /\ currentTemp w = Some k' /\
                Z.abs (k' - k) <= 48) /\
  Z.abs (spec_kelvin (spec_wire k) - k) <= 48.
Proof.
  intros Hk. split.
  - pose proof (roundtrip_ok_range k Hk) as H.
    unfold roundtrip_ok in H.
    destruct (elgatoTemp k) as [w|]; [|done].
    destruct (currentTemp w) as [k'|] eqn:Hback; [|done].
    apply bool_decide_eq_true in H. exists w, k'.
    split; [done|]. split; [done|]. lia.
  - pose proof (spec_roundtrip_ok_range k Hk) as H.
    unfold spec_roundtrip_ok in H. by apply bool_decide_eq_true in H.
Qed.

Lemma kelvin_roundtrip_drift_witness :
  2900 <= 6945 <= 7000 /\
  (exists w k', elgatoTemp 6945 = Some w /\ currentTemp w = Some k' /\
                Z.abs (k' - 6945) <= 48) /\
  Z.abs (spec_kelvin (spec_wire 6945) - 6945) <= 48.
Proof. split; [lia | apply (kelvin_roundtrip_drift 6945); lia]. Defined.

(** The program's conversion reaches the bound 48. *)
Lemma kelvin_roundtrip_drift_tight :
  elgatoTemp 6945 = Some 143 /\ currentTemp 143 = Some (6945 + 48).
Proof. vm_compute. done. Qed.

(** ** Running commands *)

Lemma run_bind {A B} (c : M A) (f : A -> M B) (s : St) :
  (c ≫= f) s =
  match c s with
  | (Ret a, s') => f a s'
  | (Exit code, s') => (Exit code, s')
  | (Panic, s') => (Panic, s')
  end.
Proof. reflexivity. Qed.

Lemma run_ret {A} (a : A) (s : St) : (mret a : M A) s = (Ret a, s).
Proof. reflexivity. Qed.

Ltac run := repeat (rewrite ?run_bind, ?run_ret; cbn [fst snd]).

(** Case analysis on the comparisons of a goal, closing the branches that
    contradict themselves. *)
Ltac decide_all :=
  repeat (case_decide; try (exfalso; intuition congruence)).

Lemma collect_names (l : list (string * string)) (acc : list string) (st : St) :
  for_range (fun (acc : list string) '(name, _) =>
               (mret (Continue, acc ++ [name]) : M _)) l acc st
  = (Ret (acc ++ l.*1), st).
Proof.
  revert acc. induction l as [|[name ip] l IH]; intros acc; simpl.
  - by rewrite app_nil_r.
  - run. rewrite IH. by rewrite <- app_assoc.
Qed.

Lemma collect_ips (l : list (string * string)) (acc : list string) (st : St) :
  for_range (fun (ips : list string) '(_, ip) =>
               (mret (Continue, ips ++ [ip]) : M _)) l acc st
  = (Ret (acc ++ l.*2), st).
Proof.
  revert acc. induction l as [|[name ip] l IH]; intros acc; simpl.
  - by rewrite app_nil_r.
  - run. rewrite IH. by rewrite <- app_assoc.
Qed.

(** ** Loops and device calls *)

(** A loop whose body always runs to its end: an invariant over the
    entries visited so far carries over to the whole loop. *)
Lemma for_range_total {A S : Type} (body : S -> A -> M (LoopCtl * S))
    (I : list A -> S -> St -> Prop) (l : list A) (s0 : S) (st0 : St) :
  I [] s0 st0 ->
  (forall seen x s st, I seen s st ->
     exists s' st', body s x st = (Ret (Continue, s'), st') /\
                    I (seen ++ [x]) s' st') ->
  exists s' st', for_range body l s0 st0 = (Ret s', st') /\ I l s' st'.
Proof.
  intros H0 Hstep.
  assert (forall seen s st, I seen s st ->
            exists s' st', for_range body l s st = (Ret s', st') /\
                           I (seen ++ l) s' st') as Hgen.
  { induction l as [|x l IH]; intros seen s st HI.
    - exists s, st. rewrite app_nil_r. done.
    - destruct (Hstep seen x s st HI) as (s1 & st1 & Hbody & HI1).
      destruct (IH (seen ++ [x]) s1 st1 HI1) as (s2 & st2 & Hrest & HI2).
      exists s2, st2. cbn [for_range]. run. rewrite Hbody.
      rewrite <- app_assoc in HI2. done. }
  apply (Hgen [] s0 st0 H0).
Qed.

Lemma getLightState_run (E : Env) (ip : string) (st : St) :
  getLightState E ip st =
  (Ret (read_result (http_get E ip (tick st))),
   {| tick := S (tick st); disk := disk st;
      trace := trace st ++ [EvGet ip (http_get E ip (tick st))] |}).
Proof.
  unfold getLightState, httpGet, read_result. run.
  destruct (http_get E ip (tick st)) as [e|status [resp|e]]; try reflexivity.
  destruct (RespLights resp); reflexivity.
Qed.

Lemma setLight_run (E : Env) (ip : string) (on b : option Z) (st : St) :
  let p := {| p_on := on; p_brightness := b; p_temperature := None |} in
  setLight E ip on b None st =
  (Ret (put_error (http_put E ip p (tick st))),
   {| tick := S (tick st); disk := disk st;
      trace := trace st ++ [EvPut ip p (http_put E ip p (tick st))] |}).
Proof.
  unfold setLight, httpPut, put_error. run.
  destruct (http_put E ip _ (tick st)); try reflexivity.
  case_decide; reflexivity.
Qed.

Lemma setLight_temp_run (E : Env) (ip : string) (on b : option Z)
    (kelvin wire : Z) (st : St) :
  elgatoTemp kelvin = Some wire ->
  let p := {| p_on := on; p_brightness := b; p_temperature := Some wire |} in
  setLight E ip on b (Some kelvin) st =
  (Ret (put_error (http_put E ip p (tick st))),
   {| tick := S (tick st); disk := disk st;
      trace := trace st ++ [EvPut ip p (http_put E ip p (tick st))] |}).
Proof.
  intros Hw p. unfold setLight, httpPut, put_error. rewrite Hw.
  cbn [eval]. run. fold p.
  destruct (http_put E ip p (tick st)); try reflexivity.
  case_decide; reflexivity.
Qed.

Lemma setLight_temp_panics (E : Env) (ip : string) (on b : option Z) (st : St) :
  setLight E ip on b (Some 0) st = (Panic, st).
Proof. reflexivity. Qed.

Lemma range_map_run (E : Env) (m : gmap string string) (st : St) :
  range_map E m st =
  (Ret (range_order E (tick st) (map_to_list m)),
   {| tick := S (tick st); disk := disk st; trace := trace st |}).
Proof. reflexivity. Qed.

Lemma Println_run (line : string) (st : St) :
  Println line st =
  (Ret tt, {| tick := S (tick st); disk := disk st;
              trace := trace st ++ [EvPrint line] |}).
Proof. reflexivity. Qed.

(** ** Phases of a run *)

Lemma read_phase_nil E : read_phase E [] [].
Proof. repeat split; try done. intros ip r Hin. inversion Hin. Qed.

Lemma read_phase_snoc E seen t name ip n :
  read_phase E seen t ->
  read_phase E (seen ++ [(name, ip)]) (t ++ [EvGet ip (http_get E ip n)]).
Proof.
  intros (Hshape & Hips & Henv). unfold read_phase, gets_of in *.
  rewrite omap_app. cbn [omap]. repeat split.
  - rewrite fmap_app. cbn. by rewrite <- Hshape.
  - rewrite !fmap_app, Hips. done.
  - intros ip' r [Hin | Hin]%elem_of_app; [by apply Henv|].
    apply list_elem_of_singleton in Hin. injection Hin as -> ->. eauto.
Qed.

Lemma read_phase_quiet E seen t :
  read_phase E seen t -> puts_of t = [] /\ saves_of t = [].
Proof.
  intros (Hshape & _). rewrite Hshape. generalize (gets_of t). intros l.
  unfold puts_of, saves_of. split; induction l as [|x l IH]; cbn; done.
Qed.

Lemma readings_snoc f t ip r :
  readings f (t ++ [EvGet ip r]) =
  readings f t ++ match readable r with Some s => [f s] | None => [] end.
Proof.
  unfold readings, gets_of. rewrite omap_app, !fmap_app, omap_app, fmap_app.
  f_equal. cbn. destruct (readable r); done.
Qed.

Lemma go_sum_snoc l x : go_sum (l ++ [x]) = GoInt.add (go_sum l) x.
Proof. unfold go_sum. by rewrite foldl_snoc. Qed.

Lemma write_phase_nil p : write_phase p [] [].
Proof. done. Qed.

Lemma write_phase_snoc p seen t name ip r line :
  write_phase p seen t ->
  write_phase p (seen ++ [(name, ip)]) (t ++ [EvPut ip p r; EvPrint line]).
Proof.
  intros (Hg & Hs & Hp). unfold write_phase, gets_of, saves_of, puts_of in *.
  rewrite !omap_app, Hg, Hs, Hp, fmap_app. done.
Qed.

Lemma gets_of_app t1 t2 : gets_of (t1 ++ t2) = gets_of t1 ++ gets_of t2.
Proof. apply omap_app. Qed.

Lemma puts_of_app t1 t2 : puts_of (t1 ++ t2) = puts_of t1 ++ puts_of t2.
Proof. apply omap_app. Qed.

Lemma saves_of_app t1 t2 : saves_of (t1 ++ t2) = saves_of t1 ++ saves_of t2.
Proof. apply omap_app. Qed.

Lemma readings_app f t1 t2 :
  gets_of t2 = [] -> readings f (t1 ++ t2) = readings f t1.
Proof. intros H. unfold readings. by rewrite gets_of_app, H, app_nil_r. Qed.

(** ** Sums and means *)

Lemma Zsum_snoc l x : Zsum (l ++ [x]) = Zsum l + x.
Proof. unfold Zsum. induction l as [|y l IH]; cbn [foldr app]; lia. Qed.

Lemma go_sum_exact (l : list Z) (lo hi : Z) :
  0 <= lo -> hi <= 2 ^ 30 ->
  Forall (fun v => lo <= v <= hi) l ->
  (Z.of_nat (length l) < 2 ^ 32) ->
  go_sum l = Zsum l /\
  lo * Z.of_nat (length l) <= Zsum l <= hi * Z.of_nat (length l).
Proof.
  intros Hlo Hhi. induction l as [|x l IH] using rev_ind; intros Hall Hlen.
  - cbn. lia.
  - apply Forall_app in Hall as [Hall Hx]. rewrite Forall_singleton in Hx.
    rewrite length_app in *. cbn [length] in *.
    destruct (IH Hall ltac:(lia)) as (Hsum & Hbnd).
    rewrite go_sum_snoc, Zsum_snoc, Hsum.
    set (n := Z.of_nat (length l)) in *.
    assert (0 <= n < 2 ^ 32 - 1) as Hn by (subst n; lia).
    assert (hi * n <= 2 ^ 30 * n) as Hmul by nia.
    assert (0 <= lo * n) as Hmul' by nia.
    rewrite add_small by (apply small_in_range; lia).
    split; [done|]. replace (Z.of_nat (length l + 1)) with (n + 1) by (subst n; lia). lia.
Qed.

Lemma go_mean_exact (l : list Z) (lo hi : Z) :
  0 <= lo -> hi <= 2 ^ 30 -> l <> [] ->
  Forall (fun v => lo <= v <= hi) l ->
  (Z.of_nat (length l) < 2 ^ 32) ->
  go_mean l = Some (Zsum l / Z.of_nat (length l)) /\
  lo <= Zsum l / Z.of_nat (length l) <= hi.
Proof.
  intros Hlo Hhi Hne Hall Hlen.
  destruct (go_sum_exact l lo hi Hlo Hhi Hall Hlen) as (Hsum & Hbnd).
  assert (0 < Z.of_nat (length l)) as Hpos by (destruct l; [done | cbn; lia]).
  set (n := Z.of_nat (length l)) in *.
  assert (hi * n <= 2 ^ 30 * n) as Hmul by nia.
  assert (0 <= lo * n) as Hmul' by nia.
  unfold go_mean. fold n. rewrite Hsum. split.
  - apply quot_pos; [|done]. unfold GoInt.max_int. lia.
  - split.
    + apply Z.div_le_lower_bound; lia.
    + apply Z.div_le_upper_bound; lia.
Qed.

Lemma omap_length_le {A B} (f : A -> option B) (l : list A) :
  (length (omap f l) <= length l)%nat.
Proof.
  induction l as [|x l IH]; cbn; [lia|]. destruct (f x); cbn; lia.
Qed.

Lemma readings_length f t : (length (readings f t) <= length (gets_of t))%nat.
Proof.
  unfold readings. rewrite length_fmap.
  etrans; [apply omap_length_le|]. by rewrite length_fmap.
Qed.

Lemma readings_Forall (E : Env) (f : LightState -> Z) (P : Z -> Prop) t :
  (forall ip r, (ip, r) ∈ gets_of t -> exists n, r = http_get E ip n) ->
  (forall ip n s, readable (http_get E ip n) = Some s -> P (f s)) ->
  Forall P (readings f t).
Proof.
  intros Henv HP. unfold readings. apply Forall_fmap, Forall_forall.
  intros s Hs. apply list_elem_of_omap in Hs as (r & Hr & Hs).
  apply list_elem_of_fmap in Hr as ([ip r'] & -> & Hin).
  destruct (Henv ip r' Hin) as (n & ->). cbn in Hs. by eapply HP.
Qed.

Lemma currentTemp_in_range wire :
  143 <= wire <= 344 ->
  currentTemp wire = Some (1000000 / wire) /\ 2900 <= 1000000 / wire <= 7000.
Proof.
  intros Hw. split.
  - apply quot_pos; [unfold GoInt.max_int|]; lia.
  - split.
    + apply Z.div_le_lower_bound; lia.
    + apply Z.div_le_upper_bound; lia.
Qed.

Lemma elgatoTemp_in_range kelvin :
  2900 <= kelvin <= 7000 -> elgatoTemp kelvin = Some (1000000 / kelvin).
Proof. intros Hk. apply quot_pos; [unfold GoInt.max_int|]; lia. Qed.

Lemma kelvin_reading_in_range (E : Env) lo hi ip n s :
  Env_kelvin_between lo hi E -> readable (http_get E ip n) = Some s ->
  currentTemp (Temperature s) = Some (kelvin_reading s) /\
  lo <= kelvin_reading s <= hi.
Proof.
  intros HE Hs. destruct (HE ip n s Hs) as (k & Hc & Hbnd).
  unfold kelvin_reading. rewrite Hc. done.
Qed.

Lemma Env_in_range_bright (E : Env) : Env_in_range E -> Env_bright_in_range E.
Proof. intros HE ip n s Hs. by destruct (HE ip n s Hs). Qed.

Lemma Env_in_range_kelvin (E : Env) :
  Env_in_range E -> Env_kelvin_between 2900 7000 E.
Proof.
  intros HE ip n s Hs. destruct (HE ip n s Hs) as (_ & Hw).
  destruct (currentTemp_in_range _ Hw) as (Hc & Hbnd). eauto.
Qed.

Lemma Env_kelvin_between_weaken (E : Env) lo hi lo' hi' :
  lo' <= lo -> hi <= hi' ->
  Env_kelvin_between lo hi E -> Env_kelvin_between lo' hi' E.
Proof.
  intros Hlo Hhi HE ip n s Hs. destruct (HE ip n s Hs) as (k & Hc & Hbnd).
  exists k. split; [done | lia].
Qed.

(** ** The focus state machine *)

Lemma max_clamp_low lo hi x : lo <= hi -> x <= hi -> Z.max lo x = clamp lo hi x.
Proof. unfold clamp. lia. Qed.

Lemma min_clamp_high lo hi x : lo <= hi -> lo <= x -> Z.min hi x = clamp lo hi x.
Proof. unfold clamp. lia. Qed.

Lemma Update_value_rows (E : Env) (m : model) (key : string) (st : St) :
  let b := brightnessValue m in
  let t := temperatureValue m in
  (focusedControl m = focusBrightness -> key ∈ ["left"; "h"] ->
     exists m', Update E m (KeyMsg key) st = (Ret (m', None), st) /\
       focusedControl m' = focusBrightness /\
       brightnessValue m' = Z.max 3 (GoInt.sub b 5) /\
       temperatureValue m' = t) /\
  (focusedControl m = focusBrightness -> key ∈ ["right"; "l"] ->
     exists m', Update E m (KeyMsg key) st = (Ret (m', None), st) /\
       focusedControl m' = focusBrightness /\
       brightnessValue m' = Z.min 100 (GoInt.add b 5) /\
       temperatureValue m' = t) /\
  (focusedControl m = focusTemperature -> key ∈ ["left"; "h"] ->
     exists m', Update E m (KeyMsg key) st = (Ret (m', None), st) /\
       focusedControl m' = focusTemperature /\
       brightnessValue m' = b /\
       temperatureValue m' = Z.max 2900 (GoInt.sub t 200)) /\
  (focusedControl m = focusTemperature -> key ∈ ["right"; "l"] ->
     exists m', Update E m (KeyMsg key) st = (Ret (m', None), st) /\
       focusedControl m' = focusTemperature /\
       brightnessValue m' = b /\
       temperatureValue m' = Z.min 7000 (GoInt.add t 200)).
Proof.
  intros b t. subst b t. destruct m as [c ls ll mode f b t msg q]. cbn.
  repeat apply conj; intros -> Hkey; rewrite !elem_of_cons in Hkey;
    destruct Hkey as [-> | [-> | Hnil]]; try (by apply elem_of_nil in Hnil);
    unfold Update, navigate; cbn; decide_all;
    (eexists; split; [reflexivity|]); cbn in *; repeat split; lia.
Qed.

Lemma Update_rows (E : Env) (m : model) (st : St) :
  (focusedControl m <> focusTemperature ->
     exists m', Update E m (KeyMsg "down") st = (Ret (m', None), st) /\
       focusedControl m'
         = (if decide (focusedControl m = focusBrightness)
            then focusTemperature else focusBrightness) /\
       brightnessValue m' = brightnessValue m /\
       temperatureValue m' = temperatureValue m) /\
  (focusedControl m = focusTemperature ->
     exists m', Update E m (KeyMsg "up") st = (Ret (m', None), st) /\
       focusedControl m' = focusBrightness /\
       brightnessValue m' = brightnessValue m /\
       temperatureValue m' = temperatureValue m).
Proof.
  destruct m as [c ls ll mode f b t msg q]. cbn. split.
  - intros Hf. destruct f; try done;
      eexists; (split; [reflexivity|]); cbn; done.
  - intros ->. eexists. split; [reflexivity|]. done.
Qed.

(** C7, as stated, fails: the value a step left leaves is stopped at the
    lower bound only.  A session started from a settings file that
    stores a last brightness of 200 has 195 pending after down and left,
    where the value clamped to the range is 100. *)
Lemma left_from_200_is_not_clamped :
  exists m2,
    fst ((m0 ← initialModel calm_env;
          '(m1, _) ← Update calm_env m0 (KeyMsg "down");
          Update calm_env m1 (KeyMsg "left"))
           (st_with (Parsed (demo_config two_lights 200 4000))))
      = Ret (m2, None) /\
    focusedControl m2 = focusBrightness /\
    brightnessValue m2 = 195 /\
    clamp 3 100 (200 - 5) = 100 /\
    brightnessValue m2 <> clamp 3 100 (200 - 5).
Proof.
  eexists. split; [vm_compute; reflexivity|]. cbn. repeat split; try done.
Qed.

(** C7 (amended): from an action button, down moves the focus to
    Brightness and a second down to Temperature; from Temperature, up
    moves it to Brightness.  On the Brightness and Temperature rows, left
    and right keep the focus and move the pending value by 5,
    respectively 200; left stops at the lower bound of the range and
    right at the upper bound, and neither looks at the other bound.  For
    a pending value within [3,100], respectively [2900,7000], the result
    is the moved value clamped to the range.  No step has an effect
    outside the model, and the other pending value is kept. *)
Theorem focus_machine (E : Env) (m : model) (st : St) :
  let b := brightnessValue m in
  let t := temperatureValue m in
  (focusedControl m ∈ [focusToggle; focusTurnOff; focusTurnOn] ->
     exists m1 m2,
       Update E m (KeyMsg "down") st = (Ret (m1, None), st) /\
       focusedControl m1 = focusBrightness /\
       brightnessValue m1 = b /\ temperatureValue m1 = t /\
       Update E m1 (KeyMsg "down") st = (Ret (m2, None), st) /\
       focusedControl m2 = focusTemperature /\
       brightnessValue m2 = b /\ temperatureValue m2 = t) /\
  (focusedControl m = focusTemperature ->
     exists m1,
       Update E m (KeyMsg "up") st = (Ret (m1, None), st) /\
       focusedControl m1 = focusBrightness /\
       brightnessValue m1 = b /\ temperatureValue m1 = t) /\
  (focusedControl m = focusBrightness ->
     exists ml mr,
       Update E m (KeyMsg "left") st = (Ret (ml, None), st) /\
       focusedControl ml = focusBrightness /\
       brightnessValue ml = Z.max 3 (GoInt.sub b 5) /\ temperatureValue ml = t /\
       Update E m (KeyMsg "right") st = (Ret (mr, None), st) /\
       focusedControl mr = focusBrightness /\
       brightnessValue mr = Z.min 100 (GoInt.add b 5) /\ temperatureValue mr = t) /\
  (focusedControl m = focusTemperature ->
     exists ml mr,
       Update E m (KeyMsg "left") st = (Ret (ml, None), st) /\
       focusedControl ml = focusTemperature /\
       temperatureValue ml = Z.max 2900 (GoInt.sub t 200) /\ brightnessValue ml = b /\
       Update E m (KeyMsg "right") st = (Ret (mr, None), st) /\
       focusedControl mr = focusTemperature /\
       temperatureValue mr = Z.min 7000 (GoInt.add t 200) /\ brightnessValue mr = b) /\
  (forall v d, - 2 ^ 62 <= v <= 2 ^ 62 -> 0 <= d <= 200 ->
     GoInt.sub v d = v - d /\ GoInt.add v d = v + d) /\
  (3 <= b <= 100 ->
     Z.max 3 (GoInt.sub b 5) = clamp 3 100 (b - 5) /\
     Z.min 100 (GoInt.add b 5) = clamp 3 100 (b + 5)) /\
  (2900 <= t <= 7000 ->
     Z.max 2900 (GoInt.sub t 200) = clamp 2900 7000 (t - 200) /\
     Z.min 7000 (GoInt.add t 200) = clamp 2900 7000 (t + 200)).
Proof.
  intros b t. subst b t. repeat apply conj.
  - intros Hf.
    assert (focusedControl m <> focusTemperature /\
            focusedControl m <> focusBrightness) as (Hnt & Hnb).
    { rewrite !elem_of_cons in Hf.
      destruct Hf as [-> | [-> | [-> | Hnil]]]; try done.
      by apply elem_of_nil in Hnil. }
    destruct (proj1 (Update_rows E m st) Hnt) as (m1 & H1 & Hf1 & Hb1 & Ht1).
    rewrite decide_False in Hf1 by done.
    destruct (proj1 (Update_rows E m1 st)) as (m2 & H2 & Hf2 & Hb2 & Ht2).
    { by rewrite Hf1. }
    rewrite Hf1 in Hf2.
    rewrite decide_True in Hf2 by done.
    exists m1, m2. rewrite Hb2, Ht2, Hb1, Ht1. done.
  - intros Hf. by apply (proj2 (Update_rows E m st)).
  - intros Hf.
    destruct (Update_value_rows E m "left" st) as (Hl & _).
    destruct (Update_value_rows E m "right" st) as (_ & Hr & _).
    destruct (Hl Hf) as (ml & ? & ? & ? & ?); [apply list_elem_of_here|].
    destruct (Hr Hf) as (mr & ? & ? & ? & ?); [apply list_elem_of_here|].
    exists ml, mr. done.
  - intros Hf.
    destruct (Update_value_rows E m "left" st) as (_ & _ & Hl & _).
    destruct (Update_value_rows E m "right" st) as (_ & _ & _ & Hr).
    destruct (Hl Hf) as (ml & ? & ? & ? & ?); [apply list_elem_of_here|].
    destruct (Hr Hf) as (mr & ? & ? & ? & ?); [apply list_elem_of_here|].
    exists ml, mr. done.
  - intros v d Hv Hd. split; [apply sub_small | apply add_small];
      unfold GoInt.in_range, GoInt.min_int, GoInt.max_int; lia.
  - intros Hb. split.
    + rewrite sub_small by (apply small_in_range; lia).
      apply max_clamp_low; lia.
    + rewrite add_small by (apply small_in_range; lia).
      apply min_clamp_high; lia.
  - intros Ht. split.
    + rewrite sub_small by (apply small_in_range; lia).
      apply max_clamp_low; lia.
    + rewrite add_small by (apply small_in_range; lia).
      apply min_clamp_high; lia.
Qed.

Lemma focus_machine_witness :
  (exists m1 m2,
     Update calm_env (demo_model focusTurnOff 50 4000) (KeyMsg "down") st0
       = (Ret (m1, None), st0) /\
     focusedControl m1 = focusBrightness /\
     Update calm_env m1 (KeyMsg "down") st0 = (Ret (m2, None), st0) /\
     focusedControl m2 = focusTemperature) /\
  (exists m1,
     Update calm_env (demo_model focusTemperature 50 4000) (KeyMsg "up") st0
       = (Ret (m1, None), st0) /\
     focusedControl m1 = focusBrightness) /\
  (exists ml,
     Update calm_env (demo_model focusBrightness 5 6900) (KeyMsg "left") st0
       = (Ret (ml, None), st0) /\
     brightnessValue ml = Z.max 3 (GoInt.sub 5 5)) /\
  Z.max 3 (GoInt.sub 5 5) = clamp 3 100 (5 - 5) /\
  Z.min 7000 (GoInt.add 6900 200) = clamp 2900 7000 (6900 + 200).
Proof.
  pose proof (focus_machine calm_env (demo_model focusTurnOff 50 4000) st0)
    as (Hdown & _).
  pose proof (focus_machine calm_env (demo_model focusTemperature 50 4000) st0)
    as (_ & Hup & _).
  pose proof (focus_machine calm_env (demo_model focusBrightness 5 6900) st0)
    as (_ & _ & Hrow & _ & _ & Hb & Ht).
  split.
  { destruct Hdown as (m1 & m2 & H1 & Hf1 & _ & _ & H2 & Hf2 & _);
      [apply list_elem_of_further, list_elem_of_here|].
    exists m1, m2. split; [exact H1|]. split; [exact Hf1|].
    split; [exact H2 | exact Hf2]. }
  split.
  { destruct Hup as (m1 & H1 & Hf1 & _); [reflexivity|].
    exists m1. split; [exact H1 | exact Hf1]. }
  split.
  { destruct Hrow as (ml & mr & H1 & _ & Hbl & _); [reflexivity|].
    exists ml. split; [exact H1 | exact Hbl]. }
  split; [apply Hb; simpl; lia | apply Ht; simpl; lia].
Defined.

(** ** Selection *)

Lemma loadConfig_returns (st : St) :
  exists c, loadConfig st = (Ret c, st).
Proof. unfold loadConfig. destruct (disk st); eauto. Qed.

(** The names of a session are the names of the registry, in the order
    the map was visited at start. *)
Lemma initialModel_lightsList (E : Env) (st : St) :
  Env_ok E ->
  exists m st',
    initialModel E st = (Ret m, st') /\
    lightsList m ≡ₚ (map_to_list (lights m)).*1 /\
    length (lightsList m) = size (lights m).
Proof.
  intros HE. destruct (loadConfig_returns st) as (c & Hc).
  unfold initialModel. run. rewrite Hc. run.
  rewrite range_map_run. run. rewrite collect_names. run.
  eexists _, _. split; [reflexivity|]. cbn [lightsList lights app].
  assert (Lights (if decide (LastTemperature
                      (if decide (LastBrightness c = 0)
                       then set_LastBrightness c 50 else c) = 0)
                  then set_LastTemperature
                         (if decide (LastBrightness c = 0)
                          then set_LastBrightness c 50 else c) 4000
                  else if decide (LastBrightness c = 0)
                       then set_LastBrightness c 50 else c) = Lights c) as ->.
  { repeat case_decide; reflexivity. }
  assert ((range_order E (tick st) (map_to_list (Lights c))).*1
            ≡ₚ (map_to_list (Lights c)).*1) as Hperm by (by rewrite (HE _ _)).
  split; [done|].
  by rewrite (Permutation_length Hperm), length_fmap, length_map_to_list.
Qed.

(** C6: pressing the key of an ordinal that has no device leaves the
    model as it was, selection mode included, and has no effect; under a
    mode whose ordinal has no device the selection resolves to no address
    at all.  The devices of a session are counted by its list of names,
    which is as long as the registry is large. *)
Theorem missing_ordinal (E : Env) (m : model) (st : St) :
  ((length (lightsList m) < 1)%nat ->
     Update E m (KeyMsg "1") st = (Ret (m, None), st)) /\
  ((length (lightsList m) < 2)%nat ->
     Update E m (KeyMsg "2") st = (Ret (m, None), st)) /\
  ((length (lightsList m) < 1)%nat -> selectedLightMode m = light1 ->
     getSelectedLightIPs E m st = (Ret [], st)) /\
  ((length (lightsList m) < 2)%nat -> selectedLightMode m = light2 ->
     getSelectedLightIPs E m st = (Ret [], st)) /\
  (Env_ok E ->
     exists m0 st',
       initialModel E st = (Ret m0, st') /\
       length (lightsList m0) = size (lights m0)).
Proof.
  repeat apply conj;
    [| | | | intros HE;
             destruct (initialModel_lightsList E st HE) as (m0 & st' & H0 & _ & Hlen0);
             by eauto].
  - intros Hlen. unfold Update. decide_all; [lia | reflexivity].
  - intros Hlen. unfold Update. decide_all; [lia | reflexivity].
  - intros Hlen Hmode. unfold getSelectedLightIPs. rewrite Hmode.
    rewrite decide_False by lia. reflexivity.
  - intros Hlen Hmode. unfold getSelectedLightIPs. rewrite Hmode.
    rewrite decide_False by lia. reflexivity.
Qed.

Lemma missing_ordinal_witness :
  Update calm_env (one_light_model light1) (KeyMsg "2") st0
    = (Ret (one_light_model light1, None), st0) /\
  getSelectedLightIPs calm_env (one_light_model light2) st0 = (Ret [], st0).
Proof.
  pose proof (missing_ordinal calm_env (one_light_model light1) st0)
    as (_ & Hkey & _).
  pose proof (missing_ordinal calm_env (one_light_model light2) st0)
    as (_ & _ & _ & Hsel & _).
  split; [apply Hkey; simpl; lia | apply Hsel; [simpl; lia | reflexivity]].
Defined.

(** ** Start of a session *)

(** C10: when the settings file loads and parses, a stored
    [lastBrightness] of 0 starts the session at 50 and a stored
    [lastTemperature] of 0 starts it at 4000, in the pending values and
    in the configuration the session holds; any other stored value is
    taken as it is. *)
Theorem stored_zero_is_unconfigured (E : Env) (c : Config) (st : St) :
  disk st = Parsed c ->
  exists m st',
    initialModel E st = (Ret m, st') /\
    (LastBrightness c = 0 ->
       brightnessValue m = 50 /\ LastBrightness (config m) = 50) /\
    (LastTemperature c = 0 ->
       temperatureValue m = 4000 /\ LastTemperature (config m) = 4000) /\
    (LastBrightness c <> 0 -> brightnessValue m = LastBrightness c) /\
    (LastTemperature c <> 0 -> temperatureValue m = LastTemperature c).
Proof.
  intros Hdisk. unfold initialModel. run.
  unfold loadConfig at 1. rewrite Hdisk. run.
  unfold range_map at 1. run. rewrite collect_names. run.
  eexists _, _. split; [reflexivity|]. cbn.
  clear Hdisk. destruct c as [l b t sel]. cbn.
  destruct (decide (b = 0)); cbn; destruct (decide (t = 0)); cbn;
    repeat apply conj; intros H; auto; congruence.
Qed.

Lemma stored_zero_is_unconfigured_witness :
  exists m st',
    initialModel calm_env (st_with (Parsed (demo_config two_lights 0 0)))
      = (Ret m, st') /\
    brightnessValue m = 50 /\ temperatureValue m = 4000.
Proof.
  destruct (stored_zero_is_unconfigured calm_env (demo_config two_lights 0 0)
              (st_with (Parsed (demo_config two_lights 0 0))) eq_refl)
    as (m & st' & Hrun & Hb & Ht & _).
  exists m, st'. split; [exact Hrun|].
  split; [apply Hb; reflexivity | apply Ht; reflexivity].
Defined.

(** The defaults on a file that cannot be read or parsed. *)
Lemma loadConfig_failure (st : St) :
  disk st = Unreadable \/ disk st = Malformed ->
  loadConfig st = (Ret defaultConfig, st).
Proof. unfold loadConfig. intros [-> | ->]; reflexivity. Qed.

(** ** Reading a device *)

(** C8, as stated, fails: a response with status 500 whose body decodes
    to a device list is read as a success. *)
Lemma read_ignores_status :
  http_get status500_env "10.0.0.1" 0 = GetResp 500 (one_light 1 50 250) /\
  fst (getLightState status500_env "10.0.0.1" st0)
    = Ret (Ok {| On := 1; Brightness := 50; Temperature := 250 |}).
Proof. split; reflexivity. Qed.

(** C8 (amended): the read issues one GET and fails on a transport
    error, on a body that does not decode and on an empty device list; it
    does not look at the status code, and a response of any status whose
    body decodes to a non-empty device list yields the first entry. *)
Theorem getLightState_cases (E : Env) (ip : string) (st : St) :
  let reply := http_get E ip (tick st) in
  let st' := {| tick := S (tick st); disk := disk st;
                trace := trace st ++ [EvGet ip reply] |} in
  (forall e, reply = GetFail e ->
     getLightState E ip st = (Ret (Err e), st')) /\
  (forall status e, reply = GetResp status (Err e) ->
     getLightState E ip st = (Ret (Err e), st')) /\
  (forall status resp, reply = GetResp status (Ok resp) ->
     RespLights resp = [] ->
     getLightState E ip st = (Ret (Err (Errorf "no lights in response")), st')) /\
  (forall status resp first rest, reply = GetResp status (Ok resp) ->
     RespLights resp = first :: rest ->
     getLightState E ip st = (Ret (Ok first), st')).
Proof.
  intros reply st'. subst reply st'.
  repeat apply conj; intros; unfold getLightState, httpGet; run;
    rewrite H; try rewrite H0; reflexivity.
Qed.

Lemma getLightState_cases_witness :
  getLightState status500_env "10.0.0.1" st0
    = (Ret (Ok {| On := 1; Brightness := 50; Temperature := 250 |}),
       {| tick := 1; disk := Unreadable;
          trace := [EvGet "10.0.0.1" (GetResp 500 (one_light 1 50 250))] |}).
Proof.
  pose proof (getLightState_cases status500_env "10.0.0.1" st0)
    as (_ & _ & _ & H).
  apply (H 500 {| RespLights := [ {| On := 1; Brightness := 50;
                                     Temperature := 250 |} ] |}
           {| On := 1; Brightness := 50; Temperature := 250 |} []);
    reflexivity.
Defined.

(** ** The fast toggle *)

Lemma toggleLightAttempt_returns (E : Env) (ip : string) (s : St) :
  exists r s', toggleLightAttempt E ip s = (Ret r, s').
Proof.
  unfold toggleLightAttempt, httpGet, httpPut. run.
  destruct (http_get E ip (tick s)) as [e|status [resp|e]]; run; eauto.
  destruct (RespLights resp) as [|first rest]; run; eauto.
  match goal with
  | |- context [http_put E ip ?p ?n] => destruct (http_put E ip p n)
  end; run; eauto.
  case_decide; run; eauto.
Qed.

Lemma Sleep_100 (s : St) : Sleep 100 s = (Ret tt, slept s).
Proof. reflexivity. Qed.

(** One iteration of the retry loop. *)
Lemma loop_step (E : Env) (ip : string) (fuel : nat) (attempt : Z)
    (lastErr : option error) (s : St) :
  toggleLightFast_loop E ip (S fuel) attempt lastErr s =
  match toggleLightAttempt E ip s with
  | (Ret None, s1) => (Ret None, s1)
  | (Ret (Some e), s1) =>
      toggleLightFast_loop E ip fuel (attempt + 1) (Some e)
        (if decide (attempt < 3) then slept s1 else s1)
  | (Exit code, s1) => (Exit code, s1)
  | (Panic, s1) => (Panic, s1)
  end.
Proof.
  cbn [toggleLightFast_loop]. run.
  destruct (toggleLightAttempt E ip s) as [[[e|]| |] s1]; try reflexivity.
  case_decide; reflexivity.
Qed.

(** C5: [toggleLightFast] runs [toggleLightAttempt] at most three times,
    one after the other, sleeping 100ms after a failed first and a failed
    second attempt and not after the third.  Every attempt returns.  As
    soon as one attempt succeeds the result is success (nil), with no
    error of an earlier attempt in it; when all three fail the result
    is the error "failed after 3 attempts" wrapping the error of the
    third attempt. *)
Theorem toggleLightFast_retries (E : Env) (ip : string) (st : St) :
  (forall s, exists r s', toggleLightAttempt E ip s = (Ret r, s')) /\
  (forall s1,
     toggleLightAttempt E ip st = (Ret None, s1) ->
     toggleLightFast E ip st = (Ret None, s1)) /\
  (forall e1 s1 s2,
     toggleLightAttempt E ip st = (Ret (Some e1), s1) ->
     toggleLightAttempt E ip (slept s1) = (Ret None, s2) ->
     toggleLightFast E ip st = (Ret None, s2)) /\
  (forall e1 e2 s1 s2 s3,
     toggleLightAttempt E ip st = (Ret (Some e1), s1) ->
     toggleLightAttempt E ip (slept s1) = (Ret (Some e2), s2) ->
     toggleLightAttempt E ip (slept s2) = (Ret None, s3) ->
     toggleLightFast E ip st = (Ret None, s3)) /\
  (forall e1 e2 e3 s1 s2 s3,
     toggleLightAttempt E ip st = (Ret (Some e1), s1) ->
     toggleLightAttempt E ip (slept s1) = (Ret (Some e2), s2) ->
     toggleLightAttempt E ip (slept s2) = (Ret (Some e3), s3) ->
     toggleLightFast E ip st
       = (Ret (Some (Wrapf "failed after 3 attempts" e3)), s3)).
Proof.
  unfold toggleLightFast. repeat apply conj.
  - apply toggleLightAttempt_returns.
  - intros s1 H1. by rewrite loop_step, H1.
  - intros e1 s1 s2 H1 H2.
    rewrite loop_step, H1, decide_True by lia.
    by rewrite loop_step, H2.
  - intros e1 e2 s1 s2 s3 H1 H2 H3.
    rewrite loop_step, H1, decide_True by lia.
    rewrite loop_step, H2, decide_True by lia.
    by rewrite loop_step, H3.
  - intros e1 e2 e3 s1 s2 s3 H1 H2 H3.
    rewrite loop_step, H1, decide_True by lia.
    rewrite loop_step, H2, decide_True by lia.
    rewrite loop_step, H3, decide_False by lia.
    reflexivity.
Qed.

Lemma toggleLightFast_retries_witness :
  toggleLightFast flaky_env "10.0.0.1" st0
    = (Ret None,
       {| tick := 6; disk := Unreadable;
          trace := [ EvGet "10.0.0.1" (GetFail (LibError "timeout"));
                     EvSleep 100;
                     EvGet "10.0.0.1" (GetFail (LibError "timeout"));
                     EvSleep 100;
                     EvGet "10.0.0.1" (GetResp 200 (one_light 0 50 250));
                     EvPut "10.0.0.1"
                       {| p_on := Some 1; p_brightness := None;
                          p_temperature := None |} (PutResp 200) ] |}) /\
  fst (toggleLightFast dead_env "10.0.0.1" st0)
    = Ret (Some (Wrapf "failed after 3 attempts"
                   (Wrapf "failed to get light state" (LibError "timeout")))).
Proof.
  split.
  - pose proof (toggleLightFast_retries flaky_env "10.0.0.1" st0)
      as (_ & _ & _ & H & _).
    eapply H; reflexivity.
  - pose proof (toggleLightFast_retries dead_env "10.0.0.1" st0)
      as (_ & _ & _ & _ & H).
    erewrite H; reflexivity.
Defined.

(** ** Equalize *)

Lemma quot_count (total : Z) (n : nat) :
  n <> 0%nat -> GoInt.quot total (Z.of_nat n) = Some (GoInt.wrap (Z.quot total (Z.of_nat n))).
Proof. intros Hn. unfold GoInt.quot. rewrite decide_False by lia. done. Qed.

Lemma equalize_brightness (E : Env) (config : Config) (args : list string) (st : St) :
  Env_ok E -> args !! 2%nat = Some "=" ->
  exists st',
    cliBrightness E config args st = (Ret config, st') /\
    equalized E config Brightness (fun avg => Some (bright_patch avg)) st st'.
Proof.
  intros HE Hargs.
  assert (3 <= length args)%nat as Hlen by (apply lookup_lt_Some in Hargs; lia).
  unfold cliBrightness. rewrite decide_False by lia.
  unfold at_index. rewrite Hargs. run.
  rewrite (decide_False (P := "=" = "+")) by done.
  rewrite (decide_False (P := "=" = "-")) by done.
  rewrite (decide_True (P := "=" = "=")) by done.
  run. rewrite range_map_run. run.
  set (order1 := range_order E (tick st) (map_to_list (Lights config))).
  set (st1 := {| tick := S (tick st); disk := disk st; trace := trace st |}).
  match goal with
  | |- context [for_range ?body order1 ?acc0 st1] =>
      destruct (for_range_total body
        (fun seen s s' =>
           exists t, trace s' = trace st ++ t /\ disk s' = disk st /\
             read_phase E seen t /\
             s = (go_sum (readings Brightness t),
                  Z.of_nat (length (readings Brightness t))))
        order1 acc0 st1)
        as ([total count] & st2 & Hloop & t1 & Ht1 & Hd1 & Hread & Hacc)
  end.
  { exists []. rewrite app_nil_r. auto using read_phase_nil. }
  { intros seen [name ip] [total count] s' (t & Ht & Hd & Hread & Hacc).
    injection Hacc as -> ->.
    run. rewrite getLightState_run. run.
    pose proof (readings_snoc Brightness t ip (http_get E ip (tick s'))) as Hsnoc.
    unfold readable in Hsnoc.
    destruct (read_result (http_get E ip (tick s'))) as [state|e]; run;
      eexists _, _; (split; [reflexivity|]);
      exists (t ++ [EvGet ip (http_get E ip (tick s'))]); cbn [trace disk];
      rewrite Ht, Hd, <- app_assoc, Hsnoc;
      (split; [reflexivity|]); (split; [reflexivity|]);
      (split; [by apply read_phase_snoc|]).
    + rewrite go_sum_snoc, length_app. cbn [length]. do 2 f_equal. lia.
    + by rewrite app_nil_r. }
  rewrite Hloop. run. injection Hacc as -> ->.
  destruct (read_phase_quiet _ _ _ Hread) as (Hp1 & Hs1).
  destruct Hread as (Hshape & Hips & Henv).
  assert ((gets_of t1).*1 ≡ₚ (map_to_list (Lights config)).*2) as Hperm.
  { rewrite Hips. unfold order1. by rewrite (HE _ _). }
  destruct (readings Brightness t1) as [|v vals] eqn:Hvals.
  - (* no device was readable *)
    cbn [length]. rewrite decide_True by done. run. rewrite Println_run. run.
    eexists. split; [reflexivity|].
    exists (t1 ++ [EvPrint "✗ Could not read any lights"]). cbn [trace disk].
    rewrite Ht1, Hd1, <- app_assoc.
    rewrite readings_app, Hvals by done.
    rewrite saves_of_app, gets_of_app, puts_of_app, Hs1, Hp1, !app_nil_r.
    repeat split; try done. by rewrite last_snoc.
  - rewrite decide_False by (cbn [length]; lia).
    rewrite quot_count by done. cbn [eval]. run. rewrite Println_run. run.
    run. rewrite range_map_run. run.
    match goal with
    | |- context [for_range ?body ?order2 tt ?st3] =>
        destruct (for_range_total body
          (fun seen _ s' =>
             exists t, trace s' = trace st3 ++ t /\ disk s' = disk st3 /\
               write_phase (bright_patch (GoInt.wrap (Z.quot (go_sum (v :: vals)) (Z.of_nat (length (v :: vals)))))) seen t)
          order2 tt st3)
          as ([] & st4 & Hloop2 & t2 & Ht2 & Hd2 & Hwrite);
        [ | | set (o2 := order2) in *]
    end.
    { exists []. rewrite app_nil_r. auto using write_phase_nil. }
    { intros seen [name ip] [] s' (t & Ht & Hd & Hwrite).
      run. rewrite setLight_run. run.
      cbn [trace disk tick] in Ht, Hd.
      destruct (put_error _); run; rewrite Println_run; run;
        eexists tt, _; (split; [reflexivity|]); cbn [trace disk tick];
        eexists (t ++ [_; _]); rewrite Ht, Hd, <- !app_assoc;
        (split; [reflexivity|]); (split; [reflexivity|]);
        by apply write_phase_snoc. }
    rewrite Hloop2. run.
    destruct Hwrite as (Hg2 & Hs2 & Hp2).
    eexists. split; [reflexivity|].
    eexists (t1 ++ [EvPrint _] ++ t2).
    rewrite Ht2, Hd2. cbn [trace disk]. rewrite Ht1, Hd1, <- !app_assoc.
    rewrite readings_app, Hvals by (by rewrite gets_of_app, Hg2).
    rewrite !saves_of_app, !gets_of_app, !puts_of_app, Hg2, Hs2, Hs1, Hp1, Hp2.
    cbn. rewrite !app_nil_r.
    repeat split; try done.
    eexists _, _. split; [apply quot_count; done|]. split; [reflexivity|].
    subst o2. by rewrite (HE _ _).
Qed.

Lemma equalize_temperature (E : Env) (config : Config) (args : list string) (st : St) :
  Env_ok E -> Env_kelvin_between 2900 7000 E ->
  Z.of_nat (size (Lights config)) < 2 ^ 32 ->
  args !! 2%nat = Some "=" ->
  exists st',
    cliTemperature E config args st = (Ret config, st') /\
    equalized E config kelvin_reading
      (fun avg => temp_patch <$> elgatoTemp avg) st st'.
Proof.
  intros HE Hrange Hsize Hargs.
  assert (3 <= length args)%nat as Hlen by (apply lookup_lt_Some in Hargs; lia).
  unfold cliTemperature. rewrite decide_False by lia.
  unfold at_index. rewrite Hargs. run.
  rewrite (decide_False (P := "=" = "+")) by done.
  rewrite (decide_False (P := "=" = "-")) by done.
  rewrite (decide_True (P := "=" = "=")) by done.
  run. rewrite range_map_run. run.
  set (order1 := range_order E (tick st) (map_to_list (Lights config))).
  set (st1 := {| tick := S (tick st); disk := disk st; trace := trace st |}).
  match goal with
  | |- context [for_range ?body order1 ?acc0 st1] =>
      destruct (for_range_total body
        (fun seen s s' =>
           exists t, trace s' = trace st ++ t /\ disk s' = disk st /\
             read_phase E seen t /\
             s = (go_sum (readings kelvin_reading t),
                  Z.of_nat (length (readings kelvin_reading t))))
        order1 acc0 st1)
        as ([total count] & st2 & Hloop & t1 & Ht1 & Hd1 & Hread & Hacc)
  end.
  { exists []. rewrite app_nil_r. auto using read_phase_nil. }
  { intros seen [name ip] [total count] s' (t & Ht & Hd & Hread & Hacc).
    injection Hacc as -> ->.
    run. rewrite getLightState_run. run.
    pose proof (readings_snoc kelvin_reading t ip (http_get E ip (tick s'))) as Hsnoc.
    pose proof (kelvin_reading_in_range E 2900 7000 ip (tick s')) as Hk.
    unfold readable in Hsnoc, Hk.
    destruct (read_result (http_get E ip (tick s'))) as [state|e]; run.
    - destruct (Hk state Hrange eq_refl) as (Hcur & _). rewrite Hcur.
      cbn [eval]. run.
      eexists _, _; (split; [reflexivity|]);
      exists (t ++ [EvGet ip (http_get E ip (tick s'))]); cbn [trace disk];
      rewrite Ht, Hd, <- app_assoc, Hsnoc;
      (split; [reflexivity|]); (split; [reflexivity|]);
      (split; [by apply read_phase_snoc|]).
      rewrite go_sum_snoc, length_app. cbn [length]. do 2 f_equal. lia.
    - eexists _, _; (split; [reflexivity|]);
      exists (t ++ [EvGet ip (http_get E ip (tick s'))]); cbn [trace disk];
      rewrite Ht, Hd, <- app_assoc, Hsnoc;
      (split; [reflexivity|]); (split; [reflexivity|]);
      (split; [by apply read_phase_snoc|]).
      by rewrite app_nil_r. }
  rewrite Hloop. run. injection Hacc as -> ->.
  destruct (read_phase_quiet _ _ _ Hread) as (Hp1 & Hs1).
  destruct Hread as (Hshape & Hips & Henv).
  assert ((gets_of t1).*1 ≡ₚ (map_to_list (Lights config)).*2) as Hperm.
  { rewrite Hips. unfold order1. by rewrite (HE _ _). }
  assert (Z.of_nat (length (readings kelvin_reading t1)) < 2 ^ 32) as Hcount.
  { pose proof (readings_length kelvin_reading t1) as Hle.
    apply Permutation_length in Hperm.
    rewrite !length_fmap, length_map_to_list in Hperm. lia. }
  assert (Forall (fun v => 2900 <= v <= 7000) (readings kelvin_reading t1)) as Hall.
  { apply (readings_Forall E); [done|]. intros ip n s Hs.
    by destruct (kelvin_reading_in_range E 2900 7000 ip n s Hrange Hs). }
  destruct (readings kelvin_reading t1) as [|v vals] eqn:Hvals.
  - (* no device was readable *)
    cbn [length]. rewrite decide_True by done. run. rewrite Println_run. run.
    eexists. split; [reflexivity|].
    exists (t1 ++ [EvPrint "✗ Could not read any lights"]). cbn [trace disk].
    rewrite Ht1, Hd1, <- app_assoc.
    rewrite readings_app, Hvals by done.
    rewrite saves_of_app, gets_of_app, puts_of_app, Hs1, Hp1, !app_nil_r.
    repeat split; try done. by rewrite last_snoc.
  - rewrite decide_False by (cbn [length]; lia).
    destruct (go_mean_exact (v :: vals) 2900 7000) as (Hmean & Havg);
      [lia | lia | done | done | done |].
    set (avg := Zsum (v :: vals) / Z.of_nat (length (v :: vals))) in *.
    unfold go_mean in Hmean. rewrite Hmean. cbn [eval]. run.
    rewrite Println_run. run.
    run. rewrite range_map_run. run.
    pose proof (elgatoTemp_in_range avg Havg) as Hwire.
    match goal with
    | |- context [for_range ?body ?order2 tt ?st3] =>
        destruct (for_range_total body
          (fun seen _ s' =>
             exists t, trace s' = trace st3 ++ t /\ disk s' = disk st3 /\
               write_phase (temp_patch (1000000 / avg)) seen t)
          order2 tt st3)
          as ([] & st4 & Hloop2 & t2 & Ht2 & Hd2 & Hwrite);
        [ | | set (o2 := order2) in *]
    end.
    { exists []. rewrite app_nil_r. auto using write_phase_nil. }
    { intros seen [name ip] [] s' (t & Ht & Hd & Hwrite).
      run. rewrite (setLight_temp_run _ _ _ _ _ _ _ Hwire). run.
      cbn [trace disk tick] in Ht, Hd.
      destruct (put_error _); run; rewrite Println_run; run;
        eexists tt, _; (split; [reflexivity|]); cbn [trace disk tick];
        eexists (t ++ [_; _]); rewrite Ht, Hd, <- !app_assoc;
        (split; [reflexivity|]); (split; [reflexivity|]);
        by apply write_phase_snoc. }
    rewrite Hloop2. run.
    destruct Hwrite as (Hg2 & Hs2 & Hp2).
    eexists. split; [reflexivity|].
    eexists (t1 ++ [EvPrint _] ++ t2).
    rewrite Ht2, Hd2. cbn [trace disk]. rewrite Ht1, Hd1, <- !app_assoc.
    rewrite readings_app, Hvals by (by rewrite gets_of_app, Hg2).
    rewrite !saves_of_app, !gets_of_app, !puts_of_app, Hg2, Hs2, Hs1, Hp1, Hp2.
    cbn. rewrite !app_nil_r.
    repeat split; try done.
    eexists avg, _. split; [done|]. rewrite Hwire. split; [reflexivity|].
    subst o2. by rewrite (HE _ _).
Qed.

(** [bright =] and [temp =] read every registered address once.
    When at least one device answers, the value written to every
    registered address (readable or not) is the mean of the readings of
    the devices that answered, the others left out of both the sum and the
    count; when none answers, nothing is written and the failure is
    reported.  The mean is the sum divided by the count in integer
    arithmetic; temperatures are averaged in Kelvin, for devices that
    report wire values of their range. *)
Lemma equalize_writes_mean (E : Env) (config : Config)
    (args : list string) (st : St) :
  Env_ok E -> args !! 2%nat = Some "=" ->
  (exists st',
     cliBrightness E config args st = (Ret config, st') /\
     equalized E config Brightness (fun avg => Some (bright_patch avg)) st st') /\
  (Env_in_range E -> Z.of_nat (size (Lights config)) < 2 ^ 32 ->
   exists st',
     cliTemperature E config args st = (Ret config, st') /\
     equalized E config kelvin_reading
       (fun avg => temp_patch <$> elgatoTemp avg) st st') /\
  (forall vals : list Z,
     vals <> [] -> Forall (fun v => 0 <= v <= 2 ^ 30) vals ->
     Z.of_nat (length vals) < 2 ^ 32 ->
     go_mean vals = Some (Zsum vals / Z.of_nat (length vals))).
Proof.
  intros HE Hargs. repeat apply conj.
  - by apply equalize_brightness.
  - intros Hrange Hsize. apply equalize_temperature; try done.
    by apply Env_in_range_kelvin.
  - intros vals Hne Hall Hlen.
    by destruct (go_mean_exact vals 0 (2 ^ 30)) as (-> & _).
Qed.

Lemma mixed_env_ok : Env_ok mixed_env.
Proof. intros n l. reflexivity. Qed.

Lemma mixed_env_in_range : Env_in_range mixed_env.
Proof.
  intros ip n s. unfold readable. cbn.
  repeat case_decide; cbn; intros Hs; simplify_eq; cbn; lia.
Qed.

Lemma equalize_writes_mean_witness :
  (exists st',
     cliBrightness mixed_env (demo_config three_lights 50 4000)
       ["keylight"; "bright"; "="] st0
       = (Ret (demo_config three_lights 50 4000), st') /\
     equalized mixed_env (demo_config three_lights 50 4000) Brightness
       (fun avg => Some (bright_patch avg)) st0 st') /\
  (exists st',
     cliTemperature mixed_env (demo_config three_lights 50 4000)
       ["keylight"; "temp"; "="] st0
       = (Ret (demo_config three_lights 50 4000), st') /\
     equalized mixed_env (demo_config three_lights 50 4000) kelvin_reading
       (fun avg => temp_patch <$> elgatoTemp avg) st0 st').
Proof.
  destruct (equalize_writes_mean mixed_env (demo_config three_lights 50 4000)
              ["keylight"; "bright"; "="] st0 mixed_env_ok eq_refl)
    as (Hb & _).
  destruct (equalize_writes_mean mixed_env (demo_config three_lights 50 4000)
              ["keylight"; "temp"; "="] st0 mixed_env_ok eq_refl)
    as (_ & Ht & _).
  split; [exact Hb|]. apply Ht; [exact mixed_env_in_range|].
  vm_compute. reflexivity.
Defined.

(** The example of the specification: readings 40 and 60 and one device
    that does not answer; 50 is written to all three addresses. *)
Lemma equalize_40_60 :
  readings Brightness
    (trace (cliBrightness mixed_env (demo_config three_lights 50 4000)
              ["keylight"; "bright"; "="] st0).2) = [60; 40] /\
  puts_of
    (trace (cliBrightness mixed_env (demo_config three_lights 50 4000)
              ["keylight"; "bright"; "="] st0).2)
  = [("10.0.0.2", bright_patch 50); ("10.0.0.3", bright_patch 50);
     ("10.0.0.1", bright_patch 50)].
Proof. vm_compute. done. Qed.

(** C3 does not hold of [temp =] on a device that answers without a
    temperature.  With the
    registry Left, Right, where Right reports 60% and wire 250 and Left
    reports a temperature of 0, [temp =] reads Right, reads Left and
    panics in the conversion of Left's reading: nothing is written to
    either address and no failure is reported, although both devices
    were readable.  [bright =] over the same devices writes the mean 50
    to both. *)
Theorem equalize_temperature_panics_on_zero :
  let config := demo_config two_lights 50 4000 in
  let run := cliTemperature unset_temperature_env config
               ["keylight"; "temp"; "="] st0 in
  run.1 = Panic /\
  gets_of (trace run.2)
    = [("10.0.0.2", GetResp 200 (one_light 1 60 250));
       ("10.0.0.1", GetResp 200 (one_light 1 40 0))] /\
  omap readable (gets_of (trace run.2)).*2
    = [{| On := 1; Brightness := 60; Temperature := 250 |};
       {| On := 1; Brightness := 40; Temperature := 0 |}] /\
  puts_of (trace run.2) = [] /\ prints_of (trace run.2) = [] /\
  puts_of (trace (cliBrightness unset_temperature_env config
                    ["keylight"; "bright"; "="] st0).2)
    = [("10.0.0.2", bright_patch 50); ("10.0.0.1", bright_patch 50)].
Proof. vm_compute. repeat split; reflexivity. Qed.

(** ** Clamping *)

Lemma newBright_plus_clamp b :
  3 <= b <= 100 -> newBright_plus b = clamp 3 100 (b + 5).
Proof.
  intros Hb. unfold newBright_plus, clamp.
  rewrite add_small by (apply small_in_range; lia). case_decide; lia.
Qed.

Lemma newBright_minus_clamp b :
  3 <= b <= 100 -> newBright_minus b = clamp 3 100 (b - 5).
Proof.
  intros Hb. unfold newBright_minus, clamp.
  rewrite sub_small by (apply small_in_range; lia). case_decide; lia.
Qed.

Lemma newTemp_plus_clamp k :
  2900 <= k <= 7000 -> newTemp_plus k = clamp 2900 7000 (k + 200).
Proof.
  intros Hk. unfold newTemp_plus, clamp.
  rewrite add_small by (apply small_in_range; lia). case_decide; lia.
Qed.

Lemma newTemp_minus_clamp k :
  2900 <= k <= 7000 -> newTemp_minus k = clamp 2900 7000 (k - 200).
Proof.
  intros Hk. unfold newTemp_minus, clamp.
  rewrite sub_small by (apply small_in_range; lia). case_decide; lia.
Qed.

Lemma clamp_in_range lo hi x : lo <= hi -> lo <= clamp lo hi x <= hi.
Proof. unfold clamp. lia. Qed.

(** ** The pending values of a session *)

Lemma returns_model_bind {A} (P : model -> Prop) (c : M A)
    (f : A -> M (model * option Cmd)) (st : St) :
  (forall a s, returns_model P (f a s)) -> returns_model P ((c ≫= f) st).
Proof.
  intros Hf. unfold returns_model in *. rewrite run_bind.
  destruct (c st) as [[a| |] s]; cbn; [apply Hf | done | done].
Qed.

Lemma returns_model_ret (P : model -> Prop) (m : model) (c : option Cmd) (st : St) :
  P m -> returns_model P ((mret (m, c) : M _) st).
Proof. done. Qed.

Lemma activateControl_keeps (E : Env) (P : Z -> Z -> Prop) (m : model) (st : St) :
  P (brightnessValue m) (temperatureValue m) ->
  returns_model (fun m' => P (brightnessValue m') (temperatureValue m'))
    (activateControl E m st).
Proof.
  intros HP. unfold activateControl, toggleLights.
  destruct (focusedControl m);
    repeat (first [ apply returns_model_bind; intros ? ?
                  | apply returns_model_ret; exact HP
                  | case_decide
                  | match goal with
                    | |- returns_model _ ((let '(_, _) := ?x in _) _) => destruct x
                    | |- returns_model _ ((if ?b then _ else _) _) => destruct b
                    end ]).
Qed.

Lemma Update_in_range (E : Env) (m : model) (msg : Msg) (st : St) :
  in_range_model m -> returns_model in_range_model (Update E m msg st).
Proof.
  intros Hm. pose proof Hm as (Hb & Ht).
  destruct msg as [key|]; [|by apply returns_model_ret].
  pose proof (sub_small (brightnessValue m) 5 ltac:(apply small_in_range; lia)).
  pose proof (add_small (brightnessValue m) 5 ltac:(apply small_in_range; lia)).
  pose proof (sub_small (temperatureValue m) 200 ltac:(apply small_in_range; lia)).
  pose proof (add_small (temperatureValue m) 200 ltac:(apply small_in_range; lia)).
  unfold Update, navigate.
  repeat (first [ apply returns_model_ret; exact Hm
                | apply (activateControl_keeps E (fun b t => 3 <= b <= 100 /\ 2900 <= t <= 7000)); exact Hm
                | apply returns_model_bind; intros ? ?
                | case_decide ]).
  all: apply returns_model_ret; unfold in_range_model; cbn in *; lia.
Qed.


Lemma adjust_keys_in_range (E : Env) (m : model) (key : string) (st : St) :
  key ∈ ["left"; "right"; "h"; "l"] -> in_range_model m ->
  exists m', Update E m (KeyMsg key) st = (Ret (m', None), st) /\
             in_range_model m'.
Proof.
  intros Hkey Hm.
  pose proof (Update_in_range E m (KeyMsg key) st Hm) as Hret.
  assert (exists m', Update E m (KeyMsg key) st = (Ret (m', None), st))
    as (m' & Hrun).
  { unfold Update, navigate. set_unfold.
    destruct Hkey as [->|[->|[->|[->|[]]]]]; decide_all; eauto. }
  exists m'. split; [done|]. unfold returns_model in Hret. by rewrite Hrun in Hret.
Qed.

(** ** Relative adjustments from the command line *)

Lemma Forall_puts_snoc (P : string * Patch -> Prop) t ip p r :
  Forall P (puts_of t) -> P (ip, p) -> Forall P (puts_of (t ++ [EvPut ip p r])).
Proof.
  intros Ht Hp. rewrite puts_of_app. apply Forall_app. split; [done|].
  by apply Forall_singleton.
Qed.

Lemma Forall_puts_quiet (P : string * Patch -> Prop) t e :
  Forall P (puts_of t) -> puts_of [e] = [] -> Forall P (puts_of (t ++ [e])).
Proof. intros Ht He. by rewrite puts_of_app, He, app_nil_r. Qed.

Lemma saves_quiet t e :
  saves_of t = [] -> saves_of [e] = [] -> saves_of (t ++ [e]) = [].
Proof. intros Ht He. by rewrite saves_of_app, Ht, He. Qed.

(** Closes the step of a loop whose invariant is: the events added so
    far save nothing and every write among them satisfies [P]. *)
Ltac close_step Ht Hd Hs Hp :=
  eexists tt, _; (split; [reflexivity|]); cbn [trace disk];
  eexists; rewrite Ht, Hd, <- !app_assoc;
  (split; [reflexivity|]); (split; [reflexivity|]);
  (split;
   [ rewrite saves_of_app, Hs; reflexivity
   | rewrite puts_of_app; apply Forall_app; (split; [exact Hp|]); cbn;
     first [ constructor; fail | apply Forall_singleton; assumption ] ]).

Lemma cliBrightness_step_in_range (E : Env) (config : Config)
    (args : list string) (st : St) :
  Env_bright_in_range E ->
  args !! 2%nat = Some "+" \/ args !! 2%nat = Some "-" ->
  exists st' t,
    cliBrightness E config args st = (Ret config, st') /\
    trace st' = trace st ++ t /\ disk st' = disk st /\ saves_of t = [] /\
    Forall bright_in_range (puts_of t).
Proof.
  intros Hrange Hargs.
  assert (3 <= length args)%nat as Hlen
    by (destruct Hargs as [H|H]; apply lookup_lt_Some in H; lia).
  unfold cliBrightness. rewrite decide_False by lia.
  unfold at_index.
  destruct Hargs as [-> | ->]; run.
  - rewrite (decide_True (P := "+" = "+")) by done.
    run. rewrite range_map_run. run.
    match goal with
    | |- context [for_range ?body ?order tt ?st1] =>
        destruct (for_range_total body
          (fun _ _ s' =>
             exists t, trace s' = trace st ++ t /\ disk s' = disk st /\
               saves_of t = [] /\ Forall bright_in_range (puts_of t))
          order tt st1) as ([] & st2 & Hloop & t & Ht & Hd & Hs & Hp)
    end.
    { exists []. by rewrite app_nil_r. }
    { intros _ [name ip] [] s' (t & Ht & Hd & Hs & Hp).
      run. rewrite getLightState_run. run.
      pose proof (Hrange ip (tick s')) as Hdev. unfold readable in Hdev.
      destruct (read_result (http_get E ip (tick s'))) as [state|e]; run.
      - pose proof (Hdev state eq_refl) as Hb.
        rewrite setLight_run. run.
        assert (bright_in_range (ip, bright_patch (newBright_plus (Brightness state)))).
        { eexists. split; [reflexivity|].
          rewrite newBright_plus_clamp by done. apply clamp_in_range. lia. }
        destruct (put_error _); run; rewrite Println_run; run;
          close_step Ht Hd Hs Hp.
      - rewrite Println_run. run. close_step Ht Hd Hs Hp. }
    rewrite Hloop. run. eauto 10.
  - rewrite (decide_False (P := "-" = "+")) by done.
    rewrite (decide_True (P := "-" = "-")) by done.
    run. rewrite range_map_run. run.
    match goal with
    | |- context [for_range ?body ?order tt ?st1] =>
        destruct (for_range_total body
          (fun _ _ s' =>
             exists t, trace s' = trace st ++ t /\ disk s' = disk st /\
               saves_of t = [] /\ Forall bright_in_range (puts_of t))
          order tt st1) as ([] & st2 & Hloop & t & Ht & Hd & Hs & Hp)
    end.
    { exists []. by rewrite app_nil_r. }
    { intros _ [name ip] [] s' (t & Ht & Hd & Hs & Hp).
      run. rewrite getLightState_run. run.
      pose proof (Hrange ip (tick s')) as Hdev. unfold readable in Hdev.
      destruct (read_result (http_get E ip (tick s'))) as [state|e]; run.
      - pose proof (Hdev state eq_refl) as Hb.
        rewrite setLight_run. run.
        assert (bright_in_range (ip, bright_patch (newBright_minus (Brightness state)))).
        { eexists. split; [reflexivity|].
          rewrite newBright_minus_clamp by done. apply clamp_in_range. lia. }
        destruct (put_error _); run; rewrite Println_run; run;
          close_step Ht Hd Hs Hp.
      - rewrite Println_run. run. close_step Ht Hd Hs Hp. }
    rewrite Hloop. run. eauto 10.
Qed.
Lemma newTemp_step_range k :
  2700 <= k <= 7200 ->
  2900 <= newTemp_plus k <= 7000 /\ 2900 <= newTemp_minus k <= 7000.
Proof.
  intros Hk. unfold newTemp_plus, newTemp_minus.
  rewrite add_small, sub_small by (apply small_in_range; lia).
  repeat case_decide; lia.
Qed.

Lemma cliTemperature_step_in_range (E : Env) (config : Config)
    (args : list string) (st : St) :
  Env_kelvin_between 2700 7200 E ->
  args !! 2%nat = Some "+" \/ args !! 2%nat = Some "-" ->
  exists st' t,
    cliTemperature E config args st = (Ret config, st') /\
    trace st' = trace st ++ t /\ disk st' = disk st /\ saves_of t = [] /\
    Forall temp_in_range (puts_of t).
Proof.
  intros Hrange Hargs.
  assert (3 <= length args)%nat as Hlen
    by (destruct Hargs as [H|H]; apply lookup_lt_Some in H; lia).
  unfold cliTemperature. rewrite decide_False by lia.
  unfold at_index.
  destruct Hargs as [-> | ->]; run.
  - rewrite (decide_True (P := "+" = "+")) by done.
    run. rewrite range_map_run. run.
    match goal with
    | |- context [for_range ?body ?order tt ?st1] =>
        destruct (for_range_total body
          (fun _ _ s' =>
             exists t, trace s' = trace st ++ t /\ disk s' = disk st /\
               saves_of t = [] /\ Forall temp_in_range (puts_of t))
          order tt st1) as ([] & st2 & Hloop & t & Ht & Hd & Hs & Hp)
    end.
    { exists []. by rewrite app_nil_r. }
    { intros _ [name ip] [] s' (t & Ht & Hd & Hs & Hp).
      run. rewrite getLightState_run. run.
      pose proof (kelvin_reading_in_range E 2700 7200 ip (tick s')) as Hdev.
      unfold readable in Hdev.
      destruct (read_result (http_get E ip (tick s'))) as [state|e]; run.
      - destruct (Hdev state Hrange eq_refl) as (Hcur & Hk).
        rewrite Hcur. cbn [eval]. run.
        assert (2900 <= newTemp_plus (kelvin_reading state) <= 7000) as Hnew
          by (by destruct (newTemp_step_range _ Hk)).
        pose proof (elgatoTemp_in_range _ Hnew) as Hwire.
        rewrite (setLight_temp_run _ _ _ _ _ _ _ Hwire). run.
        assert (temp_in_range
                  (ip, temp_patch (1000000 / newTemp_plus (kelvin_reading state)))).
        { eexists _, _. split; [reflexivity|]. split; [exact Hwire | exact Hnew]. }
        destruct (put_error _); run; rewrite Println_run; run;
          close_step Ht Hd Hs Hp.
      - rewrite Println_run. run. close_step Ht Hd Hs Hp. }
    rewrite Hloop. run. eauto 10.
  - rewrite (decide_False (P := "-" = "+")) by done.
    rewrite (decide_True (P := "-" = "-")) by done.
    run. rewrite range_map_run. run.
    match goal with
    | |- context [for_range ?body ?order tt ?st1] =>
        destruct (for_range_total body
          (fun _ _ s' =>
             exists t, trace s' = trace st ++ t /\ disk s' = disk st /\
               saves_of t = [] /\ Forall temp_in_range (puts_of t))
          order tt st1) as ([] & st2 & Hloop & t & Ht & Hd & Hs & Hp)
    end.
    { exists []. by rewrite app_nil_r. }
    { intros _ [name ip] [] s' (t & Ht & Hd & Hs & Hp).
      run. rewrite getLightState_run. run.
      pose proof (kelvin_reading_in_range E 2700 7200 ip (tick s')) as Hdev.
      unfold readable in Hdev.
      destruct (read_result (http_get E ip (tick s'))) as [state|e]; run.
      - destruct (Hdev state Hrange eq_refl) as (Hcur & Hk).
        rewrite Hcur. cbn [eval]. run.
        assert (2900 <= newTemp_minus (kelvin_reading state) <= 7000) as Hnew
          by (by destruct (newTemp_step_range _ Hk)).
        pose proof (elgatoTemp_in_range _ Hnew) as Hwire.
        rewrite (setLight_temp_run _ _ _ _ _ _ _ Hwire). run.
        assert (temp_in_range
                  (ip, temp_patch (1000000 / newTemp_minus (kelvin_reading state)))).
        { eexists _, _. split; [reflexivity|]. split; [exact Hwire | exact Hnew]. }
        destruct (put_error _); run; rewrite Println_run; run;
          close_step Ht Hd Hs Hp.
      - rewrite Println_run. run. close_step Ht Hd Hs Hp. }
    rewrite Hloop. run. eauto 10.
Qed.

(** ** Equalize within the ranges *)

Lemma equalized_brightness_in_range (E : Env) (config : Config) (st st' : St) :
  Env_bright_in_range E -> Z.of_nat (size (Lights config)) < 2 ^ 32 ->
  equalized E config Brightness (fun avg => Some (bright_patch avg)) st st' ->
  exists t, trace st' = trace st ++ t /\ Forall bright_in_range (puts_of t).
Proof.
  intros Hrange Hsize (t & Ht & _ & _ & Hperm & Henv & Hcase).
  exists t. split; [done|].
  assert (Z.of_nat (length (readings Brightness t)) < 2 ^ 32) as Hcount.
  { pose proof (readings_length Brightness t) as Hle.
    apply Permutation_length in Hperm.
    rewrite !length_fmap, length_map_to_list in Hperm. lia. }
  assert (Forall (fun v => 3 <= v <= 100) (readings Brightness t)) as Hall.
  { apply (readings_Forall E); [done|]. intros ip n s Hs.
    exact (Hrange ip n s Hs). }
  destruct (readings Brightness t) as [|v vals] eqn:Hvals.
  - destruct Hcase as (-> & _). constructor.
  - destruct Hcase as (avg & p & Hmean & Hp & Hputs).
    destruct (go_mean_exact (v :: vals) 3 100) as (Hexact & Havg);
      [lia | lia | done | done | done |].
    rewrite Hputs. apply Forall_fmap, Forall_forall. intros e _.
    exists avg. injection Hp as <-. split; [done|]. congruence.
Qed.

Lemma equalized_temperature_in_range (E : Env) (config : Config) (st st' : St) :
  Env_kelvin_between 2900 7000 E -> Z.of_nat (size (Lights config)) < 2 ^ 32 ->
  equalized E config kelvin_reading
    (fun avg => temp_patch <$> elgatoTemp avg) st st' ->
  exists t, trace st' = trace st ++ t /\ Forall temp_in_range (puts_of t).
Proof.
  intros Hrange Hsize (t & Ht & _ & _ & Hperm & Henv & Hcase).
  exists t. split; [done|].
  assert (Z.of_nat (length (readings kelvin_reading t)) < 2 ^ 32) as Hcount.
  { pose proof (readings_length kelvin_reading t) as Hle.
    apply Permutation_length in Hperm.
    rewrite !length_fmap, length_map_to_list in Hperm. lia. }
  assert (Forall (fun v => 2900 <= v <= 7000) (readings kelvin_reading t)) as Hall.
  { apply (readings_Forall E); [done|]. intros ip n s Hs.
    by destruct (kelvin_reading_in_range E 2900 7000 ip n s Hrange Hs). }
  destruct (readings kelvin_reading t) as [|v vals] eqn:Hvals.
  - destruct Hcase as (-> & _). constructor.
  - destruct Hcase as (avg & p & Hmean & Hp & Hputs).
    destruct (go_mean_exact (v :: vals) 2900 7000) as (Hexact & Havg);
      [lia | lia | done | done | done |].
    rewrite Hputs. apply Forall_fmap, Forall_forall. intros e _.
    assert (avg = Zsum (v :: vals) / Z.of_nat (length (v :: vals))) as Heq
      by congruence.
    rewrite <- Heq in Havg.
    destruct (elgatoTemp avg) as [wire|] eqn:Hwire; [|done].
    injection Hp as <-. exists avg, wire. done.
Qed.

(** C4, as stated, fails: the clamps are one-sided and the mean is not
    clamped.  A session started from a settings file that stores a last
    brightness of 200 has 195 pending after down and left, and "bright ="
    over devices that report 1% and 2% writes 1%. *)
Lemma adjust_leaves_range :
  (exists m2,
     fst ((m0 ← initialModel calm_env;
           '(m1, _) ← Update calm_env m0 (KeyMsg "down");
           Update calm_env m1 (KeyMsg "left"))
            (st_with (Parsed (demo_config two_lights 200 4000))))
       = Ret (m2, None) /\
     focusedControl m2 = focusBrightness /\ brightnessValue m2 = 195 /\
     ~ (3 <= brightnessValue m2 <= 100)) /\
  puts_of (trace (cliBrightness dim_env (demo_config two_lights 50 4000)
                    ["keylight"; "bright"; "="] st0).2)
    = [("10.0.0.2", bright_patch 1); ("10.0.0.1", bright_patch 1)] /\
  ~ (3 <= 1 <= 100).
Proof.
  split; [|split; [vm_compute; reflexivity | lia]].
  eexists. split; [vm_compute; reflexivity|]. cbn. repeat split; lia.
Qed.

(** ** Ordinals and the order of the registry *)

Lemma calm_env_ok : Env_ok calm_env.
Proof. intros n l. reflexivity. Qed.

Lemma reversed_env_ok : Env_ok reversed_env.
Proof. intros n l. apply reverse_Permutation. Qed.

(** C9 does not hold of the program: the registry is a Go map, whose
    iteration order is unspecified, and both the ordinal of the command
    line and the list of names of a session are taken from one iteration
    of it.  On the same registry, under two orders that the language
    allows, ordinal 1 is a different device. *)
Theorem ordinal_follows_map_order :
  Env_ok calm_env /\ Env_ok reversed_env /\
  fst (findLight calm_env (demo_config two_lights 50 4000) "1" st0)
    = Ret ("10.0.0.2", "Right") /\
  fst (findLight reversed_env (demo_config two_lights 50 4000) "1" st0)
    = Ret ("10.0.0.1", "Left") /\
  (exists m, fst (initialModel calm_env
                    (st_with (Parsed (demo_config two_lights 50 4000)))) = Ret m /\
             fst (getSelectedLightIPs calm_env (set_selectedLightMode m light1) st0)
               = Ret ["10.0.0.2"]) /\
  (exists m, fst (initialModel reversed_env
                    (st_with (Parsed (demo_config two_lights 50 4000)))) = Ret m /\
             fst (getSelectedLightIPs reversed_env (set_selectedLightMode m light1) st0)
               = Ret ["10.0.0.1"]).
Proof.
  split; [exact calm_env_ok|]. split; [exact reversed_env_ok|].
  split; [vm_compute; reflexivity|]. split; [vm_compute; reflexivity|].
  split; eexists; (split; [vm_compute; reflexivity|]); vm_compute; reflexivity.
Qed.

(** Within one session the list of names is fixed at start: the address
    an ordinal resolves to depends on the model alone. *)
Lemma ordinal_stable_in_session (E1 E2 : Env) (m : model) (st1 st2 : St) :
  selectedLightMode m <> allLights ->
  fst (getSelectedLightIPs E1 m st1) = fst (getSelectedLightIPs E2 m st2).
Proof.
  intros Hmode. unfold getSelectedLightIPs.
  destruct (selectedLightMode m); [done| |]; case_decide; try reflexivity;
    unfold at_index; destruct (lightsList m !! _); reflexivity.
Qed.

(** ** Persisting a value *)

Lemma getSelectedLightIPs_returns (E : Env) (m : model) (st : St) :
  exists ips st1,
    getSelectedLightIPs E m st = (Ret ips, st1) /\
    trace st1 = trace st /\ disk st1 = disk st.
Proof.
  unfold getSelectedLightIPs. destruct (selectedLightMode m).
  - run. rewrite range_map_run. run. rewrite collect_ips. eauto.
  - case_decide; [|by eauto]. unfold at_index.
    destruct (lookup_lt_is_Some_2 (lightsList m) 0%nat) as (name & ->); [lia|].
    run. eauto.
  - case_decide; [|by eauto]. unfold at_index.
    destruct (lookup_lt_is_Some_2 (lightsList m) 1%nat) as (name & ->); [lia|].
    run. eauto.
Qed.

(** X8: The interactive path stores the brightness only when the write to
    every selected address succeeded.  Either some write failed: the
    loop stopped there, so the addresses before it were written, the one
    that failed is the last request and those after it were not
    contacted, nothing was saved, the configuration is as before and the
    message is the error text.  Or no write failed: every selected
    address was written and the value was saved. *)
Lemma activateControl_brightness_persists (E : Env) (m : model) (st : St) :
  focusedControl m = focusBrightness ->
  exists ips st1 m' st' t,
    getSelectedLightIPs E m st = (Ret ips, st1) /\
    activateControl E m st = (Ret (m', None), st') /\
    trace st' = trace st ++ t /\
    ((Exists failed_put t /\ saves_of t = [] /\ disk st' = disk st /\
      config m' = config m /\
      message m' = "✗ Error setting brightness" /\
      exists written ip rest r,
        ips = written ++ ip :: rest /\ put_error r <> None /\
        t = ((fun a => EvPut a (bright_patch (brightnessValue m)) (PutResp 200))
               <$> written)
            ++ [EvPut ip (bright_patch (brightnessValue m)) r]) \/
     (Forall (fun e => ~ failed_put e) t /\
      puts_of t = (fun ip => (ip, bright_patch (brightnessValue m))) <$> ips /\
      saves_of t = [set_LastBrightness (config m) (brightnessValue m)] /\
      config m' = set_LastBrightness (config m) (brightnessValue m))).
Proof.
  intros Hfocus.
  destruct (getSelectedLightIPs_returns E m st) as (ips & st1 & Hips & Ht1 & Hd1).
  exists ips, st1. unfold activateControl. rewrite Hfocus. run. rewrite Hips. run.
  set (p := bright_patch (brightnessValue m)).
  match goal with
  | |- context [for_range ?body ips ?acc st1] =>
      assert (forall l s, exists s' t,
                trace s' = trace s ++ t /\ disk s' = disk s /\ saves_of t = [] /\
                ((for_range body l acc s = (Ret acc, s') /\
                  Forall (fun e => ~ failed_put e) t /\
                  puts_of t = (fun ip => (ip, p)) <$> l)
                 \/ (for_range body l acc s
                       = (Ret ("✗ Error setting brightness", false), s') /\
                     Exists failed_put t /\
                     exists written ip rest r,
                       l = written ++ ip :: rest /\ put_error r <> None /\
                       t = ((fun a => EvPut a p (PutResp 200)) <$> written)
                           ++ [EvPut ip p r]))) as Hloop
  end.
  { induction l as [|ip l IH]; intros s.
    - exists s, []. rewrite app_nil_r. repeat split; try done. left. done.
    - cbn [for_range]. run. rewrite setLight_run. run. fold (bright_patch (brightnessValue m)). fold p.
      set (r := http_put E ip p (tick s)).
      set (s1 := {| tick := S (tick s); disk := disk s;
                    trace := trace s ++ [EvPut ip p r] |}).
      destruct (put_error r) as [e|] eqn:Herr; run.
      + exists s1, [EvPut ip p r]. repeat split; try done. right.
        split; [done|]. split.
        { apply Exists_cons_hd. exists ip, p, r. split; [done|]. by rewrite Herr. }
        exists [], ip, l, r. split; [done|]. split; [by rewrite Herr | done].
      + assert (r = PutResp 200) as Hr.
        { unfold put_error in Herr. destruct r as [?|?|status]; try done.
          case_decide as Hs; [done|]. f_equal.
          destruct (decide (status = 200)); [done | by destruct Hs]. }
        destruct (IH s1) as (s' & t & Ht & Hd & Hs & Hcase).
        exists s', (EvPut ip p r :: t). subst s1. cbn [trace disk] in Ht, Hd.
        rewrite Ht, Hd, <- app_assoc. cbn [app].
        split; [done|]. split; [done|]. split; [done|].
        destruct Hcase as [(Hrun & Hok & Hputs)
                          | (Hrun & Hbad & written & ip' & rest & r' & -> & Hne & ->)].
        * left. split; [done|]. split.
          -- apply Forall_cons. split; [|done].
             intros (ip' & p' & r' & Heq & Hne). injection Heq as <- <- <-.
             by rewrite Herr in Hne.
          -- cbn. by rewrite <- Hputs.
        * right. split; [done|]. split; [by apply Exists_cons_tl|].
          exists (ip :: written), ip', rest, r'. rewrite Hr. done. }
  destruct (Hloop ips st1)
    as (s' & t & Ht & Hd & Hs & [(Hrun & Hok & Hputs) | (Hrun & Hbad & Hstop)]);
    rewrite Hrun; run.
  - (* every write succeeded *)
    unfold saveConfig. run. eexists _, _, (t ++ [EvSave _ _]).
    split; [reflexivity|]. split; [reflexivity|]. cbn [trace disk].
    split; [by rewrite Ht, Ht1, <- app_assoc|].
    right. rewrite puts_of_app, saves_of_app, Hs, Hputs, app_nil_r.
    repeat split; try done.
    apply Forall_app. split; [done|]. apply Forall_singleton.
    intros (ip' & p' & r' & Heq & _). discriminate.
  - eexists _, _, t. split; [reflexivity|]. split; [reflexivity|].
    split; [by rewrite Ht, Ht1|].
    left. rewrite Hd, Hd1. done.
Qed.

(** The command line stores the value whatever the devices answer: the
    save follows the loop over the devices unconditionally. *)
Lemma cliBrightness_value_always_persists (E : Env) (config : Config)
    (args : list string) (action : string) (b : Z) (st : St) :
  args !! 2%nat = Some action ->
  action <> "+" -> action <> "-" -> action <> "=" ->
  sscanf_d E action = Some b -> 3 <= b <= 100 ->
  exists st' t ok,
    cliBrightness E config args st = (Ret (set_LastBrightness config b), st') /\
    trace st' = trace st ++ t ++ [EvSave (set_LastBrightness config b) ok] /\
    saves_of t = [].
Proof.
  intros Hargs Hplus Hminus Heq Hscan Hb.
  assert (3 <= length args)%nat as Hlen by (apply lookup_lt_Some in Hargs; lia).
  unfold cliBrightness. rewrite decide_False by lia.
  unfold at_index. rewrite Hargs. run.
  rewrite !decide_False by done. rewrite Hscan.
  rewrite decide_False by lia.
  run. rewrite range_map_run. run.
  match goal with
  | |- context [for_range ?body ?order tt ?st1] =>
      destruct (for_range_total body
        (fun _ _ s' => exists t, trace s' = trace st ++ t /\ saves_of t = [])
        order tt st1) as ([] & st2 & Hloop & t & Ht & Hs)
  end.
  { exists []. by rewrite app_nil_r. }
  { intros _ [name ip] [] s' (t & Ht & Hs).
    run. rewrite setLight_run. run.
    destruct (put_error _); run; rewrite Println_run; run;
      eexists tt, _; (split; [reflexivity|]); cbn [trace];
      eexists; rewrite Ht, <- !app_assoc; (split; [reflexivity|]);
      rewrite saves_of_app, Hs; reflexivity. }
  rewrite Hloop. run. unfold saveConfig. run.
  eexists _, t, _. split; [reflexivity|]. cbn [trace].
  by rewrite Ht, <- app_assoc.
Qed.

(** C1 does not hold of the command line: "bright 50" and "temp 5000"
    on three devices of which one rejects the write still store the
    value as the last brightness, respectively temperature, in the
    configuration and in the settings file. *)
Theorem cli_persists_after_partial_failure :
  let config := demo_config three_lights 80 4000 in
  let run := cliBrightness rejecting_env config ["keylight"; "bright"; "50"]
               (st_with (Parsed config)) in
  let run' := cliTemperature rejecting_env config ["keylight"; "temp"; "5000"]
                (st_with (Parsed config)) in
  put_error (PutResp 500) = Some (Errorf "API returned status 500") /\
  EvPut "10.0.0.3" (bright_patch 50) (PutResp 500) ∈ trace run.2 /\
  run.1 = Ret (demo_config three_lights 50 4000) /\
  disk run.2 = Parsed (demo_config three_lights 50 4000) /\
  saves_of (trace run.2) = [demo_config three_lights 50 4000] /\
  EvPut "10.0.0.3" (temp_patch 200) (PutResp 500) ∈ trace run'.2 /\
  run'.1 = Ret (demo_config three_lights 80 5000) /\
  disk run'.2 = Parsed (demo_config three_lights 80 5000).
Proof.
  cbv zeta. split; [reflexivity|]. split.
  { vm_compute. do 2 apply list_elem_of_further. apply list_elem_of_here. }
  split; [vm_compute; reflexivity|]. split; [vm_compute; reflexivity|].
  split; [vm_compute; reflexivity|]. split.
  { vm_compute. do 2 apply list_elem_of_further. apply list_elem_of_here. }
  split; vm_compute; reflexivity.
Qed.


(** ** What a computation emits *)

Lemma emits_ret (P : Event -> Prop) {A} (a : A) : emits P (mret a : M A).
Proof. intros st. split; [done|]. exists []. by rewrite app_nil_r. Qed.

Lemma emits_bind (P : Event -> Prop) {A B} (c : M A) (f : A -> M B) :
  emits P c -> (forall a, emits P (f a)) -> emits P (c ≫= f).
Proof.
  intros Hc Hf st. rewrite run_bind.
  destruct (Hc st) as (Hd & t & Ht & HP).
  destruct (c st) as [[a| |] st1]; cbn [snd] in *; [|by eauto..].
  destruct (Hf a st1) as (Hd2 & t2 & Ht2 & HP2).
  split; [congruence|]. exists (t ++ t2).
  rewrite Ht2, Ht, <- app_assoc. split; [done|]. by apply Forall_app.
Qed.

Lemma emits_bind_ret (P : Event -> Prop) {A B} (a : A) (f : A -> M B) :
  emits P (f a) -> emits P ((mret a : M A) ≫= f).
Proof. intros H st. apply H. Qed.

Lemma emits_for_range (P : Event -> Prop) {A S}
    (body : S -> A -> M (LoopCtl * S)) (l : list A) (s : S) :
  (forall s x, emits P (body s x)) -> emits P (for_range body l s).
Proof.
  intros Hbody. revert s. induction l as [|x l IH]; intros s.
  - apply emits_ret.
  - cbn [for_range]. apply emits_bind; [done|].
    intros [[] s']; [apply IH | apply emits_ret].
Qed.

Lemma emits_event (P : Event -> Prop) (e : Event) : P e -> emits P (emit e).
Proof.
  intros He st. split; [done|]. exists [e]. split; [done|].
  by apply Forall_singleton.
Qed.

Lemma emits_httpGet (P : Event -> Prop) (E : Env) (ip : string) :
  (forall r, P (EvGet ip r)) -> emits P (httpGet E ip).
Proof.
  intros He st. split; [done|]. eexists [_]. split; [done|].
  by apply Forall_singleton.
Qed.

Lemma emits_httpPut (P : Event -> Prop) (E : Env) (ip : string) (p : Patch) :
  (forall r, P (EvPut ip p r)) -> emits P (httpPut E ip p).
Proof.
  intros He st. split; [done|]. eexists [_]. split; [done|].
  by apply Forall_singleton.
Qed.

Lemma emits_range_map (P : Event -> Prop) (E : Env) (m : gmap string string) :
  emits P (range_map E m).
Proof. intros st. split; [done|]. exists []. by rewrite app_nil_r. Qed.

Lemma emits_stop (P : Event -> Prop) {A} (r : Res A) :
  emits P (fun st => (r, st)).
Proof. intros st. split; [done|]. exists []. by rewrite app_nil_r. Qed.

Lemma emits_eval (P : Event -> Prop) (o : option Z) : emits P (eval o).
Proof. destruct o; [apply emits_ret | apply (emits_stop P Panic)]. Qed.

Lemma emits_at_index (P : Event -> Prop) (l : list string) (i : nat) :
  emits P (at_index l i).
Proof.
  unfold at_index. destruct (l !! i); [apply emits_ret | apply (emits_stop P Panic)].
Qed.

Lemma emits_weaken (P Q : Event -> Prop) {A} (c : M A) :
  (forall e, P e -> Q e) -> emits P c -> emits Q c.
Proof.
  intros HPQ Hc st. destruct (Hc st) as (Hd & t & Ht & HP).
  split; [done|]. exists t. split; [done|]. by eapply Forall_impl.
Qed.

(** One step of the analysis of a program built from the pieces above,
    for a property [P] of events that [done] decides on a given event. *)
Ltac emits_step :=
  first
    [ apply emits_ret
    | apply emits_range_map
    | apply emits_eval
    | apply emits_at_index
    | apply (emits_stop _ (Exit _))
    | apply (emits_stop _ Panic)
    | apply emits_httpGet; intros ?; done
    | apply emits_httpPut; intros ?; done
    | apply emits_event; done
    | apply emits_for_range; intros ? ?
    | apply emits_bind; [|intros ?]
    | case_decide
    | match goal with
      | |- emits _ (match ?x with _ => _ end) => destruct x
      | |- emits _ ((match ?x with _ => _ end) _) => destruct x
      end
    | progress (cbv beta zeta) ].

Ltac emits_all := repeat emits_step.

Lemma emits_getLightState (P : Event -> Prop) (E : Env) (ip : string) :
  (forall r, P (EvGet ip r)) -> emits P (getLightState E ip).
Proof.
  intros HP. unfold getLightState.
  apply emits_bind; [by apply emits_httpGet|]. intros r. emits_all.
Qed.

Lemma emits_setLight (P : Event -> Prop) (E : Env) (ip : string)
    (on b t : option Z) :
  (forall p r, P (EvPut ip p r)) -> emits P (setLight E ip on b t).
Proof.
  intros HP. unfold setLight.
  apply emits_bind; [emits_all|]. intros w.
  apply emits_bind; [by apply emits_httpPut|]. intros r. emits_all.
Qed.

Lemma emits_Println (P : Event -> Prop) (line : string) :
  P (EvPrint line) -> emits P (Println line).
Proof. apply emits_event. Qed.

Lemma emits_toggleLightAttempt (E : Env) (ip : string) :
  emits not_save (toggleLightAttempt E ip).
Proof. unfold toggleLightAttempt. emits_all. Qed.

Lemma emits_toggleLightFast (E : Env) (ip : string) :
  emits not_save (toggleLightFast E ip).
Proof.
  unfold toggleLightFast. generalize 1 (@None error). generalize 3%nat.
  induction n as [|n IH]; intros attempt lastErr; cbn [toggleLightFast_loop].
  - emits_all.
  - apply emits_bind; [apply emits_toggleLightAttempt|]. intros [e|]; [|emits_all].
    apply emits_bind; [|intros ?; apply IH].
    case_decide; [by apply emits_event | apply emits_ret].
Qed.

Lemma emits_findLight (P : Event -> Prop) (E : Env) (config : Config) (id : string) :
  emits P (findLight E config id).
Proof. unfold findLight. emits_all. Qed.


(** ** How a computation ends *)

Lemma yields_ret {A} (Q : A -> Prop) (a : A) : Q a -> yields Q (mret a : M A).
Proof. intros HQ st. by exists a, st. Qed.

Lemma yields_bind {A B} (Q : B -> Prop) (c : M A) (f : A -> M B) :
  yields (fun _ => True) c -> (forall a, yields Q (f a)) -> yields Q (c ≫= f).
Proof.
  intros Hc Hf st. destruct (Hc st) as (a & st1 & Hrun & _).
  rewrite run_bind, Hrun. apply Hf.
Qed.

Lemma yields_any {A} (Q : A -> Prop) (c : M A) :
  yields Q c -> yields (fun _ => True) c.
Proof. intros Hc st. destruct (Hc st) as (a & st' & Hrun & _). by exists a, st'. Qed.

Lemma yields_for_range {A S} (body : S -> A -> M (LoopCtl * S)) (l : list A) (s : S) :
  (forall s x, yields (fun _ => True) (body s x)) ->
  yields (fun _ => True) (for_range body l s).
Proof.
  intros Hbody. revert s. induction l as [|x l IH]; intros s.
  - by apply yields_ret.
  - cbn [for_range]. apply yields_bind; [done|].
    intros [[] s']; [apply IH | by apply yields_ret].
Qed.

Lemma yields_emit (e : Event) : yields (fun _ => True) (emit e).
Proof. intros st. by eexists tt, _. Qed.

Lemma yields_range_map (E : Env) (m : gmap string string) :
  yields (fun _ => True) (range_map E m).
Proof. intros st. by eexists _, _. Qed.

Lemma yields_getLightState (E : Env) (ip : string) :
  yields (fun _ => True) (getLightState E ip).
Proof. intros st. rewrite getLightState_run. by eexists _, _. Qed.

Lemma yields_setLight (E : Env) (ip : string) (on b : option Z) :
  yields (fun _ => True) (setLight E ip on b None).
Proof. intros st. rewrite setLight_run. by eexists _, _. Qed.

Lemma yields_saveConfig (E : Env) (c : Config) :
  yields (fun _ => True) (saveConfig E c).
Proof. intros st. by eexists tt, _. Qed.

Lemma yields_quot (n d : Z) : d <> 0 -> yields (fun _ => True) (eval (GoInt.quot n d)).
Proof.
  intros Hd. unfold GoInt.quot. rewrite decide_False by done. by apply yields_ret.
Qed.

Ltac yields_step :=
  first
    [ apply yields_ret; done
    | apply yields_range_map
    | apply yields_emit
    | apply yields_getLightState
    | apply yields_setLight
    | apply yields_saveConfig
    | apply yields_quot; assumption
    | apply yields_for_range; intros ? ?
    | apply yields_bind; [|intros ?]
    | match goal with
      | |- yields _ (match ?x with _ => _ end) => destruct x
      | |- yields _ ((match ?x with _ => _ end) _) => destruct x
      end
    | progress (cbv beta zeta) ].

Lemma no_exit_ret {A} (a : A) : no_exit (mret a : M A).
Proof. intros st code st'. done. Qed.

Lemma no_exit_panic {A} : no_exit (panic : M A).
Proof. intros st code st'. done. Qed.

Lemma no_exit_bind {A B} (c : M A) (f : A -> M B) :
  no_exit c -> (forall a, no_exit (f a)) -> no_exit (c ≫= f).
Proof.
  intros Hc Hf st code st'. rewrite run_bind.
  destruct (c st) as [[a|code1|] st1] eqn:Hrun; [apply Hf| |done].
  by destruct (Hc st code1 st1).
Qed.

Lemma no_exit_for_range {A S} (body : S -> A -> M (LoopCtl * S)) (l : list A) (s : S) :
  (forall s x, no_exit (body s x)) -> no_exit (for_range body l s).
Proof.
  intros Hbody. revert s. induction l as [|x l IH]; intros s.
  - apply no_exit_ret.
  - cbn [for_range]. apply no_exit_bind; [done|].
    intros [[] s']; [apply IH | apply no_exit_ret].
Qed.

Lemma no_exit_yields {A} (Q : A -> Prop) (c : M A) : yields Q c -> no_exit c.
Proof.
  intros Hc st code st' Hrun. destruct (Hc st) as (a & st1 & Hret & _). congruence.
Qed.

Lemma no_exit_eval (o : option Z) : no_exit (eval o).
Proof. destruct o; [apply no_exit_ret | apply no_exit_panic]. Qed.

Lemma no_exit_setLight (E : Env) (ip : string) (on b t : option Z) :
  no_exit (setLight E ip on b t).
Proof.
  unfold setLight. apply no_exit_bind.
  - destruct t; [|apply no_exit_ret].
    apply no_exit_bind; [apply no_exit_eval | intros ?; apply no_exit_ret].
  - intros w. apply no_exit_bind; [by intros ? ? ?|].
    intros [| |status]; try apply no_exit_ret. case_decide; apply no_exit_ret.
Qed.

Ltac no_exit_step :=
  first
    [ apply no_exit_ret
    | apply no_exit_eval
    | apply no_exit_setLight
    | apply (no_exit_yields _ _ (yields_range_map _ _))
    | apply (no_exit_yields _ _ (yields_emit _))
    | apply (no_exit_yields _ _ (yields_saveConfig _ _))
    | apply (no_exit_yields _ _ (yields_getLightState _ _))
    | apply no_exit_for_range; intros ? ?
    | apply no_exit_bind; [|intros ?]
    | match goal with
      | |- no_exit (match ?x with _ => _ end) => destruct x
      | |- no_exit ((match ?x with _ => _ end) _) => destruct x
      end
    | progress (cbv beta zeta) ].



Lemma yields_getSelectedLightIPs (E : Env) (m : model) :
  yields (fun _ => True) (getSelectedLightIPs E m).
Proof.
  intros st. destruct (getSelectedLightIPs_returns E m st) as (ips & st1 & Hrun & _).
  by exists ips, st1.
Qed.

Lemma yields_setLight_temp (E : Env) (ip : string) (on b : option Z)
    (kelvin wire : Z) :
  elgatoTemp kelvin = Some wire ->
  yields (fun _ => True) (setLight E ip on b (Some kelvin)).
Proof.
  intros Hw st. rewrite (setLight_temp_run _ _ _ _ _ _ _ Hw). by eexists _, _.
Qed.

Lemma yields_at_index_guarded (l : list string) (i : nat) :
  (i < length l)%nat -> yields (fun _ => True) (at_index l i).
Proof.
  intros Hi. unfold at_index. destruct (lookup_lt_is_Some_2 l i Hi) as (x & ->).
  by apply yields_ret.
Qed.

Lemma yields_toggleLight (E : Env) (ip : string) :
  yields (fun _ => True) (toggleLight E ip).
Proof. unfold toggleLight. repeat yields_step. Qed.


Lemma emits_yields {A} (P : Event -> Prop) (Q : A -> Prop) (c : M A) (st : St) :
  emits P c -> yields Q c ->
  exists a st' t, c st = (Ret a, st') /\ disk st' = disk st /\
                  trace st' = trace st ++ t /\ Forall P t.
Proof.
  intros He Hy. destruct (Hy st) as (a & st' & Hrun & _).
  destruct (He st) as (Hd & t & Ht & HP). rewrite Hrun in Hd, Ht.
  by exists a, st', t.
Qed.


Lemma not_save_saves t : Forall not_save t -> saves_of t = [].
Proof.
  induction 1 as [|e t He _ IH]; [done|].
  unfold saves_of in *. cbn. destruct e; try done.
Qed.

Lemma not_write_puts t : Forall not_write t -> puts_of t = [] /\ saves_of t = [].
Proof.
  induction 1 as [|e t He _ [IH1 IH2]]; [done|].
  unfold puts_of, saves_of in *. cbn. destruct e; try done.
Qed.

Lemma is_print_quiet t :
  Forall is_print t -> gets_of t = [] /\ puts_of t = [] /\ saves_of t = [].
Proof.
  induction 1 as [|e t He _ (IH1 & IH2 & IH3)]; [done|].
  unfold gets_of, puts_of, saves_of in *. cbn. destruct e; try done.
Qed.

(** ** Commands that leave the settings file alone *)

(** X1: A command on a single device, whatever the identifier and the
    sub-command, never writes the settings file: values set on one
    device are not stored as defaults.  This holds also when the command
    exits or panics. *)
Theorem cliSpecificLight_never_saves (E : Env) (config : Config)
    (lightIdentifier : string) (args : list string) (st : St) :
  let st' := (cliSpecificLight E config lightIdentifier args st).2 in
  disk st' = disk st /\
  exists t, trace st' = trace st ++ t /\ saves_of t = [].
Proof.
  assert (emits not_save (cliSpecificLight E config lightIdentifier args)) as H.
  { unfold cliSpecificLight.
    apply emits_bind; [apply emits_findLight|]. intros [targetIP targetName].
    case_decide; [emits_all|]. case_decide.
    - apply emits_bind; [apply emits_toggleLightFast|]. intros err. emits_all.
    - repeat first [ apply emits_getLightState; intros ?; done
                   | apply emits_setLight; intros ? ?; done
                   | emits_step ]. }
  cbv zeta. destruct (H st) as (Hd & t & Ht & HP).
  split; [done|]. exists t. split; [done|]. by apply not_save_saves.
Qed.

Lemma cli_no_save_unless_value (E : Env) (config : Config)
    (args : list string) (st : St) :
  ((forall action v, args !! 2%nat = Some action ->
      sscanf_d E action = Some v -> 3 <= v <= 100 ->
      action ∈ ["+"; "-"; "="]) ->
   let st' := (cliBrightness E config args st).2 in
   disk st' = disk st /\
   exists t, trace st' = trace st ++ t /\ saves_of t = []) /\
  ((forall action v, args !! 2%nat = Some action ->
      sscanf_d E action = Some v -> 2900 <= v <= 7000 ->
      action ∈ ["+"; "-"; "="]) ->
   let st' := (cliTemperature E config args st).2 in
   disk st' = disk st /\
   exists t, trace st' = trace st ++ t /\ saves_of t = []).
Proof.
  split; intros Hvalid.
  - assert (emits not_save (cliBrightness E config args)) as H.
    { unfold cliBrightness. case_decide; [emits_all|].
      unfold at_index. destruct (args !! 2%nat) as [action|] eqn:Hargs;
        [|emits_all].
      apply emits_bind_ret.
      repeat (case_decide;
              [repeat first [ apply emits_getLightState; intros ?; done
                            | apply emits_setLight; intros ? ?; done
                            | emits_step ] |]).
      destruct (sscanf_d E action) as [v|] eqn:Hscan; [|emits_all].
      case_decide; [emits_all|]. exfalso.
      specialize (Hvalid action v eq_refl Hscan ltac:(lia)).
      set_unfold. intuition. }
    cbv zeta. destruct (H st) as (Hd & t & Ht & HP).
    split; [done|]. exists t. split; [done|]. by apply not_save_saves.
  - assert (emits not_save (cliTemperature E config args)) as H.
    { unfold cliTemperature. case_decide; [emits_all|].
      unfold at_index. destruct (args !! 2%nat) as [action|] eqn:Hargs;
        [|emits_all].
      apply emits_bind_ret.
      repeat (case_decide;
              [repeat first [ apply emits_getLightState; intros ?; done
                            | apply emits_setLight; intros ? ?; done
                            | emits_step ] |]).
      destruct (sscanf_d E action) as [v|] eqn:Hscan; [|emits_all].
      case_decide; [emits_all|]. exfalso.
      specialize (Hvalid action v eq_refl Hscan ltac:(lia)).
      set_unfold. intuition. }
    cbv zeta. destruct (H st) as (Hd & t & Ht & HP).
    split; [done|]. exists t. split; [done|]. by apply not_save_saves.
Qed.

Lemma cliTemperature_value_always_persists (E : Env) (config : Config)
    (args : list string) (action : string) (k : Z) (st : St) :
  args !! 2%nat = Some action ->
  action <> "+" -> action <> "-" -> action <> "=" ->
  sscanf_d E action = Some k -> 2900 <= k <= 7000 ->
  exists st' t ok,
    cliTemperature E config args st = (Ret (set_LastTemperature config k), st') /\
    trace st' = trace st ++ t ++ [EvSave (set_LastTemperature config k) ok] /\
    saves_of t = [].
Proof.
  intros Hact Hp Hm He Hscan Hk.
  assert (~ length args < 3)%nat as Hlen
    by (apply lookup_lt_Some in Hact; lia).
  pose proof (elgatoTemp_in_range k Hk) as Hwire.
  unfold cliTemperature. rewrite (decide_False (P := (length args < 3)%nat)) by done.
  unfold at_index. rewrite Hact. run.
  rewrite !decide_False by done. rewrite Hscan.
  rewrite decide_False by lia. run. rewrite range_map_run. run.
  match goal with
  | |- context [for_range ?body ?l tt ?s] =>
      destruct (emits_yields not_save (fun _ => True) (for_range body l tt) s)
        as ([] & s1 & t & Hrun & Hd & Ht & HP);
        [ repeat first [ apply emits_setLight; intros ? ?; done | emits_step ]
        | repeat first [ apply (yields_setLight_temp _ _ _ _ _ _ Hwire)
                       | yields_step ]
        | rewrite Hrun ]
  end.
  run. unfold saveConfig at 1. run.
  eexists _, t, _. split; [reflexivity|]. cbn [trace] in *.
  rewrite Ht, <- app_assoc. split; [done|]. by apply not_save_saves.
Qed.

(** X2: The commands [bright] and [temp] write the settings file for an
    explicit value only.  Whatever the devices answer, and also when the
    command exits or panics, either nothing is saved and the file is as
    before, or the argument is none of [+], [-] and [=], scans as a
    number in the range, and the one configuration saved is the given
    one with this number as the stored value. *)
Theorem cli_saves_only_valid_value (E : Env) (config : Config)
    (args : list string) (st : St) :
  (let st' := (cliBrightness E config args st).2 in
   exists t, trace st' = trace st ++ t /\
     ((saves_of t = [] /\ disk st' = disk st) \/
      exists action v,
        args !! 2%nat = Some action /\ (action ∉ ["+"; "-"; "="]) /\
        sscanf_d E action = Some v /\ 3 <= v <= 100 /\
        saves_of t = [set_LastBrightness config v])) /\
  (let st' := (cliTemperature E config args st).2 in
   exists t, trace st' = trace st ++ t /\
     ((saves_of t = [] /\ disk st' = disk st) \/
      exists action v,
        args !! 2%nat = Some action /\ (action ∉ ["+"; "-"; "="]) /\
        sscanf_d E action = Some v /\ 2900 <= v <= 7000 /\
        saves_of t = [set_LastTemperature config v])).
Proof.
  assert (forall lo hi,
            (exists action v,
               args !! 2%nat = Some action /\ (action ∉ ["+"; "-"; "="]) /\
               sscanf_d E action = Some v /\ lo <= v <= hi) \/
            (forall action v, args !! 2%nat = Some action ->
               sscanf_d E action = Some v -> lo <= v <= hi ->
               action ∈ ["+"; "-"; "="])) as Hcases.
  { intros lo hi. destruct (args !! 2%nat) as [action|]; [|right; intros; done].
    destruct (decide (action ∈ ["+"; "-"; "="])) as [Hin|Hout].
    { right. intros ? ? [= <-]. done. }
    destruct (sscanf_d E action) as [v|] eqn:Hscan.
    2: { right. intros ? ? [= <-]. congruence. }
    destruct (decide (lo <= v <= hi)) as [Hv|Hv].
    - left. by exists action, v.
    - right. intros ? v' [= <-] Hscan' Hv'. congruence. }
  cbv zeta. split.
  - destruct (Hcases 3 100) as [(action & v & Hact & Hout & Hscan & Hv) | Hno].
    + pose proof Hout as Hout'. rewrite !not_elem_of_cons in Hout'.
      destruct Hout' as (Hp & Hm & He & _).
      destruct (cliBrightness_value_always_persists E config args action v st
                  Hact Hp Hm He Hscan Hv) as (st' & t & ok & Hrun & Ht & Hs).
      rewrite Hrun. exists (t ++ [EvSave (set_LastBrightness config v) ok]).
      split; [done|]. right. exists action, v.
      rewrite saves_of_app, Hs. done.
    + destruct (proj1 (cli_no_save_unless_value E config args st) Hno)
        as (Hd & t & Ht & Hs).
      exists t. split; [done|]. by left.
  - destruct (Hcases 2900 7000) as [(action & v & Hact & Hout & Hscan & Hv) | Hno].
    + pose proof Hout as Hout'. rewrite !not_elem_of_cons in Hout'.
      destruct Hout' as (Hp & Hm & He & _).
      destruct (cliTemperature_value_always_persists E config args action v st
                  Hact Hp Hm He Hscan Hv) as (st' & t & ok & Hrun & Ht & Hs).
      rewrite Hrun. exists (t ++ [EvSave (set_LastTemperature config v) ok]).
      split; [done|]. right. exists action, v.
      rewrite saves_of_app, Hs. done.
    + destruct (proj2 (cli_no_save_unless_value E config args st) Hno)
        as (Hd & t & Ht & Hs).
      exists t. split; [done|]. by left.
Qed.

(** X3: [list] prints and does nothing else; [status] reads and prints: it
    never writes to a device and never saves, also when it panics. *)
Theorem list_and_status_read_only (E : Env) (config : Config) (st : St) :
  (let st' := (cliList E config st).2 in
   disk st' = disk st /\
   exists t, trace st' = trace st ++ t /\
             gets_of t = [] /\ puts_of t = [] /\ saves_of t = []) /\
  (let st' := (cliStatus E config st).2 in
   disk st' = disk st /\
   exists t, trace st' = trace st ++ t /\ puts_of t = [] /\ saves_of t = []).
Proof.
  split.
  - assert (emits is_print (cliList E config)) as H
      by (unfold cliList; emits_all).
    cbv zeta. destruct (H st) as (Hd & t & Ht & HP).
    split; [done|]. exists t. split; [done|]. by apply is_print_quiet.
  - assert (emits not_write (cliStatus E config)) as H.
    { unfold cliStatus.
      repeat first [ apply emits_getLightState; intros ?; done | emits_step ]. }
    cbv zeta. destruct (H st) as (Hd & t & Ht & HP).
    split; [done|]. exists t. split; [done|]. by apply not_write_puts.
Qed.


(** ** Toggling *)

Lemma toggleLight_run (E : Env) (ip : string) (st : St) :
  toggleLight E ip st =
  (Ret (put_error
          (http_put E ip (on_patch (toggle_value (http_get E ip (tick st))))
             (S (tick st)))),
   {| tick := S (S (tick st)); disk := disk st;
      trace := trace st ++
        [EvGet ip (http_get E ip (tick st));
         EvPut ip (on_patch (toggle_value (http_get E ip (tick st))))
           (http_put E ip (on_patch (toggle_value (http_get E ip (tick st))))
              (S (tick st)))] |}).
Proof.
  unfold toggleLight, toggle_value. run. rewrite getLightState_run. run.
  unfold readable.
  destruct (read_result (http_get E ip (tick st))) as [s|e];
    rewrite setLight_run; cbn [tick disk trace]; rewrite <- app_assoc;
    reflexivity.
Qed.

(** X4: [toggleLight] always ends with exactly one write, after exactly one
    read, also when the read failed: it then switches the device on.  It
    switches the device off exactly when the read reported a state whose
    [On] is not 0, and it succeeds exactly when the write is answered
    with status 200. *)
Theorem toggleLight_writes_once (E : Env) (ip : string) (st : St) :
  exists res st' reply on r,
    toggleLight E ip st = (Ret res, st') /\
    trace st' = trace st ++ [EvGet ip reply; EvPut ip (on_patch on) r] /\
    disk st' = disk st /\
    reply = http_get E ip (tick st) /\
    (on = 0 \/ on = 1) /\
    (on = 0 <-> exists s, readable reply = Some s /\ On s <> 0) /\
    (res = None <-> r = PutResp 200).
Proof.
  rewrite toggleLight_run. eexists _, _, _, _, _.
  split; [reflexivity|]. split; [reflexivity|]. split; [reflexivity|].
  split; [reflexivity|].
  set (reply := http_get E ip (tick st)).
  set (r := http_put E ip _ _).
  split; [|split].
  - unfold toggle_value, toggled. destruct (readable reply); [case_decide|]; auto.
  - unfold toggle_value, toggled. destruct (readable reply) as [s|].
    + case_decide; split; try done.
      * intros (s' & [= <-] & Hs). done.
      * intros _. eauto.
    + split; [done|]. intros (s & [=] & _).
  - unfold put_error. destruct r as [e|e|status]; try (split; done).
    case_decide; split; try done.
    + intros [= ->]. done.
    + intros _. f_equal. destruct (decide (status = 200)); done.
Qed.

Lemma toggleLightAttempt_cases (E : Env) (ip : string) (st : St) :
  exists res st1 t,
    toggleLightAttempt E ip st = (Ret res, st1) /\
    trace st1 = trace st ++ t /\ disk st1 = disk st /\
    ((exists reply, t = [EvGet ip reply] /\ readable reply = None /\
                    res <> None) \/
     (exists reply s r,
        t = [EvGet ip reply; EvPut ip (on_patch (toggled s)) r] /\
        readable reply = Some s /\ (res = None <-> r = PutResp 200))).
Proof.
  unfold toggleLightAttempt, httpGet, httpPut. run.
  set (reply := http_get E ip (tick st)).
  assert (readable reply = match reply with
                           | GetResp _ (Ok resp) => head (RespLights resp)
                           | _ => None
                           end) as Hread.
  { unfold readable, read_result. destruct reply as [e|status [resp|e]]; try done.
    by destruct (RespLights resp). }
  destruct reply as [e|status [resp|e]] eqn:Hreply; run.
  - eexists _, _, [_]. split; [reflexivity|]. repeat split. left. eauto.
  - destruct (RespLights resp) as [|first rest] eqn:Hl; run.
    + eexists _, _, [_]. split; [reflexivity|]. repeat split. left.
      eexists. split; [reflexivity|]. by rewrite Hread.
    + cbn [tick disk trace].
      match goal with
      | |- context [http_put E ip ?p ?n] =>
          change p with (on_patch (toggled first));
          set (r := http_put E ip (on_patch (toggled first)) n)
      end.
      assert (exists res, (match r with
                | PutNoRequest e => mret (Some (Wrapf "failed to create request" e))
                | PutFail e => mret (Some (Wrapf "failed to send toggle request" e))
                | PutResp status0 =>
                    if decide (status0 ≠ 200)
                    then mret (Some (Errorf ("API returned status " +:+ pretty status0)))
                    else mret None
                end : M (option error)) = mret res /\ (res = None <-> r = PutResp 200))
        as (res & -> & Hres).
      { destruct r as [e|e|status0]; try (eexists; split; [reflexivity|]; split; done).
        case_decide; eexists; (split; [reflexivity|]); split; try done.
        - intros [= ->]. done.
        - intros _. f_equal. destruct (decide (status0 = 200)); [done|]. done. }
      run. eexists res, _, [_; _]. split; [reflexivity|].
      cbn [trace disk]. rewrite <- app_assoc. repeat split. right.
      eexists _, first, r. by rewrite Hread.
  - eexists _, _, [_]. split; [reflexivity|]. repeat split. left. eauto.
Qed.


(** The facts about one attempt that add up over the retries. *)
Lemma attempt_counts (E : Env) (ip : string) (st : St) :
  exists res st1 t,
    toggleLightAttempt E ip st = (Ret res, st1) /\
    trace st1 = trace st ++ t /\ disk st1 = disk st /\
    length (gets_of t) = 1%nat /\
    (length (puts_of t) <= length (omap readable (gets_of t).*2))%nat /\
    sleeps_of t = [] /\
    (res = None <-> exists p, last t = Some (EvPut ip p (PutResp 200))).
Proof.
  destruct (toggleLightAttempt_cases E ip st)
    as (res & st1 & t & Hrun & Ht & Hd & Hcase).
  exists res, st1, t. split; [done|]. split; [done|]. split; [done|].
  destruct Hcase as [(reply & -> & Hread & Hres) | (reply & s & r & -> & Hread & Hres)];
    cbn; rewrite Hread; cbn.
  - repeat split; try lia; [intros Hn; by destruct Hres | intros (p & Hp); discriminate].
  - repeat split; try lia.
    + intros Hnone. apply Hres in Hnone as ->. eauto.
    + intros (p & Hp). injection Hp as _ Hr. by apply Hres.
Qed.

Lemma last_app_nonempty {A} (l1 l2 : list A) :
  l2 <> [] -> last (l1 ++ l2) = last l2.
Proof.
  intros Hne. destruct l2 as [|x l2] using rev_ind; [done|].
  by rewrite app_assoc, !last_snoc.
Qed.

(** X5: [toggleLightFast] always returns.  It reads at most three times and
    sleeps at most twice, 100ms each; it writes only after a read that
    gave a device state, so a device that cannot be read is never
    written to; it leaves the settings file alone; and it succeeds
    exactly when its last request is a write answered with status 200. *)
Theorem toggleLightFast_bounded (E : Env) (ip : string) (st : St) :
  exists res st' t,
    toggleLightFast E ip st = (Ret res, st') /\
    trace st' = trace st ++ t /\ disk st' = disk st /\
    (length (gets_of t) <= 3)%nat /\
    (length (puts_of t) <= length (omap readable (gets_of t).*2))%nat /\
    (exists n, (n <= 2)%nat /\ sleeps_of t = replicate n 100) /\
    (res = None <-> exists p, last t = Some (EvPut ip p (PutResp 200))).
Proof.
  unfold toggleLightFast.
  destruct (attempt_counts E ip st)
    as (r1 & s1 & t1 & H1 & Ht1 & Hd1 & Hg1 & Hp1 & Hs1 & Hl1).
  assert (t1 <> []) as Hne1 by (intros ->; done).
  rewrite loop_step, H1. destruct r1 as [e1|].
  2:{ exists None, s1, t1. repeat split; try done; try lia; try (by apply Hl1).
      exists 0%nat. split; [lia | done]. }
  rewrite decide_True by lia.
  destruct (attempt_counts E ip (slept s1))
    as (r2 & s2 & t2 & H2 & Ht2 & Hd2 & Hg2 & Hp2 & Hs2 & Hl2).
  assert (t2 <> []) as Hne2 by (intros ->; done).
  cbn [trace disk slept] in Ht2, Hd2.
  rewrite loop_step, H2. destruct r2 as [e2|].
  2:{ exists None, s2, (t1 ++ [EvSleep 100] ++ t2).
      rewrite Ht2, Ht1, <- !app_assoc, Hd2, Hd1.
      split; [reflexivity|]. split; [reflexivity|]. split; [reflexivity|].
      rewrite (app_assoc t1), (last_app_nonempty _ t2) by done.
      unfold gets_of, puts_of, sleeps_of in *.
      rewrite !omap_app, !fmap_app, !omap_app, !length_app, Hs1, Hs2. cbn.
      repeat split; try done; try lia; try (by apply Hl2).
      exists 1%nat. split; [lia | done]. }
  rewrite decide_True by lia.
  destruct (attempt_counts E ip (slept s2))
    as (r3 & s3 & t3 & H3 & Ht3 & Hd3 & Hg3 & Hp3 & Hs3 & Hl3).
  assert (t3 <> []) as Hne3 by (intros ->; done).
  cbn [trace disk slept] in Ht3, Hd3.
  rewrite loop_step, H3.
  assert (exists res,
            match r3 with
            | Some e =>
                toggleLightFast_loop E ip 0 (1 + 1 + 1 + 1) (Some e)
                  (if decide (1 + 1 + 1 < 3) then slept s3 else s3)
            | None => (Ret None, s3)
            end = (Ret res, s3) /\ (res = None <-> r3 = None))
    as (res & Hres & Hiff).
  { destruct r3 as [e3|]; [|by exists None].
    rewrite decide_False by lia. eexists. split; [reflexivity|]. done. }
  exists res, s3, (t1 ++ [EvSleep 100] ++ t2 ++ [EvSleep 100] ++ t3).
  split; [exact Hres|].
  rewrite Ht3, Ht2, Ht1, <- !app_assoc, Hd3, Hd2, Hd1.
  split; [reflexivity|]. split; [reflexivity|].
  rewrite (app_assoc t1), (app_assoc _ t2), (app_assoc _ [EvSleep 100]).
  rewrite (last_app_nonempty _ t3) by done.
  unfold gets_of, puts_of, sleeps_of in *.
  rewrite !omap_app, !fmap_app, !omap_app, !length_app, Hs1, Hs2, Hs3. cbn.
  repeat split; try done; try lia.
  - exists 2%nat. split; [lia | done].
  - intros Hn. apply Hl3. by apply Hiff.
  - intros Hp. apply Hiff. by apply Hl3.
Qed.


(** ** Activating a control *)

Lemma turn_on_off_run (E : Env) (m : model) (st : St) :
  (focusedControl m = focusTurnOff ->
   exists ips st1 st' t,
     getSelectedLightIPs E m st = (Ret ips, st1) /\
     activateControl E m st
       = (Ret (set_message m "✓ Lights turned off", None), st') /\
     trace st' = trace st ++ t /\ disk st' = disk st /\
     gets_of t = [] /\ saves_of t = [] /\
     puts_of t = (fun ip => (ip, on_patch 0)) <$> ips) /\
  (focusedControl m = focusTurnOn ->
   exists ips st1 st' t,
     getSelectedLightIPs E m st = (Ret ips, st1) /\
     activateControl E m st
       = (Ret (set_message m "✓ Lights turned on", None), st') /\
     trace st' = trace st ++ t /\ disk st' = disk st /\
     gets_of t = [] /\ saves_of t = [] /\
     puts_of t = (fun ip => (ip, on_patch 1)) <$> ips).
Proof.
  split; intros Hfocus;
    destruct (getSelectedLightIPs_returns E m st)
      as (ips & st1 & Hips & Ht1 & Hd1);
    exists ips, st1; unfold activateControl; rewrite Hfocus; run;
    rewrite Hips; run.
  - match goal with
    | |- context [for_range ?body ips tt st1] =>
        destruct (for_range_total body
          (fun seen _ s' =>
             exists t, trace s' = trace st ++ t /\ disk s' = disk st /\
               gets_of t = [] /\ saves_of t = [] /\
               puts_of t = (fun ip => (ip, on_patch 0)) <$> seen)
          ips tt st1) as ([] & st2 & Hloop & t & Ht & Hd & Hg & Hs & Hp)
    end.
    { exists []. by rewrite app_nil_r. }
    { intros seen ip [] s' (t & Ht & Hd & Hg & Hs & Hp).
      run. rewrite setLight_run. run.
      eexists tt, _. split; [reflexivity|]. cbn [trace disk].
      eexists (t ++ [_]). rewrite Ht, Hd, <- app_assoc.
      rewrite gets_of_app, saves_of_app, puts_of_app, Hg, Hs, Hp, fmap_app.
      done. }
    rewrite Hloop. run. eauto 10.
  - match goal with
    | |- context [for_range ?body ips tt st1] =>
        destruct (for_range_total body
          (fun seen _ s' =>
             exists t, trace s' = trace st ++ t /\ disk s' = disk st /\
               gets_of t = [] /\ saves_of t = [] /\
               puts_of t = (fun ip => (ip, on_patch 1)) <$> seen)
          ips tt st1) as ([] & st2 & Hloop & t & Ht & Hd & Hg & Hs & Hp)
    end.
    { exists []. by rewrite app_nil_r. }
    { intros seen ip [] s' (t & Ht & Hd & Hg & Hs & Hp).
      run. rewrite setLight_run. run.
      eexists tt, _. split; [reflexivity|]. cbn [trace disk].
      eexists (t ++ [_]). rewrite Ht, Hd, <- app_assoc.
      rewrite gets_of_app, saves_of_app, puts_of_app, Hg, Hs, Hp, fmap_app.
      done. }
    rewrite Hloop. run. eauto 10.
Qed.

(** X6: Turn Off and Turn On write to every selected address, in order and
    without reading, whatever the devices answer: a failed write neither
    stops the loop nor changes the message, which reports success in
    every case.  Nothing is saved. *)
Theorem turn_on_off_writes_all (E : Env) (m : model) (st : St)
    (focus : controlFocus) (on : Z) (msg : string) :
  (focus, on, msg) ∈ [(focusTurnOff, 0, "✓ Lights turned off");
                      (focusTurnOn, 1, "✓ Lights turned on")] ->
  focusedControl m = focus ->
  exists ips st1 st' t,
    getSelectedLightIPs E m st = (Ret ips, st1) /\
    activateControl E m st = (Ret (set_message m msg, None), st') /\
    trace st' = trace st ++ t /\ disk st' = disk st /\
    gets_of t = [] /\ saves_of t = [] /\
    puts_of t = (fun ip => (ip, on_patch on)) <$> ips.
Proof.
  intros Hin Hfocus. rewrite !elem_of_cons in Hin.
  destruct Hin as [[= -> -> ->] | [[= -> -> ->] | Hnil]];
    [| |by apply elem_of_nil in Hnil].
  - by apply (proj1 (turn_on_off_run E m st)).
  - by apply (proj2 (turn_on_off_run E m st)).
Qed.

Lemma set_message_same (m : model) : set_message m (message m) = m.
Proof. by destruct m. Qed.

(** X7: Toggle reads and then writes every selected address, one after the
    other, and goes on after a failure; it changes nothing of the model
    but the message and saves nothing.  With no address selected the
    message stays; otherwise (for fewer than 2^62 addresses) it reports
    an error as soon as one write failed and the number of devices
    toggled when none did. *)
Theorem toggle_reaches_all_selected (E : Env) (m : model) (st : St) :
  focusedControl m = focusToggle ->
  exists ips st1 msg st' t,
    getSelectedLightIPs E m st = (Ret ips, st1) /\
    activateControl E m st = (Ret (set_message m msg, None), st') /\
    trace st' = trace st ++ t /\ disk st' = disk st /\ saves_of t = [] /\
    (gets_of t).*1 = ips /\ (puts_of t).*1 = ips /\
    (ips = [] -> msg = message m) /\
    (Z.of_nat (length ips) < 2 ^ 62 ->
       (Exists failed_put t -> msg = "✗ Error toggling lights") /\
       (Forall (fun e => ~ failed_put e) t -> ips <> [] ->
          msg = "✓ " +:+ pretty (Z.of_nat (length ips)) +:+ " light(s) toggled")).
Proof.
  intros Hfocus.
  destruct (getSelectedLightIPs_returns E m st) as (ips & st1 & Hips & Ht1 & Hd1).
  exists ips, st1. unfold activateControl, toggleLights. rewrite Hfocus. run.
  rewrite Hips. run.
  match goal with
  | |- context [for_range ?body ips ?acc st1] =>
      destruct (for_range_total body
        (fun seen '(errorCount, successCount) s' =>
           exists t, trace s' = trace st ++ t /\ disk s' = disk st /\
             saves_of t = [] /\
             (gets_of t).*1 = seen /\ (puts_of t).*1 = seen /\
             (Z.of_nat (length seen) < 2 ^ 62 ->
                exists ne ns : nat,
                  errorCount = Z.of_nat ne /\ successCount = Z.of_nat ns /\
                  (ne + ns)%nat = length seen /\
                  (ne = 0%nat <-> Forall (fun e => ~ failed_put e) t)))
        ips acc st1)
        as ([errorCount successCount] & st2 & Hloop & t & Ht & Hd & Hs & Hg & Hp & Hcnt)
  end.
  { exists []. rewrite app_nil_r. repeat split; try done.
    intros _. exists 0%nat, 0%nat. repeat split; try done. }
  { intros seen ip [errorCount successCount] s' (t & Ht & Hd & Hs & Hg & Hp & Hcnt).
    run. rewrite toggleLight_run. run.
    set (reply := http_get E ip (tick s')).
    set (on := toggle_value reply).
    set (r := http_put E ip (on_patch on) (S (tick s'))).
    assert (forall ec sc, exists ec' sc',
      (match put_error r with
       | Some _ => mret (Continue, (GoInt.add ec 1, sc))
       | None => mret (Continue, (ec, GoInt.add sc 1))
       end : M (LoopCtl * (Z * Z))) = mret (Continue, (ec', sc')) /\
      (ec', sc') = (match put_error r with Some _ => (GoInt.add ec 1, sc) | None => (ec, GoInt.add sc 1) end))
      as Hm by (intros; destruct (put_error r); eauto).
    destruct (Hm errorCount successCount) as (ec' & sc' & -> & Hec). run.
    eexists (ec', sc'), _. split; [reflexivity|]. cbn [trace disk].
    exists (t ++ [EvGet ip reply; EvPut ip (on_patch on) r]).
    rewrite Ht, Hd, <- app_assoc.
    rewrite saves_of_app, gets_of_app, puts_of_app, !fmap_app, Hs, Hg, Hp.
    repeat split; try done.
    intros Hlen. rewrite length_app in Hlen. cbn [length] in Hlen.
    destruct (Hcnt ltac:(lia)) as (ne & ns & -> & -> & Hsum & Hzero).
    assert (forall e, e ∈ [EvGet ip reply; EvPut ip (on_patch on) r] ->
              failed_put e -> put_error r <> None) as Hfail.
    { intros e He (ip' & p' & r' & -> & Hne). set_unfold.
      destruct He as [He|[He|[]]]; [discriminate|]. by injection He as -> -> ->. }
    destruct (put_error r) as [err|] eqn:Herr; injection Hec as -> ->.
    + exists (S ne), ns. rewrite add_small by (apply small_in_range; lia).
      repeat split; try lia.
      * rewrite length_app. cbn. lia.
      * intros Hall. apply Forall_app in Hall as [_ Hall].
        apply Forall_cons in Hall as [_ Hall]. apply Forall_cons in Hall as [Hall _].
        exfalso. apply Hall. exists ip, (on_patch on), r. by rewrite Herr.
    + exists ne, (S ns). rewrite add_small by (apply small_in_range; lia).
      repeat split; try lia.
      * rewrite length_app. cbn. lia.
      * intros Hne0. apply Forall_app. split; [by apply Hzero|].
        apply Forall_forall. intros e He Hf. by apply (Hfail e He Hf).
      * intros Hall. apply Forall_app in Hall as [Hall _]. by apply Hzero. }
  rewrite Hloop. run.
  assert (exists msg,
    (if decide (errorCount = 0 ∧ successCount > 0)
     then mret (set_message m ("✓ " +:+ pretty successCount +:+ " light(s) toggled"), None)
     else if decide (errorCount > 0)
          then mret (set_message m "✗ Error toggling lights", None)
          else mret (m, None) : M (model * option Cmd)) st2
    = (Ret (set_message m msg, None), st2) /\
    msg = (if decide (errorCount = 0 ∧ successCount > 0)
           then "✓ " +:+ pretty successCount +:+ " light(s) toggled"
           else if decide (errorCount > 0) then "✗ Error toggling lights"
                else message m)) as (msg & -> & Hmsg).
  { repeat case_decide; eexists; (split; [|reflexivity]); try reflexivity.
    by rewrite set_message_same. }
  exists msg, st2, t. repeat split; try done.
  - intros ->.
    destruct (Hcnt ltac:(cbn; lia)) as (ne & ns & -> & -> & Hsum & _).
    cbn in Hsum. assert (ne = 0 /\ ns = 0)%nat as [-> ->] by lia.
    rewrite Hmsg. repeat case_decide; try done; lia.
  - intros Hbad. destruct (Hcnt H) as (ne & ns & -> & -> & Hsum & Hzero).
    assert (ne <> 0%nat) as Hne.
    { intros Hz. apply Hzero in Hz. apply Exists_exists in Hbad as (e & He & Hf).
      rewrite Forall_forall in Hz. by apply (Hz e He). }
    rewrite Hmsg. repeat case_decide; try done; lia.
  - intros Hall Hne. destruct (Hcnt H) as (ne & ns & -> & -> & Hsum & Hzero).
    apply Hzero in Hall as ->. cbn in Hsum. subst ns.
    assert (length ips <> 0%nat) by (by destruct ips).
    rewrite Hmsg. repeat case_decide; try done; lia.
Qed.


(** X9: The interactive path stores the temperature only when the write to
    every selected address succeeded, for a pending temperature other
    than 0: either some write failed, nothing was saved and the
    configuration is as before, or no write failed, every selected
    address was sent the wire value and the Kelvin value was saved. *)
Theorem activateControl_temperature_persists (E : Env) (m : model)
    (wire : Z) (st : St) :
  focusedControl m = focusTemperature ->
  elgatoTemp (temperatureValue m) = Some wire ->
  exists ips st1 m' st' t,
    getSelectedLightIPs E m st = (Ret ips, st1) /\
    activateControl E m st = (Ret (m', None), st') /\
    trace st' = trace st ++ t /\
    ((Exists failed_put t /\ saves_of t = [] /\ disk st' = disk st /\
      config m' = config m) \/
     (Forall (fun e => ~ failed_put e) t /\
      puts_of t = (fun ip => (ip, temp_patch wire)) <$> ips /\
      saves_of t = [set_LastTemperature (config m) (temperatureValue m)] /\
      config m' = set_LastTemperature (config m) (temperatureValue m))).
Proof.
  intros Hfocus Hwire.
  destruct (getSelectedLightIPs_returns E m st) as (ips & st1 & Hips & Ht1 & Hd1).
  exists ips, st1. unfold activateControl. rewrite Hfocus. run. rewrite Hips. run.
  match goal with
  | |- context [for_range ?body ips ?acc st1] =>
      assert (forall l s, exists s' t,
                trace s' = trace s ++ t /\ disk s' = disk s /\ saves_of t = [] /\
                ((for_range body l acc s = (Ret acc, s') /\
                  Forall (fun e => ~ failed_put e) t /\
                  puts_of t = (fun ip => (ip, temp_patch wire)) <$> l)
                 \/ (for_range body l acc s
                       = (Ret ("✗ Error setting temperature", false), s') /\
                     Exists failed_put t))) as Hloop
  end.
  { induction l as [|ip l IH]; intros s.
    - exists s, []. rewrite app_nil_r. repeat split; try done. left. done.
    - cbn [for_range]. run. rewrite (setLight_temp_run _ _ _ _ _ _ _ Hwire). run.
      set (p := {| p_on := None; p_brightness := None;
                   p_temperature := Some wire |}).
      set (r := http_put E ip p (tick s)).
      set (s1 := {| tick := S (tick s); disk := disk s;
                    trace := trace s ++ [EvPut ip p r] |}).
      destruct (put_error r) as [e|] eqn:Herr; run.
      + exists s1, [EvPut ip p r]. repeat split; try done. right.
        split; [done|]. apply Exists_cons_hd. exists ip, p, r.
        split; [done|]. by rewrite Herr.
      + destruct (IH s1) as (s' & t & Ht & Hd & Hs & Hcase).
        exists s', (EvPut ip p r :: t). subst s1. cbn [trace disk] in Ht, Hd.
        rewrite Ht, Hd, <- app_assoc. cbn [app].
        split; [done|]. split; [done|]. split; [done|].
        destruct Hcase as [(Hrun & Hok & Hputs) | (Hrun & Hbad)].
        * left. split; [done|]. split.
          -- apply Forall_cons. split; [|done].
             intros (ip' & p' & r' & Heq & Hne). injection Heq as <- <- <-.
             by rewrite Herr in Hne.
          -- cbn. by rewrite <- Hputs.
        * right. split; [done|]. by apply Exists_cons_tl. }
  destruct (Hloop ips st1) as (s' & t & Ht & Hd & Hs & [(Hrun & Hok & Hputs) | (Hrun & Hbad)]);
    rewrite Hrun; run.
  - (* every write succeeded *)
    unfold saveConfig. run. eexists _, _, (t ++ [EvSave _ _]).
    split; [reflexivity|]. split; [reflexivity|]. cbn [trace disk].
    split; [by rewrite Ht, Ht1, <- app_assoc|].
    right. rewrite puts_of_app, saves_of_app, Hs, Hputs, app_nil_r.
    repeat split; try done.
    apply Forall_app. split; [done|]. apply Forall_singleton.
    intros (ip' & p' & r' & Heq & _). discriminate.
  - eexists _, _, t. split; [reflexivity|]. split; [reflexivity|].
    split; [by rewrite Ht, Ht1|].
    left. rewrite Hd, Hd1. done.
Qed.

(** With a pending temperature of 0 the conversion divides by zero: the
    commit panics before the first request, unless nothing is selected. *)
Lemma activateControl_temperature_zero (E : Env) (m : model) (st : St) :
  focusedControl m = focusTemperature -> temperatureValue m = 0 ->
  forall ips st1,
    getSelectedLightIPs E m st = (Ret ips, st1) -> ips <> [] ->
    activateControl E m st = (Panic, st1).
Proof.
  intros Hfocus Hzero ips st1 Hips Hne.
  unfold activateControl. rewrite Hfocus. run. rewrite Hips. run.
  destruct ips as [|ip ips]; [done|]. cbn [for_range]. run.
  rewrite Hzero. reflexivity.
Qed.

(** ** Values the command line rejects *)

Lemma rejected_sign (E : Env) (lo hi : Z) (args : list string) (action : string) :
  args !! 2%nat = Some action -> action ∈ ["+"; "-"; "="] ->
  ~ rejected E lo hi args.
Proof. unfold rejected. intros -> Hin [Hout _]. done. Qed.

Lemma exit_after_line {A} (line : string) (st : St) :
  (Println line;; (os_Exit 1 : M A)) st = (Exit 1, printed st line).
Proof. reflexivity. Qed.

(** X10: [bright] never panics, whatever the devices answer.  With a
    rejected value it prints one line and exits with code 1, having sent
    no request and saved nothing; with any other it returns, and the
    registry of the configuration it returns is the one it was given. *)
Theorem cliBrightness_exits_iff_rejected (E : Env) (config : Config)
    (args : list string) (st : St) :
  (rejected E 3 100 args /\
   exists line, cliBrightness E config args st = (Exit 1, printed st line)) \/
  (~ rejected E 3 100 args /\
   exists cfg st', cliBrightness E config args st = (Ret cfg, st') /\
                   Lights cfg = Lights config /\
                   LastTemperature cfg = LastTemperature config).
Proof.
  destruct (args !! 2%nat) as [action|] eqn:Hact.
  - assert (~ length args < 3)%nat as Hlen
      by (apply lookup_lt_Some in Hact; lia).
    assert (forall c : M Config,
              yields (fun cfg => Lights cfg = Lights config /\
                        LastTemperature cfg = LastTemperature config) c ->
              exists cfg st', c st = (Ret cfg, st') /\
                Lights cfg = Lights config /\
                LastTemperature cfg = LastTemperature config) as Hy.
    { intros c Hc. destruct (Hc st) as (cfg & st' & ? & ?). by exists cfg, st'. }
    unfold cliBrightness. rewrite (decide_False (P := (length args < 3)%nat)) by done.
    unfold at_index. rewrite Hact. run.
    case_decide as Hplus;
      [right; split; [apply (rejected_sign _ _ _ _ _ Hact); subst; rewrite !elem_of_cons; auto|];
       apply Hy; repeat yields_step|].
    case_decide as Hminus;
      [right; split; [apply (rejected_sign _ _ _ _ _ Hact); subst; rewrite !elem_of_cons; auto|];
       apply Hy; repeat yields_step|].
    case_decide as Heq;
      [right; split; [apply (rejected_sign _ _ _ _ _ Hact); subst; rewrite !elem_of_cons; auto|];
       apply Hy; repeat (first [yields_step | case_decide])|].
    assert (action ∉ ["+"; "-"; "="]) as Hnot
      by (rewrite !not_elem_of_cons; repeat split; [done..|apply not_elem_of_nil]).
    unfold rejected. rewrite Hact.
    destruct (sscanf_d E action) as [v|] eqn:Hscan.
    + case_decide as Hrange.
      * left. split; [done|]. eexists. apply exit_after_line.
      * right. split; [intros [_ ?]; done|]. apply Hy. repeat yields_step.
    + left. split; [done|]. eexists. apply exit_after_line.
  - left. unfold rejected. rewrite Hact. split; [done|].
    unfold cliBrightness.
    rewrite (decide_True (P := (length args < 3)%nat))
      by (apply lookup_ge_None in Hact; lia).
    eexists. apply exit_after_line.
Qed.

(** X11: [temp] ends the process exactly for a rejected value: it then prints
    one line and exits with code 1, having sent no request and saved
    nothing.  With any other value it does not exit, whatever the
    devices answer. *)
Theorem cliTemperature_exits_iff_rejected (E : Env) (config : Config)
    (args : list string) (st : St) :
  (rejected E 2900 7000 args /\
   exists line, cliTemperature E config args st = (Exit 1, printed st line)) \/
  (~ rejected E 2900 7000 args /\
   forall code st', cliTemperature E config args st <> (Exit code, st')).
Proof.
  destruct (args !! 2%nat) as [action|] eqn:Hact.
  - assert (~ length args < 3)%nat as Hlen
      by (apply lookup_lt_Some in Hact; lia).
    assert (forall c : M Config, no_exit c ->
              forall code st', c st <> (Exit code, st')) as Hy
      by (intros c Hc; apply Hc).
    unfold cliTemperature. rewrite (decide_False (P := (length args < 3)%nat)) by done.
    unfold at_index. rewrite Hact. run.
    case_decide as Hplus;
      [right; split; [apply (rejected_sign _ _ _ _ _ Hact); subst; rewrite !elem_of_cons; auto|];
       apply Hy; repeat no_exit_step|].
    case_decide as Hminus;
      [right; split; [apply (rejected_sign _ _ _ _ _ Hact); subst; rewrite !elem_of_cons; auto|];
       apply Hy; repeat no_exit_step|].
    case_decide as Heq;
      [right; split; [apply (rejected_sign _ _ _ _ _ Hact); subst; rewrite !elem_of_cons; auto|];
       apply Hy; repeat (first [no_exit_step | case_decide])|].
    assert (action ∉ ["+"; "-"; "="]) as Hnot
      by (rewrite !not_elem_of_cons; repeat split; [done..|apply not_elem_of_nil]).
    unfold rejected. rewrite Hact.
    destruct (sscanf_d E action) as [v|] eqn:Hscan.
    + case_decide as Hrange.
      * left. split; [done|]. eexists. apply exit_after_line.
      * right. split; [intros [_ ?]; done|]. apply Hy. repeat no_exit_step.
    + left. split; [done|]. eexists. apply exit_after_line.
  - left. unfold rejected. rewrite Hact. split; [done|].
    unfold cliTemperature.
    rewrite (decide_True (P := (length args < 3)%nat))
      by (apply lookup_ge_None in Hact; lia).
    eexists. apply exit_after_line.
Qed.


(** ** Resolving a light on the command line *)

Lemma find_by_name_loop (id : string) (l : list (string * string))
    (acc : string * string) (st : St) :
  exists r,
    for_range (fun '(targetIP, targetName) '(name, ip) =>
        if decide (name = id)
        then (mret (Break, (ip, name)) : M _)
        else mret (Continue, (targetIP, targetName))) l acc st = (Ret r, st) /\
    ((exists ip, (id, ip) ∈ l /\ r = (ip, id)) \/ ((id ∉ l.*1) /\ r = acc)).
Proof.
  induction l as [|[name ip] l IH].
  - exists acc. split; [done|]. right. split; [apply not_elem_of_nil|done].
  - destruct acc as [accIP accName]. cbn [for_range]. run. case_decide as Hname; run.
    + subst name. exists (ip, id). split; [done|]. left. exists ip.
      split; [apply list_elem_of_here|done].
    + destruct IH as (r & Hrun & Hcase). exists r. split; [done|].
      destruct Hcase as [(ip' & Hin & ->) | (Hout & ->)].
      * left. exists ip'. split; [by apply list_elem_of_further|done].
      * right. split; [|done]. cbn. rewrite not_elem_of_cons. done.
Qed.

Lemma find_by_index_loop (index : Z) (l : list (string * string))
    (accIP accName : string) (i : Z) (st : St) :
  i <= index ->
  exists j,
    for_range (fun '(targetIP, targetName, i) '(name, ip) =>
        if decide (i = index)
        then (mret (Break, (ip, name, i)) : M _)
        else mret (Continue, (targetIP, targetName, i + 1)))
      l (accIP, accName, i) st
    = (Ret (match l !! Z.to_nat (index - i) with
            | Some (name, ip) => (ip, name)
            | None => (accIP, accName)
            end, j), st).
Proof.
  revert i. induction l as [|[name ip] l IH]; intros i Hi.
  - exists i. done.
  - cbn [for_range]. run. case_decide as Hidx; run.
    + exists i. subst i. by rewrite Z.sub_diag.
    + destruct (IH (i + 1) ltac:(lia)) as (j & Hrun). exists j. rewrite Hrun.
      replace (Z.to_nat (index - i)) with (S (Z.to_nat (index - (i + 1)))) by lia.
      done.
Qed.

Lemma findLight_by_name_run (E : Env) (config : Config) (id : string) (st : St) :
  Env_ok E ->
  (forall index, sscanf_d E id = Some index -> index <= 0) ->
  exists st',
    findLight E config id st =
      (Ret (match Lights config !! id with
            | Some ip => (ip, id)
            | None => ("", "")
            end), st') /\
    trace st' = trace st /\ disk st' = disk st.
Proof.
  intros Hok Hnum. unfold findLight.
  assert (match sscanf_d E id with
          | Some index => if decide (index > 0) then Some index else None
          | None => None
          end = None) as ->.
  { destruct (sscanf_d E id) as [index|] eqn:Hscan; [|done].
    specialize (Hnum index eq_refl). rewrite decide_False by lia. done. }
  run. rewrite range_map_run. run.
  set (l := range_order E (tick st) (map_to_list (Lights config))).
  set (st1 := {| tick := S (tick st); disk := disk st; trace := trace st |}).
  destruct (find_by_name_loop id l ("", "") st1) as (r & Hrun & Hcase).
  exists st1. rewrite Hrun. split; [|done]. f_equal.
  assert (forall ip, (id, ip) ∈ l <-> Lights config !! id = Some ip) as Hin.
  { intros ip. unfold l. rewrite (Hok _ _). apply elem_of_map_to_list. }
  destruct Hcase as [(ip & Hip & ->) | (Hout & ->)].
  - apply Hin in Hip. by rewrite Hip.
  - destruct (Lights config !! id) as [ip|] eqn:Hlook; [|done].
    exfalso. apply Hout. apply list_elem_of_fmap. exists (id, ip).
    split; [done|]. by apply Hin.
Qed.

Lemma findLight_by_index_run (E : Env) (config : Config) (id : string)
    (index : Z) (st : St) :
  sscanf_d E id = Some index -> index > 0 ->
  exists st',
    findLight E config id st =
      (Ret (match range_order E (tick st) (map_to_list (Lights config))
                    !! Z.to_nat (index - 1) with
            | Some (name, ip) => (ip, name)
            | None => ("", "")
            end), st') /\
    trace st' = trace st /\ disk st' = disk st.
Proof.
  intros Hscan Hpos. unfold findLight. rewrite Hscan.
  rewrite decide_True by done. run. rewrite range_map_run. run.
  set (l := range_order E (tick st) (map_to_list (Lights config))).
  set (st1 := {| tick := S (tick st); disk := disk st; trace := trace st |}).
  destruct (find_by_index_loop index l "" "" 1 st1 ltac:(lia)) as (j & Hrun).
  exists st1. rewrite Hrun. run. split; [|done].
  by destruct (l !! Z.to_nat (index - 1)) as [[name ip]|].
Qed.

(** X12: What an identifier on the command line stands for.  A positive
    number [n] is the [n]-th entry in the order of this run's visit of
    the registry, and nothing beyond its end.  Any other identifier is
    the entry of that name, whatever the order of the visit, and nothing
    when there is none.  Nothing is requested, printed or saved. *)
Theorem findLight_resolves (E : Env) (config : Config) (id : string) (st : St) :
  Env_ok E ->
  let nth index :=
    match range_order E (tick st) (map_to_list (Lights config))
            !! Z.to_nat (index - 1) with
    | Some (name, ip) => (ip, name)
    | None => ("", "")
    end in
  let named :=
    match Lights config !! id with
    | Some ip => (ip, id)
    | None => ("", "")
    end in
  exists st',
    findLight E config id st =
      (Ret (match sscanf_d E id with
            | Some index => if decide (index > 0) then nth index else named
            | None => named
            end), st') /\
    trace st' = trace st /\ disk st' = disk st.
Proof.
  intros Hok nth named. destruct (sscanf_d E id) as [index|] eqn:Hscan.
  - case_decide as Hpos.
    + by apply findLight_by_index_run.
    + apply findLight_by_name_run; [done|].
      intros i Hi. rewrite Hscan in Hi. injection Hi as <-. lia.
  - apply findLight_by_name_run; [done|].
    intros i Hi. by rewrite Hscan in Hi.
Qed.

Lemma not_found_exits (E : Env) (config : Config) (id : string)
    (args : list string) (name : string) (st st1 : St) :
  findLight E config id st = (Ret ("", name), st1) ->
  cliSpecificLight E config id args st =
    (Exit 1, printed st1 ("✗ Light '" +:+ id +:+
       "' not found. Use 'keylight list' to see available lights.")).
Proof.
  intros Hfind. unfold cliSpecificLight. run. rewrite Hfind.
  rewrite decide_True by done. reflexivity.
Qed.

(** X13: A light that cannot be resolved is reported and nothing else
    happens: for a name that is not registered, a name registered with an
    empty address, or a number above the size of the registry, the
    command prints the not-found line and exits with code 1 without a
    request to any device. *)
Theorem cliSpecificLight_not_found (E : Env) (config : Config) (id : string)
    (args : list string) (st : St) :
  Env_ok E ->
  match sscanf_d E id with
  | Some index =>
      if decide (index > 0)
      then Z.of_nat (size (Lights config)) < index
      else default "" (Lights config !! id) = ""
  | None => default "" (Lights config !! id) = ""
  end ->
  exists st',
    cliSpecificLight E config id args st = (Exit 1, st') /\
    disk st' = disk st /\
    trace st' = trace st ++
      [EvPrint ("✗ Light '" +:+ id +:+
         "' not found. Use 'keylight list' to see available lights.")].
Proof.
  intros Hok Hid.
  assert (exists name st1, findLight E config id st = (Ret ("", name), st1) /\
            trace st1 = trace st /\ disk st1 = disk st) as (name & st1 & Hfind & Ht & Hd).
  { destruct (sscanf_d E id) as [index|] eqn:Hscan.
    - destruct (decide (index > 0)) as [Hpos|Hneg].
      + destruct (findLight_by_index_run E config id index st Hscan Hpos)
          as (st1 & Hrun & Ht & Hd).
        rewrite lookup_ge_None_2 in Hrun; [by exists "", st1|].
        rewrite (Hok _ _), length_map_to_list. lia.
      + destruct (findLight_by_name_run E config id st Hok) as (st1 & Hrun & Ht & Hd).
        { intros i Hi. rewrite Hscan in Hi. injection Hi as <-. lia. }
        rewrite Hrun. destruct (Lights config !! id) as [ip|]; cbn in Hid.
        * subst ip. by exists id, st1.
        * by exists "", st1.
    - destruct (findLight_by_name_run E config id st Hok) as (st1 & Hrun & Ht & Hd).
      { intros i Hi. by rewrite Hscan in Hi. }
      rewrite Hrun. destruct (Lights config !! id) as [ip|]; cbn in Hid.
      + subst ip. by exists id, st1.
      + by exists "", st1. }
  exists (printed st1 ("✗ Light '" +:+ id +:+
       "' not found. Use 'keylight list' to see available lights.")).
  split; [by apply (not_found_exits _ _ _ _ name)|].
  cbn. by rewrite Ht, Hd.
Qed.


(** ** One step of a session *)

Lemma activateControl_yields (E : Env) (m : model) :
  temperatureValue m <> 0 ->
  yields (fun r => brightnessValue r.1 = brightnessValue m /\
                   temperatureValue r.1 = temperatureValue m /\
                   lights r.1 = lights m /\ lightsList r.1 = lightsList m /\
                   Lights (config r.1) = Lights (config m) /\
                   quitting r.1 = quitting m /\ r.2 = None)
    (activateControl E m).
Proof.
  intros Ht.
  assert (exists wire, elgatoTemp (temperatureValue m) = Some wire) as (wire & Hw).
  { unfold elgatoTemp, GoInt.quot. rewrite decide_False by done. eauto. }
  unfold activateControl, toggleLights.
  destruct (focusedControl m);
    repeat (first [ apply yields_getSelectedLightIPs
                  | apply yields_toggleLight
                  | apply (yields_setLight_temp _ _ _ _ _ _ Hw)
                  | yields_step
                  | case_decide
                  | match goal with
                    | |- yields _ (if ?b then _ else _) => destruct b
                    end ]).
Qed.

(** X14: A step of a session whose pending values are in range never stops
    the program: whatever the message and whatever the devices answer,
    [Update] returns, the pending values stay in range, the registry and
    the order of the lights are as before, and the quit command comes
    back exactly for the keys [q] and [ctrl+c]. *)
Theorem Update_total_in_range (E : Env) (m : model) (msg : Msg) (st : St) :
  in_range_model m ->
  exists m' cmd st',
    Update E m msg st = (Ret (m', cmd), st') /\
    in_range_model m' /\
    lights m' = lights m /\ lightsList m' = lightsList m /\
    Lights (config m') = Lights (config m) /\
    (cmd = Some Quit <-> msg = KeyMsg "ctrl+c" \/ msg = KeyMsg "q") /\
    (quitting m' = match cmd with Some _ => true | None => quitting m end).
Proof.
  intros Hm. pose proof Hm as (Hb & Ht).
  assert (yields (fun r => in_range_model r.1 /\
                    lights r.1 = lights m /\ lightsList r.1 = lightsList m /\
                    Lights (config r.1) = Lights (config m) /\
                    (r.2 = Some Quit <-> msg = KeyMsg "ctrl+c" \/ msg = KeyMsg "q") /\
                    (quitting r.1 = match r.2 with Some _ => true | None => quitting m end))
            (Update E m msg)) as Hy.
  { destruct msg as [key|].
    2: { apply yields_ret. cbn. repeat split; try done; try lia. intros [?|?]; done. }
    pose proof (sub_small (brightnessValue m) 5 ltac:(apply small_in_range; lia)).
    pose proof (add_small (brightnessValue m) 5 ltac:(apply small_in_range; lia)).
    pose proof (sub_small (temperatureValue m) 200 ltac:(apply small_in_range; lia)).
    pose proof (add_small (temperatureValue m) 200 ltac:(apply small_in_range; lia)).
    assert (forall c : M (model * option Cmd),
              key <> "ctrl+c" -> key <> "q" ->
              yields (fun r => brightnessValue r.1 = brightnessValue m /\
                        temperatureValue r.1 = temperatureValue m /\
                        lights r.1 = lights m /\ lightsList r.1 = lightsList m /\
                        Lights (config r.1) = Lights (config m) /\
                        quitting r.1 = quitting m /\ r.2 = None) c ->
              yields (fun r => in_range_model r.1 /\
                    lights r.1 = lights m /\ lightsList r.1 = lightsList m /\
                    Lights (config r.1) = Lights (config m) /\
                    (r.2 = Some Quit <->
                       KeyMsg key = KeyMsg "ctrl+c" \/ KeyMsg key = KeyMsg "q") /\
                    (quitting r.1 = match r.2 with Some _ => true | None => quitting m end)) c) as Hkeep.
    { intros c Hk1 Hk2 Hc s. destruct (Hc s) as ([m' cmd] & s' & Hrun & HQ).
      cbn in HQ. destruct HQ as (Hb' & Ht' & ? & ? & ? & Hq & ->).
      exists (m', None), s'. split; [done|]. cbn.
      unfold in_range_model. rewrite Hb', Ht'.
      repeat split; try done; try lia. intros [[=]|[=]]; congruence. }
    unfold Update, navigate.
    repeat case_decide;
      try solve [ apply Hkeep; [intuition congruence..|];
                  first [ apply activateControl_yields; lia
                        | repeat (first [yields_step | apply yields_at_index_guarded; lia]) ] ].
    all: apply yields_ret; unfold in_range_model; cbn in *.
    all: repeat split; try done; try lia.
    all: try (intros [[=]|[=]]; intuition congruence).
    all: try (intros _; intuition congruence). }
  destruct (Hy st) as ([m' cmd] & st' & Hrun & HQ).
  exists m', cmd, st'. done.
Qed.


(** X15: Only activation reaches outside the program.  For every message
    other than the keys [enter], space and [d], [Update] returns without
    a request, a line, a save or a background task, and leaves the
    configuration, the registry and the order of the lights as they
    were; the selection moves only on [a], [1] and [2], and the pending
    values only on the left and right keys. *)
Theorem Update_pure_unless_activated (E : Env) (m : model) (msg : Msg) (st : St) :
  msg ∉ [KeyMsg "enter"; KeyMsg " "; KeyMsg "d"] ->
  exists m' cmd,
    Update E m msg st = (Ret (m', cmd), st) /\
    config m' = config m /\ lights m' = lights m /\
    lightsList m' = lightsList m /\
    (selectedLightMode m' <> selectedLightMode m ->
       msg ∈ [KeyMsg "a"; KeyMsg "1"; KeyMsg "2"]) /\
    (brightnessValue m' <> brightnessValue m \/
     temperatureValue m' <> temperatureValue m ->
       msg ∈ [KeyMsg "left"; KeyMsg "h"; KeyMsg "right"; KeyMsg "l"]).
Proof.
  intros Hmsg. destruct msg as [key|].
  2: { exists m, None. repeat split; try done; intros; exfalso; intuition. }
  rewrite !not_elem_of_cons in Hmsg. destruct Hmsg as (He & Hs & Hd & _).
  assert (key <> "enter" /\ key <> " " /\ key <> "d") as (He' & Hs' & Hd')
    by (repeat split; congruence).
  unfold Update, navigate.
  assert (forall i, (S i <= length (lightsList m))%nat ->
            exists name, at_index (lightsList m) i = mret name) as Hidx.
  { intros i Hi. unfold at_index.
    destruct (lookup_lt_is_Some_2 (lightsList m) i ltac:(lia)) as (x & ->). eauto. }
  repeat case_decide; try (exfalso; intuition congruence);
    try match goal with
        | Hlen : (?n <= length (lightsList m))%nat |- _ =>
            destruct (Hidx _ Hlen) as (name & ->)
        end;
    eexists _, _; (split; [reflexivity|]); cbn;
    repeat split; try done;
    try (intros Hne; exfalso; intuition congruence);
    intros _;
    repeat match goal with H : _ \/ _ |- _ => destruct H end;
    subst; rewrite !elem_of_cons; auto 10.
Qed.


(** ** Steps that undo each other *)

Lemma adjust_run (E : Env) (m : model) (key : string) (st : St) :
  key ∈ ["left"; "right"] ->
  focusedControl m = focusBrightness \/ focusedControl m = focusTemperature ->
  Update E m (KeyMsg key) st =
    (Ret (if decide (focusedControl m = focusBrightness)
          then set_brightnessValue m
                 (if decide (key = "left")
                  then if decide (GoInt.sub (brightnessValue m) 5 < 3) then 3
                       else GoInt.sub (brightnessValue m) 5
                  else if decide (GoInt.add (brightnessValue m) 5 > 100) then 100
                       else GoInt.add (brightnessValue m) 5)
          else set_temperatureValue m
                 (if decide (key = "left")
                  then if decide (GoInt.sub (temperatureValue m) 200 < 2900) then 2900
                       else GoInt.sub (temperatureValue m) 200
                  else if decide (GoInt.add (temperatureValue m) 200 > 7000) then 7000
                       else GoInt.add (temperatureValue m) 200), None), st).
Proof.
  intros Hkey Hfocus. rewrite !elem_of_cons in Hkey.
  destruct Hkey as [-> | [-> | Hnil]]; [| |by apply elem_of_nil in Hnil];
    unfold Update, navigate; destruct Hfocus as [Hf | Hf]; rewrite Hf;
    decide_all; try reflexivity.
Qed.

(** X16: On a value row a step right followed by a step left gives back the
    pending value, unless the upper clamp came in between: from a
    brightness [b] in range the two steps leave [min b 95], and in the
    other order [max b 8]; for a temperature [min t 6800] and
    [max t 3100].  Nothing else in the model moves. *)
Theorem adjust_back_and_forth (E : Env) (m : model) (st : St) :
  in_range_model m ->
  focusedControl m = focusBrightness \/ focusedControl m = focusTemperature ->
  exists m1 m2 m3 m4,
    Update E m (KeyMsg "right") st = (Ret (m1, None), st) /\
    Update E m1 (KeyMsg "left") st = (Ret (m2, None), st) /\
    Update E m (KeyMsg "left") st = (Ret (m3, None), st) /\
    Update E m3 (KeyMsg "right") st = (Ret (m4, None), st) /\
    match focusedControl m with
    | focusBrightness =>
        m2 = set_brightnessValue m (Z.min (brightnessValue m) 95) /\
        m4 = set_brightnessValue m (Z.max (brightnessValue m) 8)
    | _ =>
        m2 = set_temperatureValue m (Z.min (temperatureValue m) 6800) /\
        m4 = set_temperatureValue m (Z.max (temperatureValue m) 3100)
    end.
Proof.
  intros (Hb & Ht) Hfocus.
  assert (forall x d, - 10000 <= x <= 10000 -> - 10000 <= d <= 10000 ->
            GoInt.add x d = x + d /\ GoInt.sub x d = x - d) as Hsmall.
  { intros x d Hx Hd. split; [apply add_small | apply sub_small];
      apply small_in_range; lia. }
  eexists _, _, _, _.
  split; [apply adjust_run; [rewrite !elem_of_cons; auto | done]|].
  split; [apply adjust_run; [rewrite !elem_of_cons; auto |
                             destruct Hfocus as [Hf | Hf]; rewrite Hf; auto]|].
  split; [apply adjust_run; [rewrite !elem_of_cons; auto | done]|].
  split; [apply adjust_run; [rewrite !elem_of_cons; auto |
                             destruct Hfocus as [Hf | Hf]; rewrite Hf; auto]|].
  rewrite !(decide_False (P := "right" = "left")) by done.
  rewrite !(decide_True (P := "left" = "left")) by done.
  unfold set_brightnessValue, set_temperatureValue; cbn.
  destruct Hfocus as [Hf | Hf];
    [rewrite !(decide_True (P := focusedControl m = focusBrightness)) by done
    |rewrite !(decide_False (P := focusedControl m = focusBrightness))
       by (by rewrite Hf)];
    rewrite Hf.
  - destruct (Hsmall (brightnessValue m) 5 ltac:(lia) ltac:(lia)) as (-> & ->).
    split; f_equal; repeat case_decide; cbn in *;
      repeat match goal with
             | H : context [GoInt.sub ?x ?d] |- _ =>
                 rewrite (proj2 (Hsmall x d ltac:(lia) ltac:(lia))) in H
             | H : context [GoInt.add ?x ?d] |- _ =>
                 rewrite (proj1 (Hsmall x d ltac:(lia) ltac:(lia))) in H
             | |- context [GoInt.sub ?x ?d] =>
                 rewrite (proj2 (Hsmall x d ltac:(lia) ltac:(lia)))
             | |- context [GoInt.add ?x ?d] =>
                 rewrite (proj1 (Hsmall x d ltac:(lia) ltac:(lia)))
             end; lia.
  - destruct (Hsmall (temperatureValue m) 200 ltac:(lia) ltac:(lia)) as (-> & ->).
    split; f_equal; repeat case_decide; cbn in *;
      repeat match goal with
             | H : context [GoInt.sub ?x ?d] |- _ =>
                 rewrite (proj2 (Hsmall x d ltac:(lia) ltac:(lia))) in H
             | H : context [GoInt.add ?x ?d] |- _ =>
                 rewrite (proj1 (Hsmall x d ltac:(lia) ltac:(lia))) in H
             | |- context [GoInt.sub ?x ?d] =>
                 rewrite (proj2 (Hsmall x d ltac:(lia) ltac:(lia)))
             | |- context [GoInt.add ?x ?d] =>
                 rewrite (proj1 (Hsmall x d ltac:(lia) ltac:(lia)))
             end; lia.
Qed.


(** ** From the registry to the selection *)

Lemma initialModel_fields (E : Env) (st : St) :
  exists m st',
    initialModel E st = (Ret m, st') /\
    trace st' = trace st /\ disk st' = disk st /\
    lights m = Lights (config m) /\
    lightsList m = (range_order E (tick st) (map_to_list (lights m))).*1 /\
    selectedLightMode m = allLights /\ focusedControl m = focusToggle /\
    brightnessValue m = LastBrightness (config m) /\
    temperatureValue m = LastTemperature (config m) /\
    brightnessValue m <> 0 /\ temperatureValue m <> 0.
Proof.
  destruct (loadConfig_returns st) as (c & Hc).
  unfold initialModel. run. rewrite Hc. run.
  rewrite range_map_run. run. rewrite collect_names. run.
  eexists _, _. split; [reflexivity|]. cbn.
  repeat case_decide; cbn; repeat split; try done; cbn in *; lia.
Qed.

(** X17: The lights a session can address by number are registered ones.
    After start, the key [1] (resp. [2]) with at least one (resp. two)
    registered lights selects the first (resp. second) name of the
    session's list; that name is in the registry, the footer names it,
    and from then on the selection resolves to the address registered
    under it, whatever the order of later visits of the map; the names
    of the list are pairwise distinct. *)
Theorem selected_light_is_registered (E : Env) (st : St) (i : nat)
    (key : string) (mode : lightMode) :
  Env_ok E ->
  (i, key, mode) ∈ [(0%nat, "1", light1); (1%nat, "2", light2)] ->
  exists m st1,
    initialModel E st = (Ret m, st1) /\
    NoDup (lightsList m) /\
    ((i < size (Lights (config m)))%nat ->
     exists name ip m',
       lightsList m !! i = Some name /\
       Lights (config m) !! name = Some ip /\
       Update E m (KeyMsg key) st1 = (Ret (m', None), st1) /\
       selectedLightMode m' = mode /\
       message m' = "✓ Controlling " +:+ name /\
       forall E' st2, getSelectedLightIPs E' m' st2 = (Ret [ip], st2)).
Proof.
  intros HE Hkey.
  destruct (initialModel_fields E st)
    as (m & st1 & Hrun & _ & _ & Hlights & Hlist & _).
  assert (lightsList m ≡ₚ (map_to_list (lights m)).*1) as Hperm
    by (by rewrite Hlist, (HE _ _)).
  exists m, st1. split; [done|].
  split; [rewrite Hperm; apply NoDup_fst_map_to_list|].
  intros Hi.
  assert (i < length (lightsList m))%nat as Hlen.
  { by rewrite (Permutation_length Hperm), length_fmap, length_map_to_list, Hlights. }
  destruct (lookup_lt_is_Some_2 _ _ Hlen) as (name & Hname).
  assert (exists ip, lights m !! name = Some ip) as (ip & Hip).
  { apply list_elem_of_lookup_2 in Hname. rewrite Hperm in Hname.
    apply list_elem_of_fmap in Hname as ([n ip] & -> & Hin).
    apply elem_of_map_to_list in Hin. by exists ip. }
  exists name, ip. rewrite <- Hlights.
  rewrite !elem_of_cons in Hkey.
  destruct Hkey as [[= -> -> ->] | [[= -> -> ->] | Hnil]];
    [| |by apply elem_of_nil in Hnil].
  - eexists. split; [done|]. split; [done|]. split.
    { unfold Update. decide_all; try lia. unfold at_index. rewrite Hname. reflexivity. }
    cbn. repeat split. intros E' st2. unfold getSelectedLightIPs. cbn.
    rewrite decide_True by lia. unfold at_index. rewrite Hname. run.
    by rewrite Hip.
  - eexists. split; [done|]. split; [done|]. split.
    { unfold Update. decide_all; try lia. unfold at_index. rewrite Hname. reflexivity. }
    cbn. repeat split. intros E' st2. unfold getSelectedLightIPs. cbn.
    rewrite decide_True by lia. unfold at_index. rewrite Hname. run.
    by rewrite Hip.
Qed.

(** ** A device that reports a temperature of zero *)

Lemma entries_nonempty (E : Env) (n : nat) (m : gmap string string) :
  Env_ok E -> m <> ∅ -> exists x l, range_order E n (map_to_list m) = x :: l.
Proof.
  intros HE Hm. destruct (range_order E n (map_to_list m)) as [|x l] eqn:Hl; [|eauto].
  exfalso. apply Hm. apply map_to_list_empty_iff.
  apply Permutation_nil_r. by rewrite <- (HE n (map_to_list m)), Hl.
Qed.

Lemma read_zero (E : Env) (ip : string) (st : St) :
  (forall ip n, exists s,
     readable (http_get E ip n) = Some s /\ Temperature s = 0) ->
  exists s st1, getLightState E ip st = (Ret (Ok s), st1) /\ Temperature s = 0.
Proof.
  intros Hzero. destruct (Hzero ip (tick st)) as (s & Hs & Ht).
  rewrite getLightState_run. unfold readable in Hs.
  destruct (read_result (http_get E ip (tick st))) as [s'|e]; [|done].
  injection Hs as ->. eauto.
Qed.

(** X18: The wire temperature a device reports is divided by without a
    check.  When the devices answer with a temperature of 0, a registry
    that is not empty makes [status] panic, and [temp] with [+], [-] or
    [=] as well, at the first device they read. *)
Theorem zero_temperature_panics (E : Env) (config : Config)
    (args : list string) (st : St) :
  Env_ok E ->
  (forall ip n, exists s,
     readable (http_get E ip n) = Some s /\ Temperature s = 0) ->
  Lights config <> ∅ ->
  (cliStatus E config st).1 = Panic /\
  (forall action, action ∈ ["+"; "-"; "="] -> args !! 2%nat = Some action ->
     (cliTemperature E config args st).1 = Panic).
Proof.
  intros HE Hzero Hne. split.
  - unfold cliStatus.
    rewrite decide_False by (by rewrite map_size_empty_iff).
    run. rewrite Println_run. run. rewrite range_map_run. run.
    destruct (entries_nonempty E (S (tick st)) (Lights config) HE Hne)
      as ([name ip] & l & Hl).
    cbn [tick]. rewrite Hl. cbn [for_range]. run.
    match goal with
    | |- context [getLightState E ip ?s] =>
        destruct (read_zero E ip s Hzero) as (ls & s1 & -> & Hls)
    end.
    run. rewrite Hls. reflexivity.
  - intros action Hin Hact.
    assert (~ length args < 3)%nat as Hlen
      by (apply lookup_lt_Some in Hact; lia).
    destruct (entries_nonempty E (tick st) (Lights config) HE Hne)
      as ([name ip] & l & Hl).
    unfold cliTemperature. rewrite (decide_False (P := (length args < 3)%nat)) by done.
    unfold at_index. rewrite Hact. run.
    rewrite !elem_of_cons in Hin.
    destruct Hin as [-> | [-> | [-> | Hnil]]]; [| | |by apply elem_of_nil in Hnil];
      decide_all; run; rewrite range_map_run; run; rewrite Hl;
      cbn [for_range]; run;
      match goal with
      | |- context [getLightState E ip ?s] =>
          destruct (read_zero E ip s Hzero) as (ls & s1 & -> & Hls)
      end;
      run; rewrite Hls; reflexivity.
Qed.


(** ** Relative steps, device by device *)

Lemma prints_of_app (t1 t2 : list Event) :
  prints_of (t1 ++ t2) = prints_of t1 ++ prints_of t2.
Proof. apply omap_app. Qed.

Lemma step_loop (E : Env) (step : Z -> Z) (entries : list (string * string))
    (st : St) :
  exists st' t,
    for_range (fun (_ : unit) '(name, ip) =>
        r ← getLightState E ip;
        match r with
        | Err _ =>
            Println ("✗ Failed to get state for " +:+ name);;
            mret (Continue, tt)
        | Ok state =>
            err ← setLight E ip None (Some (step (Brightness state))) None;
            match err with
            | Some _ => Println ("✗ Failed to adjust " +:+ name)
            | None => Println ("✓ " +:+ name +:+ " brightness: "
                               +:+ pretty (step (Brightness state)) +:+ "%")
            end;;
            mret (Continue, tt)
        end) entries tt st = (Ret tt, st') /\
    trace st' = trace st ++ t /\ disk st' = disk st /\
    (gets_of t).*1 = entries.*2 /\
    puts_of t = omap (step_write step) (gets_of t) /\
    length (prints_of t) = length entries.
Proof.
  revert st. induction entries as [|[name ip] l IH]; intros st.
  - exists st, []. by rewrite app_nil_r.
  - cbn [for_range]. run. rewrite getLightState_run. run.
    set (r := http_get E ip (tick st)).
    destruct (read_result r) as [state|e] eqn:Hread.
    + run. rewrite setLight_run. run.
      set (p := {| p_on := None; p_brightness := Some (step (Brightness state));
                   p_temperature := None |}).
      set (w := http_put E ip p _).
      destruct (put_error w) as [err|]; run; cbv beta iota; rewrite Println_run; run;
        match goal with
        | |- context [for_range _ l tt ?s] =>
            destruct (IH s) as (st' & t & -> & Ht & Hd & Hg & Hp & Hn)
        end;
        eexists st', ([EvGet ip r; EvPut ip p w; EvPrint _] ++ t);
        (split; [reflexivity|]); cbn [trace disk] in Ht, Hd;
        rewrite Ht, Hd, <- !app_assoc;
        (split; [reflexivity|]); (split; [reflexivity|]);
        rewrite gets_of_app, puts_of_app, prints_of_app, omap_app, fmap_app,
          length_app, Hg, Hp, Hn;
        (split; [reflexivity|]); (split; [|reflexivity]);
        f_equal; cbn; unfold step_write, readable; cbn; by rewrite Hread.
    + run. rewrite Println_run. run.
      match goal with
      | |- context [for_range _ l tt ?s] =>
          destruct (IH s) as (st' & t & -> & Ht & Hd & Hg & Hp & Hn)
      end.
      eexists st', ([EvGet ip r; EvPrint _] ++ t).
      split; [reflexivity|]. cbn [trace disk] in Ht, Hd.
      rewrite Ht, Hd, <- !app_assoc.
      split; [reflexivity|]. split; [reflexivity|].
      rewrite gets_of_app, puts_of_app, prints_of_app, omap_app, fmap_app,
        length_app, Hg, Hp, Hn.
      split; [reflexivity|]. split; [|reflexivity].
      cbn. unfold step_write, readable. cbn. by rewrite Hread.
Qed.

(** X19: [bright +] and [bright -] treat every device on its own.  Each
    registered address is read once; a device that answers is sent its
    own brightness moved by 5 and clamped at the bound it moves toward; a
    device that does not answer is skipped and the others are still
    served.  Every device gets one line of output, nothing is saved and
    the settings are returned as they were. *)
Theorem bright_step_per_device (E : Env) (config : Config)
    (args : list string) (action : string) (step : Z -> Z) (st : St) :
  Env_ok E ->
  (action, step) ∈ [("+", newBright_plus); ("-", newBright_minus)] ->
  args !! 2%nat = Some action ->
  exists st' t,
    cliBrightness E config args st = (Ret config, st') /\
    trace st' = trace st ++ t /\ disk st' = disk st /\
    (gets_of t).*1 ≡ₚ (map_to_list (Lights config)).*2 /\
    puts_of t = omap (step_write step) (gets_of t) /\
    length (prints_of t) = size (Lights config).
Proof.
  intros HE Hstep Hact.
  assert (~ length args < 3)%nat as Hlen
    by (apply lookup_lt_Some in Hact; lia).
  unfold cliBrightness. rewrite (decide_False (P := (length args < 3)%nat)) by done.
  unfold at_index. rewrite Hact. run.
  set (entries := range_order E (tick st) (map_to_list (Lights config))).
  set (s1 := {| tick := S (tick st); disk := disk st; trace := trace st |}).
  destruct (step_loop E step entries s1) as (st' & t & Hrun & Ht & Hd & Hg & Hp & Hn).
  exists st', t.
  assert ((gets_of t).*1 ≡ₚ (map_to_list (Lights config)).*2) as Hperm
    by (rewrite Hg; unfold entries; by rewrite (HE _ _)).
  assert (length (prints_of t) = size (Lights config)) as Hsize.
  { rewrite Hn. unfold entries.
    by rewrite (Permutation_length (HE _ _)), length_map_to_list. }
  rewrite !elem_of_cons in Hstep.
  destruct Hstep as [[= -> ->] | [[= -> ->] | Hnil]]; [| |by apply elem_of_nil in Hnil].
  - rewrite (decide_True (P := "+" = "+")) by done.
    run. rewrite range_map_run. run.
    fold entries s1.
    change (for_range _ entries tt s1) with
      (for_range (fun (_ : unit) '(name, ip) =>
        r ← getLightState E ip;
        match r with
        | Err _ =>
            Println ("✗ Failed to get state for " +:+ name);;
            mret (Continue, tt)
        | Ok state =>
            err ← setLight E ip None (Some (newBright_plus (Brightness state))) None;
            match err with
            | Some _ => Println ("✗ Failed to adjust " +:+ name)
            | None => Println ("✓ " +:+ name +:+ " brightness: "
                               +:+ pretty (newBright_plus (Brightness state)) +:+ "%")
            end;;
            mret (Continue, tt)
        end) entries tt s1).
    rewrite Hrun. done.
  - rewrite (decide_False (P := "-" = "+")) by done.
    rewrite (decide_True (P := "-" = "-")) by done.
    run. rewrite range_map_run. run.
    fold entries s1.
    change (for_range _ entries tt s1) with
      (for_range (fun (_ : unit) '(name, ip) =>
        r ← getLightState E ip;
        match r with
        | Err _ =>
            Println ("✗ Failed to get state for " +:+ name);;
            mret (Continue, tt)
        | Ok state =>
            err ← setLight E ip None (Some (newBright_minus (Brightness state))) None;
            match err with
            | Some _ => Println ("✗ Failed to adjust " +:+ name)
            | None => Println ("✓ " +:+ name +:+ " brightness: "
                               +:+ pretty (newBright_minus (Brightness state)) +:+ "%")
            end;;
            mret (Continue, tt)
        end) entries tt s1).
    rewrite Hrun. done.
Qed.


(** ** The numbers of the listing *)

Lemma list_loop (entries : list (string * string)) (i : Z) (st : St) :
  exists st',
    for_range (fun (i : Z) '(name, ip) =>
        Println ("  " +:+ pretty i +:+ ". " +:+ name +:+ " (" +:+ ip +:+ ")");;
        mret (Continue, i + 1)) entries i st
      = (Ret (i + Z.of_nat (length entries)), st') /\
    disk st' = disk st /\
    trace st' = trace st ++
      (EvPrint <$> imap (fun k x => list_line (i + Z.of_nat k) x) entries).
Proof.
  revert i st. induction entries as [|[name ip] l IH]; intros i st.
  - exists st. cbn. by rewrite Z.add_0_r, app_nil_r.
  - cbn [for_range]. run. rewrite Println_run. run.
    match goal with
    | |- context [for_range _ l (i + 1) ?s] =>
        destruct (IH (i + 1) s) as (st' & -> & Hd & Ht)
    end.
    exists st'. split; [f_equal; f_equal; cbn [length]; lia|]. split; [done|].
    rewrite Ht. cbn [trace imap fmap list_fmap]. rewrite <- app_assoc. cbn [app].
    rewrite Z.add_0_r. do 3 f_equal.
    apply imap_ext. intros k x _. cbn. f_equal. lia.
Qed.

(** X20: [list] numbers the registry from 1 in the order of its visit, one
    line per light after the heading, and requests nothing.  The number
    it prints beside a light is the number that addresses this light on
    the command line in every run that visits the map in the same order,
    and a number above the last one printed addresses nothing. *)
Theorem cliList_numbers_resolve (E : Env) (config : Config) (st : St) :
  Env_ok E -> Lights config <> ∅ ->
  exists st' lines,
    cliList E config st = (Ret tt, st') /\ disk st' = disk st /\
    trace st' = trace st ++ EvPrint "Configured lights:" :: (EvPrint <$> lines) /\
    length lines = size (Lights config) /\
    forall (k : nat) (id : string) (st2 : St),
      sscanf_d E id = Some (Z.of_nat (S k)) ->
      range_order E (tick st2) (map_to_list (Lights config))
        = range_order E (S (tick st)) (map_to_list (Lights config)) ->
      match lines !! k with
      | Some line =>
          exists name ip,
            line = list_line (Z.of_nat (S k)) (name, ip) /\
            (findLight E config id st2).1 = Ret (ip, name)
      | None => (findLight E config id st2).1 = Ret ("", "")
      end.
Proof.
  intros HE Hne. unfold cliList.
  rewrite decide_False by (by rewrite map_size_empty_iff).
  run. rewrite Println_run. run. rewrite range_map_run. run. cbn [tick].
  set (entries := range_order E (S (tick st)) (map_to_list (Lights config))).
  match goal with
  | |- context [for_range _ entries 1 ?s] =>
      destruct (list_loop entries 1 s) as (st' & -> & Hd & Ht)
  end.
  run. exists st', (imap (fun k x => list_line (1 + Z.of_nat k) x) entries).
  split; [done|]. split; [done|].
  split; [by rewrite Ht; cbn [trace]; rewrite <- app_assoc|].
  split.
  { rewrite length_imap. unfold entries.
    by rewrite (Permutation_length (HE _ _)), length_map_to_list. }
  intros k id st2 Hscan Horder.
  destruct (findLight_by_index_run E config id _ st2 Hscan ltac:(lia))
    as (st3 & -> & _).
  rewrite Horder. fold entries.
  replace (Z.to_nat (Z.of_nat (S k) - 1)) with k by lia.
  rewrite list_lookup_imap.
  destruct (entries !! k) as [[name ip]|]; cbn; [|done].
  exists name, ip. split; [|done]. f_equal. lia.
Qed.

(** ** A value that outlives the process *)

Lemma session_after_save (E : Env) (c : Config) (st : St) :
  disk st = Parsed c ->
  exists m st',
    initialModel E st = (Ret m, st') /\
    lights m = Lights c /\
    brightnessValue m
      = (if decide (LastBrightness c = 0) then 50 else LastBrightness c) /\
    temperatureValue m
      = (if decide (LastTemperature c = 0) then 4000 else LastTemperature c).
Proof.
  intros Hdisk. unfold initialModel. run. unfold loadConfig at 1. rewrite Hdisk.
  run. rewrite range_map_run. run. rewrite collect_names. run.
  eexists _, _. split; [reflexivity|]. cbn.
  repeat case_decide; cbn in *; repeat split; try done; lia.
Qed.

Lemma value_then_session (E : Env) (config : Config)
    (args : list string) (action : string) (v : Z) (st : St) :
  (forall n, write_file_ok E n = true) ->
  args !! 2%nat = Some action -> action ∉ ["+"; "-"; "="] ->
  sscanf_d E action = Some v ->
  (3 <= v <= 100 ->
   exists cfg st1 m st2,
     cliBrightness E config args st = (Ret cfg, st1) /\
     initialModel E st1 = (Ret m, st2) /\
     brightnessValue m = v /\ lights m = Lights config) /\
  (2900 <= v <= 7000 ->
   exists cfg st1 m st2,
     cliTemperature E config args st = (Ret cfg, st1) /\
     initialModel E st1 = (Ret m, st2) /\
     temperatureValue m = v /\ lights m = Lights config).
Proof.
  intros Hw Hact Hsign Hscan.
  assert (~ length args < 3)%nat as Hlen
    by (apply lookup_lt_Some in Hact; lia).
  rewrite !not_elem_of_cons in Hsign. destruct Hsign as (Hp & Hm & He & _).
  split; intros Hv.
  - unfold cliBrightness. rewrite (decide_False (P := (length args < 3)%nat)) by done.
    unfold at_index. rewrite Hact. run.
    rewrite !decide_False by done. rewrite Hscan.
    rewrite decide_False by lia. run. rewrite range_map_run. run.
    match goal with
    | |- context [for_range ?body ?l tt ?s] =>
        assert (yields (fun _ => True) (for_range body l tt)) as Hy
          by (repeat yields_step);
        destruct (Hy s) as ([] & s1 & Hrun & _); rewrite Hrun
    end.
    run. unfold saveConfig at 1. rewrite Hw. run.
    match goal with
    | |- context [Parsed ?c] =>
        destruct (session_after_save E c
                    {| tick := S (tick s1); disk := Parsed c;
                       trace := trace s1 ++ [EvSave c true] |} eq_refl)
          as (m & st2 & Hinit & Hl & Hb & _)
    end.
    eexists _, _, m, st2. split; [reflexivity|]. split; [done|].
    cbn in Hb, Hl. rewrite decide_False in Hb by lia. done.
  - unfold cliTemperature. rewrite (decide_False (P := (length args < 3)%nat)) by done.
    unfold at_index. rewrite Hact. run.
    rewrite !decide_False by done. rewrite Hscan.
    rewrite decide_False by lia. run. rewrite range_map_run. run.
    pose proof (elgatoTemp_in_range v Hv) as Hwire.
    match goal with
    | |- context [for_range ?body ?l tt ?s] =>
        assert (yields (fun _ => True) (for_range body l tt)) as Hy
          by (repeat (first [apply (yields_setLight_temp _ _ _ _ _ _ Hwire)
                            | yields_step]));
        destruct (Hy s) as ([] & s1 & Hrun & _); rewrite Hrun
    end.
    run. unfold saveConfig at 1. rewrite Hw. run.
    match goal with
    | |- context [Parsed ?c] =>
        destruct (session_after_save E c
                    {| tick := S (tick s1); disk := Parsed c;
                       trace := trace s1 ++ [EvSave c true] |} eq_refl)
          as (m & st2 & Hinit & Hl & _ & Ht)
    end.
    eexists _, _, m, st2. split; [reflexivity|]. split; [done|].
    cbn in Ht, Hl. rewrite decide_False in Ht by lia. done.
Qed.

(** X21: A value given on the command line is the value the next session
    starts from, when the settings file can be written: after
    [bright b] with [b] in range, a session started next has [b]
    pending, and after [temp k] with [k] in range it has [k] pending,
    whatever the devices answered; the registry is untouched. *)
Theorem value_survives_restart (E : Env) (config : Config)
    (sb sk : string) (b k : Z) (st : St) :
  (forall n, write_file_ok E n = true) ->
  sb ∉ ["+"; "-"; "="] -> sscanf_d E sb = Some b -> 3 <= b <= 100 ->
  sk ∉ ["+"; "-"; "="] -> sscanf_d E sk = Some k -> 2900 <= k <= 7000 ->
  (exists cfg st1 m st2,
     cliBrightness E config ["keylight"; "bright"; sb] st = (Ret cfg, st1) /\
     initialModel E st1 = (Ret m, st2) /\
     brightnessValue m = b /\ lights m = Lights config) /\
  (exists cfg st1 m st2,
     cliTemperature E config ["keylight"; "temp"; sk] st = (Ret cfg, st1) /\
     initialModel E st1 = (Ret m, st2) /\
     temperatureValue m = k /\ lights m = Lights config).
Proof.
  intros Hw Hsb Hscanb Hb Hsk Hscank Hk. split.
  - by apply (value_then_session E config ["keylight"; "bright"; sb] sb b st
                Hw eq_refl Hsb Hscanb).
  - by apply (value_then_session E config ["keylight"; "temp"; sk] sk k st
                Hw eq_refl Hsk Hscank).
Qed.


(** ** The properties at work *)

Lemma zero_env_ok : Env_ok zero_env.
Proof. intros n l. reflexivity. Qed.

Lemma two_lights_nonempty : two_lights <> ∅.
Proof. unfold two_lights. apply insert_non_empty. Qed.

Lemma turn_on_off_writes_all_witness :
  exists st',
    activateControl calm_env (demo_model focusTurnOff 50 4000) st0
      = (Ret (set_message (demo_model focusTurnOff 50 4000) "✓ Lights turned off",
              None), st') /\
    disk st' = disk st0.
Proof.
  destruct (turn_on_off_writes_all calm_env (demo_model focusTurnOff 50 4000) st0
              focusTurnOff 0 "✓ Lights turned off")
    as (ips & st1 & st' & t & _ & Hrun & _ & Hd & _);
    [apply list_elem_of_here | reflexivity |].
  exists st'. split; [exact Hrun | exact Hd].
Defined.

Lemma toggle_reaches_all_selected_witness :
  exists msg st',
    activateControl calm_env (demo_model focusToggle 50 4000) st0
      = (Ret (set_message (demo_model focusToggle 50 4000) msg, None), st').
Proof.
  destruct (toggle_reaches_all_selected calm_env (demo_model focusToggle 50 4000) st0)
    as (ips & st1 & msg & st' & t & _ & Hrun & _); [reflexivity|].
  exists msg, st'. exact Hrun.
Defined.

Lemma activateControl_temperature_persists_witness :
  exists m' st',
    activateControl calm_env (demo_model focusTemperature 50 4000) st0
      = (Ret (m', None), st').
Proof.
  destruct (activateControl_temperature_persists calm_env
              (demo_model focusTemperature 50 4000) 250 st0)
    as (ips & st1 & m' & st' & t & _ & Hrun & _); [reflexivity | reflexivity |].
  exists m', st'. exact Hrun.
Defined.

Lemma activateControl_brightness_persists_witness :
  exists m' st',
    activateControl calm_env (demo_model focusBrightness 50 4000) st0
      = (Ret (m', None), st').
Proof.
  destruct (activateControl_brightness_persists calm_env
              (demo_model focusBrightness 50 4000) st0)
    as (ips & st1 & m' & st' & t & _ & Hrun & _); [reflexivity|].
  exists m', st'. exact Hrun.
Defined.

Lemma findLight_resolves_witness :
  exists st',
    findLight calm_env (demo_config two_lights 50 4000) "Left" st0
      = (Ret ("10.0.0.1", "Left"), st').
Proof.
  destruct (findLight_resolves calm_env (demo_config two_lights 50 4000) "Left" st0
              calm_env_ok) as (st' & Hrun & _).
  exists st'. rewrite Hrun. reflexivity.
Defined.

Lemma cliSpecificLight_not_found_witness :
  exists st',
    cliSpecificLight calm_env (demo_config two_lights 50 4000) "Desk"
      ["keylight"; "Desk"] st0 = (Exit 1, st').
Proof.
  destruct (cliSpecificLight_not_found calm_env (demo_config two_lights 50 4000)
              "Desk" ["keylight"; "Desk"] st0 calm_env_ok)
    as (st' & Hrun & _); [vm_compute; reflexivity|].
  exists st'. exact Hrun.
Defined.

Lemma Update_total_in_range_witness :
  exists m' st',
    Update calm_env (demo_model focusBrightness 50 4000) (KeyMsg "enter") st0
      = (Ret (m', None), st') /\
    in_range_model m'.
Proof.
  destruct (Update_total_in_range calm_env (demo_model focusBrightness 50 4000)
              (KeyMsg "enter") st0)
    as (m' & cmd & st' & Hrun & Hm & _ & _ & _ & Hquit & _);
    [unfold in_range_model; simpl; lia|].
  exists m', st'. split; [|exact Hm].
  destruct cmd as [[]|]; [|exact Hrun].
  destruct (proj1 Hquit eq_refl) as [Hk | Hk]; discriminate Hk.
Defined.

Lemma Update_pure_unless_activated_witness :
  exists m' cmd,
    Update calm_env (demo_model focusBrightness 50 4000) (KeyMsg "left") st0
      = (Ret (m', cmd), st0).
Proof.
  destruct (Update_pure_unless_activated calm_env
              (demo_model focusBrightness 50 4000) (KeyMsg "left") st0)
    as (m' & cmd & Hrun & _).
  { rewrite !not_elem_of_cons.
    repeat split; [discriminate..|apply not_elem_of_nil]. }
  exists m', cmd. exact Hrun.
Defined.

Lemma adjust_back_and_forth_witness :
  exists m1 m2,
    Update calm_env (demo_model focusBrightness 98 4000) (KeyMsg "right") st0
      = (Ret (m1, None), st0) /\
    Update calm_env m1 (KeyMsg "left") st0 = (Ret (m2, None), st0) /\
    m2 = set_brightnessValue (demo_model focusBrightness 98 4000) 95.
Proof.
  destruct (adjust_back_and_forth calm_env (demo_model focusBrightness 98 4000) st0)
    as (m1 & m2 & m3 & m4 & H1 & H2 & _ & _ & H5 & _);
    [unfold in_range_model; simpl; lia | left; reflexivity |].
  exists m1, m2. split; [exact H1|]. split; [exact H2 | exact H5].
Defined.

Lemma selected_light_is_registered_witness :
  exists m st1 m',
    initialModel calm_env (st_with (Parsed (demo_config two_lights 50 4000)))
      = (Ret m, st1) /\
    Update calm_env m (KeyMsg "1") st1 = (Ret (m', None), st1) /\
    exists name ip,
      Lights (config m) !! name = Some ip /\
      getSelectedLightIPs reversed_env m' st0 = (Ret [ip], st0).
Proof.
  destruct (selected_light_is_registered calm_env
              (st_with (Parsed (demo_config two_lights 50 4000)))
              0%nat "1" light1 calm_env_ok)
    as (m & st1 & Hrun & Hnd & Hsel); [apply list_elem_of_here|].
  destruct Hsel as (name & ip & m' & _ & Hip & Hkey & _ & _ & Hres).
  { pose proof Hrun as Hc. vm_compute in Hc. injection Hc as <- _.
    vm_compute. lia. }
  exists m, st1, m'. split; [exact Hrun|]. split; [exact Hkey|].
  exists name, ip. split; [exact Hip | apply Hres].
Defined.

Lemma zero_temperature_panics_witness :
  (cliStatus zero_env (demo_config two_lights 50 4000) st0).1 = Panic /\
  (cliTemperature zero_env (demo_config two_lights 50 4000)
     ["keylight"; "temp"; "+"] st0).1 = Panic.
Proof.
  destruct (zero_temperature_panics zero_env (demo_config two_lights 50 4000)
              ["keylight"; "temp"; "+"] st0 zero_env_ok)
    as (Hstatus & Htemp).
  - intros ip n. eexists. split; reflexivity.
  - exact two_lights_nonempty.
  - split; [exact Hstatus|].
    apply (Htemp "+"); [apply list_elem_of_here | reflexivity].
Defined.

Lemma bright_step_per_device_witness :
  exists st' t,
    cliBrightness calm_env (demo_config two_lights 50 4000)
      ["keylight"; "bright"; "+"] st0
      = (Ret (demo_config two_lights 50 4000), st') /\
    puts_of t = omap (step_write newBright_plus) (gets_of t) /\
    length (prints_of t) = 2%nat.
Proof.
  destruct (bright_step_per_device calm_env (demo_config two_lights 50 4000)
              ["keylight"; "bright"; "+"] "+" newBright_plus st0 calm_env_ok)
    as (st' & t & Hrun & _ & _ & _ & Hp & Hn);
    [apply list_elem_of_here | reflexivity |].
  exists st', t. split; [exact Hrun|]. split; [exact Hp | exact Hn].
Defined.

Lemma cliList_numbers_resolve_witness :
  exists st' lines,
    cliList calm_env (demo_config two_lights 50 4000) st0 = (Ret tt, st') /\
    length lines = 2%nat /\
    trace st' = trace st0 ++ EvPrint "Configured lights:" :: (EvPrint <$> lines).
Proof.
  destruct (cliList_numbers_resolve calm_env (demo_config two_lights 50 4000) st0
              calm_env_ok two_lights_nonempty)
    as (st' & lines & Hrun & _ & Ht & Hn & _).
  exists st', lines. split; [exact Hrun|]. split; [exact Hn | exact Ht].
Defined.

Lemma value_survives_restart_witness :
  exists cfg st1 m st2,
    cliBrightness calm_env (demo_config two_lights 50 4000)
      ["keylight"; "bright"; "70"] st0 = (Ret cfg, st1) /\
    initialModel calm_env st1 = (Ret m, st2) /\
    brightnessValue m = 70.
Proof.
  destruct (value_survives_restart calm_env (demo_config two_lights 50 4000)
              "70" "5000" 70 5000 st0)
    as ((cfg & st1 & m & st2 & Hrun & Hinit & Hb & _) & _).
  - intros n. reflexivity.
  - rewrite !not_elem_of_cons. repeat split; [discriminate..|apply not_elem_of_nil].
  - reflexivity.
  - lia.
  - rewrite !not_elem_of_cons. repeat split; [discriminate..|apply not_elem_of_nil].
  - reflexivity.
  - lia.
  - exists cfg, st1, m, st2. split; [exact Hrun|]. split; [exact Hinit | exact Hb].
Defined.

(** ** One light at a time *)

Lemma emits_toggleLightFast_to (E : Env) (ip : string) :
  emits (addressed_to ip) (toggleLightFast E ip).
Proof.
  unfold toggleLightFast. generalize 1 (@None error). generalize 3%nat.
  induction n as [|n IH]; intros attempt lastErr; cbn [toggleLightFast_loop].
  - emits_all.
  - apply emits_bind; [unfold toggleLightAttempt; emits_all|].
    intros [e|]; [|emits_all].
    apply emits_bind; [|intros ?; apply IH].
    case_decide; [by apply emits_event | apply emits_ret].
Qed.

(** X22: A command addressed to one light contacts no other device: every
    request it sends, read or write, goes to the address its identifier
    resolved to, for every sub-command and whatever the answers, also
    when it exits or panics; it saves nothing and starts no background
    task. *)
Theorem cliSpecificLight_contacts_only_target (E : Env) (config : Config)
    (lightIdentifier : string) (args : list string) (st : St) :
  exists targetIP targetName st1 t,
    findLight E config lightIdentifier st = (Ret (targetIP, targetName), st1) /\
    trace st1 = trace st /\
    trace (cliSpecificLight E config lightIdentifier args st).2 = trace st ++ t /\
    Forall (addressed_to targetIP) t.
Proof.
  destruct (emits_yields (fun _ => False) (fun _ => True)
              (findLight E config lightIdentifier) st)
    as ([targetIP targetName] & st1 & t0 & Hfind & _ & Ht0 & Hnone).
  { apply emits_findLight. }
  { unfold findLight.
    repeat (first [yields_step | case_decide]). }
  destruct t0 as [|e t0]; [|by apply Forall_cons in Hnone as [[] _]].
  rewrite app_nil_r in Ht0.
  exists targetIP, targetName, st1. unfold cliSpecificLight.
  rewrite run_bind, Hfind.
  match goal with
  | |- context [trace (?c st1).2] =>
      assert (emits (addressed_to targetIP) c) as Hc
  end.
  { case_decide; [emits_all|]. case_decide.
    - apply emits_bind; [apply emits_toggleLightFast_to|]. intros err. emits_all.
    - repeat first [ apply emits_getLightState; intros ?; done
                   | apply emits_setLight; intros ? ?; done
                   | emits_step ]. }
  destruct (Hc st1) as (_ & t & Ht & HP).
  exists t. rewrite Ht, Ht0. done.
Qed.

(** ** Switching every light in parallel *)

Lemma put_events_app (t1 t2 : list Event) :
  put_events (t1 ++ t2) = put_events t1 ++ put_events t2.
Proof. apply omap_app. Qed.

Lemma par_inv_init on report entries st0 :
  par_inv on report entries st0 (par_init entries (length entries) st0).
Proof.
  exists [], [], []. cbn. rewrite !app_nil_r. repeat split; try done; lia.
Qed.

Lemma perm_mid3 {A} (x : A) (l1 l2 l3 : list A) :
  l1 ++ l2 ++ x :: l3 ≡ₚ x :: l1 ++ l2 ++ l3.
Proof. rewrite !app_assoc. symmetry. apply Permutation_middle. Qed.

Lemma par_inv_step E on report cap entries st0 p q :
  par_step E on report cap p q ->
  par_inv on report entries st0 p -> par_inv on report entries st0 q.
Proof.
  intros Hstep (called & printed & t & Ht & Hd & Hall & Hres & Hput & Hpr & Hg & Hs & Hn).
  destruct Hstep as [p name ip rest Hu | p l1 name ip l2 err st' Hst Hcall
                    | p h1 r h2 Hh Hcap | p name err rest k st' Hu Hk Hr Hprint].
  - exists called, printed, t. cbn. repeat split; try done.
    rewrite <- Hall, Hu. cbn. rewrite <- app_assoc. cbn. apply perm_mid3.
  - rewrite setLight_run in Hcall. injection Hcall as <- <-.
    set (reply := http_put E ip _ (tick (world p))).
    exists (called ++ [(name, ip, reply)]), printed, (t ++ [EvPut ip (on_patch on) reply]).
    cbn. rewrite Ht, Hd, <- app_assoc.
    rewrite put_events_app, prints_of_app, gets_of_app, saves_of_app,
      Hput, Hpr, Hg, Hs, !fmap_app. cbn.
    split; [done|]. split; [done|]. split; [|split; [|split; [done|]]].
    + rewrite <- Hall, Hst. f_equiv. rewrite <- !app_assoc. f_equiv. cbn.
      rewrite app_assoc. symmetry. apply Permutation_cons_append.
    + rewrite <- Hres. rewrite <- app_assoc.
      rewrite <- (Permutation_cons_append (holding p ++ results p ++ printed)).
      cbn. symmetry. apply Permutation_middle.
    + rewrite app_nil_r. done.
  - exists called, printed, t. cbn. repeat split; try done.
    rewrite <- Hres, Hh. rewrite <- !app_assoc. f_equiv. cbn. apply perm_mid3.
  - rewrite Println_run in Hprint. injection Hprint as <-.
    exists called, (printed ++ [(name, err)]), (t ++ [EvPrint (report name err)]).
    cbn. rewrite Ht, Hd, <- app_assoc.
    rewrite put_events_app, prints_of_app, gets_of_app, saves_of_app,
      Hput, Hpr, Hg, Hs, !fmap_app, length_app. cbn.
    rewrite Hu in Hall. rewrite Hr in Hres. rewrite Hk in Hn.
    split; [done|]. split; [done|]. split; [done|].
    split; [|split; [by rewrite app_nil_r|split; [done|split; [done|split; [done|lia]]]]].
    rewrite <- Hres. f_equiv. cbn. rewrite app_assoc. symmetry.
    apply Permutation_cons_append.
Qed.

Lemma par_inv_runs E on report cap entries st0 p :
  rtc (par_step E on report cap) (par_init entries (length entries) st0) p ->
  par_inv on report entries st0 p.
Proof.
  revert p. apply rtc_ind_r.
  - apply par_inv_init.
  - intros q r _ Hqr IH. by eapply par_inv_step.
Qed.

(** The count of the results still to come. *)
Lemma par_count E on report cap entries n st0 p :
  rtc (par_step E on report cap) (par_init entries n st0) p ->
  n = length entries ->
  (remaining p = length (unspawned p) + length (started p)
                 + length (holding p) + length (results p))%nat /\
  (remaining p <= n)%nat.
Proof.
  intros Hrun ->. revert p Hrun. apply rtc_ind_r.
  - cbn. lia.
  - intros q r _ Hqr (IH & Hle).
    destruct Hqr as [p name ip rest Hu | p l1 name ip l2 err st' Hst Hcall
                    | p h1 r h2 Hh Hcap | p name err rest k st' Hu Hk Hr Hprint];
      cbn.
    + rewrite Hu in IH. cbn in IH. rewrite length_app. cbn. lia.
    + rewrite Hst in IH. rewrite !length_app in *. cbn in *. lia.
    + rewrite Hh in IH. rewrite !length_app in *. cbn in *. lia.
    + rewrite Hu, Hk, Hr in IH. cbn in IH. lia.
Qed.

Lemma par_measure_step E on report cap p q :
  par_step E on report cap p q -> (par_measure q + 1 = par_measure p)%nat.
Proof.
  unfold par_measure.
  intros [p' name ip rest Hu | p' l1 name ip l2 err st' Hst Hcall
         | p' h1 r h2 Hh Hcap | p' name err rest k st' Hu Hk Hr Hprint]; cbn.
  - rewrite Hu, length_app. cbn. lia.
  - rewrite Hst, !length_app. cbn. lia.
  - rewrite Hh, !length_app. cbn. lia.
  - rewrite Hu, Hr. cbn. lia.
Qed.

Lemma par_measure_nsteps E on report cap k p q :
  nsteps (par_step E on report cap) k p q ->
  (par_measure q + k = par_measure p)%nat.
Proof.
  induction 1 as [|k p q r Hpq _ IH]; [lia|].
  apply par_measure_step in Hpq. lia.
Qed.

Lemma par_runs_entries E on report config st p :
  Env_ok E -> par_runs E on report config st p ->
  exists entries st1,
    entries ≡ₚ map_to_list (Lights config) /\
    length entries = size (Lights config) /\
    trace st1 = trace st /\ disk st1 = disk st /\
    rtc (par_step E on report (length entries))
        (par_init entries (length entries) st1) p.
Proof.
  intros HE (entries & st1 & Hmap & Hrun).
  rewrite range_map_run in Hmap. injection Hmap as <- <-.
  exists (range_order E (tick st) (map_to_list (Lights config))),
         {| tick := S (tick st); disk := disk st; trace := trace st |}.
  split; [apply HE|].
  assert (length (range_order E (tick st) (map_to_list (Lights config)))
          = size (Lights config)) as Hlen
    by (by rewrite (Permutation_length (HE _ _)), length_map_to_list).
  rewrite Hlen. cbn. repeat split; done.
Qed.

(** X23: [on] and [off] reach every registered light exactly once, whatever
    the schedule.  In every run that returns, each registered address
    was sent one write with only the [on] field set, nothing was read or
    saved, and one line per light was printed: the failure line for a
    light whose write was not answered with status 200 and the success
    line for each other one. *)
Theorem parallel_switch_reaches_all (E : Env) (config : Config) (st st' : St)
    (on : Z) (report : string -> option error -> string) :
  Env_ok E ->
  (on = 1 /\ report = turnOn_report /\ cliTurnOn E config st st') \/
  (on = 0 /\ report = turnOff_report /\ cliTurnOff E config st st') ->
  exists (called : list (string * string * PutReply)) (t : list Event),
    trace st' = trace st ++ t /\ disk st' = disk st /\
    called.*1 ≡ₚ map_to_list (Lights config) /\
    put_events t = (fun d => (d.1.2, on_patch on, d.2)) <$> called /\
    prints_of t ≡ₚ (fun d => report d.1.1 (put_error d.2)) <$> called /\
    gets_of t = [] /\ saves_of t = [].
Proof.
  intros HE Hrun.
  assert (exists p, par_runs E on report config st p /\ par_done p /\ world p = st')
    as (p & Hruns & (Hu & Hrem) & <-).
  { destruct Hrun as [(-> & -> & Hr) | (-> & -> & Hr)]; exact Hr. }
  destruct (par_runs_entries E on report config st p HE Hruns)
    as (entries & st1 & Hperm & Hlen & Ht1 & Hd1 & Hrtc).
  pose proof (par_count _ _ _ _ _ _ _ _ Hrtc eq_refl) as (Hcount & _).
  destruct (par_inv_runs _ _ _ _ _ _ _ Hrtc)
    as (called & printed & t & Ht & Hd & Hall & Hres & Hput & Hpr & Hg & Hs & Hn).
  rewrite Hrem in Hcount.
  assert (started p = [] /\ holding p = [] /\ results p = []) as (Hst & Hh & Hr).
  { repeat split; apply length_zero_iff_nil; lia. }
  rewrite Hu, Hst in Hall. rewrite Hh, Hr in Hres. cbn in Hall, Hres.
  exists called, t. rewrite Ht, Hd, Ht1, Hd1.
  split; [done|]. split; [done|]. split; [by rewrite Hall|].
  split; [done|]. split; [|done].
  rewrite Hpr, Hres, <- list_fmap_compose. done.
Qed.

Lemma par_progress E on report entries st1 p :
  rtc (par_step E on report (length entries))
      (par_init entries (length entries) st1) p ->
  par_done p \/ exists q, par_step E on report (length entries) p q.
Proof.
  intros Hrtc.
  pose proof (par_count _ _ _ _ _ _ _ _ Hrtc eq_refl) as (Hcount & Hle).
  destruct (unspawned p) as [|[name ip] rest] eqn:Hu.
  2: { right. eexists. by eapply par_go. }
  destruct (remaining p) as [|k] eqn:Hrem; [by left|]. right.
  destruct (results p) as [|[name err] rest] eqn:Hr.
  2: { eexists. eapply par_recv; [done..|]. apply Println_run. }
  destruct (holding p) as [|r h] eqn:Hh.
  2: { eexists. eapply (par_send _ _ _ _ p []); [by rewrite Hh|].
       rewrite Hr. cbn. lia. }
  destruct (started p) as [|[name ip] l] eqn:Hs; [cbn in Hcount; lia|].
  eexists. eapply (par_call _ _ _ _ p []); [by rewrite Hs|]. apply setLight_run.
Qed.

Lemma par_completes E on report entries st1 p :
  rtc (par_step E on report (length entries))
      (par_init entries (length entries) st1) p ->
  exists q, rtc (par_step E on report (length entries)) p q /\ par_done q.
Proof.
  remember (par_measure p) as m eqn:Hm. revert p Hm.
  induction m as [m IH] using lt_wf_ind. intros p Hm Hrtc.
  destruct (par_progress _ _ _ _ _ _ Hrtc) as [Hdone | (q & Hstep)].
  - by exists p.
  - pose proof (par_measure_step _ _ _ _ _ _ Hstep) as Hless.
    destruct (IH (par_measure q) ltac:(lia) q eq_refl) as (r & Hqr & Hr).
    { by eapply rtc_r. }
    exists r. split; [|done]. by eapply rtc_l.
Qed.

(** X24: [on] and [off] cannot hang.  From every state a schedule can reach,
    the command has returned or some step is possible, and some
    schedule leads on to the return; a goroutine that is ready to send
    finds room in the channel; and every run ends after four steps per
    light: a schedule of [k] steps has [k <= 4 * n] for [n] registered
    lights, with equality exactly when the command has returned. *)
Theorem parallel_switch_terminates (E : Env) (config : Config) (st : St)
    (on : Z) (report : string -> option error -> string) (p : Par) :
  Env_ok E ->
  par_runs E on report config st p ->
  (par_done p \/ exists q, par_step E on report (size (Lights config)) p q) /\
  (exists q, rtc (par_step E on report (size (Lights config))) p q /\ par_done q) /\
  (holding p <> [] -> (length (results p) < size (Lights config))%nat) /\
  (forall entries st1 k,
     range_map E (Lights config) st = (Ret entries, st1) ->
     nsteps (par_step E on report (size (Lights config))) k
       (par_init entries (size (Lights config)) st1) p ->
     (k <= 4 * size (Lights config))%nat /\
     (k = (4 * size (Lights config))%nat <-> par_done p)).
Proof.
  intros HE Hruns.
  destruct (par_runs_entries E on report config st p HE Hruns)
    as (entries & st1 & Hperm & Hlen & Ht1 & Hd1 & Hrtc).
  pose proof (par_count _ _ _ _ _ _ _ _ Hrtc eq_refl) as (Hcount & Hle).
  pose proof (par_progress _ _ _ _ _ _ Hrtc) as Hprog.
  pose proof (par_completes _ _ _ _ _ _ Hrtc) as Hcompl.
  rewrite Hlen in *.
  split; [done|]. split; [done|]. split.
  - intros Hh. destruct (holding p); [done|]. cbn in Hcount. lia.
  - intros entries' st1' k Hmap Hk.
    rewrite range_map_run in Hmap. injection Hmap as <- <-.
    apply par_measure_nsteps in Hk. unfold par_measure in Hk. cbn in Hk.
    assert (length (range_order E (tick st) (map_to_list (Lights config)))
            = size (Lights config)) as Hlen'
      by (by rewrite (Permutation_length (HE _ _)), length_map_to_list).
    rewrite Hlen' in Hk. split; [lia|]. unfold par_done. split.
    + intros ->.
      assert (length (unspawned p) = 0 /\ length (started p) = 0 /\
              length (holding p) = 0 /\ length (results p) = 0)%nat
        as (Hu & Hs & Hh & Hr) by lia.
      apply length_zero_iff_nil in Hu. split; [done|]. lia.
    + intros (Hu & Hrem). rewrite Hu in Hcount, Hk. cbn in Hcount, Hk. lia.
Qed.

Lemma cliTurnOn_returns (E : Env) (config : Config) (st : St) :
  Env_ok E -> exists st', cliTurnOn E config st st'.
Proof.
  intros HE.
  assert (par_runs E 1 turnOn_report config st
            (par_init (range_order E (tick st) (map_to_list (Lights config)))
               (size (Lights config))
               {| tick := S (tick st); disk := disk st; trace := trace st |}))
    as Hinit by (eexists _, _; split; [apply range_map_run | apply rtc_refl]).
  destruct (par_runs_entries E _ _ config st _ HE Hinit)
    as (entries & st1 & _ & Hlen & _ & _ & Hrtc).
  destruct (par_completes _ _ _ _ _ _ Hrtc) as (q & Hq & Hdone).
  exists (world q), q. split; [|done].
  destruct Hinit as (entries' & st1' & Hmap & Hrun).
  exists entries', st1'. split; [done|].
  rewrite Hlen in Hq. etrans; [exact Hrun | exact Hq].
Qed.

Lemma parallel_switch_reaches_all_witness :
  exists st' t,
    cliTurnOn calm_env (demo_config two_lights 50 4000) st0 st' /\
    trace st' = trace st0 ++ t /\ gets_of t = [] /\ saves_of t = [] /\
    length (prints_of t) = 2%nat.
Proof.
  destruct (cliTurnOn_returns calm_env (demo_config two_lights 50 4000) st0
              calm_env_ok) as (st' & Hrun).
  destruct (parallel_switch_reaches_all calm_env (demo_config two_lights 50 4000)
              st0 st' 1 turnOn_report calm_env_ok)
    as (called & t & Ht & _ & Hall & _ & Hpr & Hg & Hs).
  { left. split; [reflexivity|]. split; [reflexivity | exact Hrun]. }
  exists st', t. split; [exact Hrun|].
  split; [exact Ht|]. split; [exact Hg|]. split; [exact Hs|].
  rewrite (Permutation_length Hpr), length_fmap.
  rewrite <- (length_fmap fst called), (Permutation_length Hall).
  reflexivity.
Defined.

Lemma parallel_switch_terminates_witness :
  exists q,
    rtc (par_step calm_env 0 turnOff_report 2)
        (par_init (map_to_list two_lights) 2
           {| tick := 1; disk := Unreadable; trace := [] |}) q /\
    par_done q.
Proof.
  destruct (parallel_switch_terminates calm_env (demo_config two_lights 50 4000)
              st0 0 turnOff_report
              (par_init (map_to_list two_lights) 2
                 {| tick := 1; disk := Unreadable; trace := [] |}) calm_env_ok)
    as (_ & Hq & _).
  { eexists _, _. split; [apply range_map_run | apply rtc_refl]. }
  exact Hq.
Defined.

(** ** Relative temperature steps, device by device *)

Lemma temp_step_loop (E : Env) (step : Z -> Z) (entries : list (string * string))
    (st : St) :
  (forall ip n s, readable (http_get E ip n) = Some s ->
     exists k w, currentTemp (Temperature s) = Some k /\
                 elgatoTemp (step k) = Some w) ->
  exists st' t,
    for_range (fun (_ : unit) '(name, ip) =>
        r ← getLightState E ip;
        match r with
        | Err _ =>
            Println ("✗ Failed to get state for " +:+ name);;
            mret (Continue, tt)
        | Ok state =>
            current ← eval (currentTemp (Temperature state));
            err ← setLight E ip None None (Some (step current));
            match err with
            | Some _ => Println ("✗ Failed to adjust " +:+ name)
            | None => Println ("✓ " +:+ name +:+ " temperature: "
                               +:+ pretty (step current) +:+ "K")
            end;;
            mret (Continue, tt)
        end) entries tt st = (Ret tt, st') /\
    trace st' = trace st ++ t /\ disk st' = disk st /\
    (gets_of t).*1 = entries.*2 /\
    puts_of t = omap (temp_step_write step) (gets_of t) /\
    length (prints_of t) = length entries.
Proof.
  intros Hdef. revert st. induction entries as [|[name ip] l IH]; intros st.
  - exists st, []. by rewrite app_nil_r.
  - cbn [for_range]. run. rewrite getLightState_run. run.
    set (r := http_get E ip (tick st)).
    pose proof (Hdef ip (tick st)) as Hr. fold r in Hr. unfold readable in Hr.
    destruct (read_result r) as [state|e] eqn:Hread.
    + destruct (Hr state eq_refl) as (k & w & Hk & Hw).
      run. rewrite Hk. cbn [eval]. run.
      rewrite (setLight_temp_run _ _ _ _ _ _ _ Hw). run.
      set (p := {| p_on := None; p_brightness := None; p_temperature := Some w |}).
      set (reply := http_put E ip p _).
      destruct (put_error reply) as [err|]; run; cbv beta iota; rewrite Println_run; run;
        match goal with
        | |- context [for_range _ l tt ?s] =>
            destruct (IH s) as (st' & t & -> & Ht & Hd & Hg & Hp & Hn)
        end;
        eexists st', ([EvGet ip r; EvPut ip p reply; EvPrint _] ++ t);
        (split; [reflexivity|]); cbn [trace disk] in Ht, Hd;
        rewrite Ht, Hd, <- !app_assoc;
        (split; [reflexivity|]); (split; [reflexivity|]);
        rewrite gets_of_app, puts_of_app, prints_of_app, omap_app, fmap_app,
          length_app, Hg, Hp, Hn;
        (split; [reflexivity|]); (split; [|reflexivity]);
        f_equal; cbn; unfold temp_step_write, readable; cbn;
        rewrite Hread; cbn; rewrite Hk; cbn; by rewrite Hw.
    + run. rewrite Println_run. run.
      match goal with
      | |- context [for_range _ l tt ?s] =>
          destruct (IH s) as (st' & t & -> & Ht & Hd & Hg & Hp & Hn)
      end.
      eexists st', ([EvGet ip r; EvPrint _] ++ t).
      split; [reflexivity|]. cbn [trace disk] in Ht, Hd.
      rewrite Ht, Hd, <- !app_assoc.
      split; [reflexivity|]. split; [reflexivity|].
      rewrite gets_of_app, puts_of_app, prints_of_app, omap_app, fmap_app,
        length_app, Hg, Hp, Hn.
      split; [reflexivity|]. split; [|reflexivity].
      cbn. unfold temp_step_write, readable. cbn. by rewrite Hread.
Qed.

Lemma newTemp_defined (E : Env) (step : Z -> Z) :
  step = newTemp_plus \/ step = newTemp_minus ->
  Env_kelvin_between 0 1000000 E ->
  forall ip n s, readable (http_get E ip n) = Some s ->
    exists k w, currentTemp (Temperature s) = Some k /\
                elgatoTemp (step k) = Some w.
Proof.
  intros Hstep HE ip n s Hs. destruct (HE ip n s Hs) as (k & Hk & Hbnd).
  exists k. unfold elgatoTemp, GoInt.quot.
  assert (step k <> 0) as Hne.
  { destruct Hstep as [-> | ->]; unfold newTemp_plus, newTemp_minus;
      rewrite ?add_small, ?sub_small by (apply small_in_range; lia);
      case_decide; lia. }
  rewrite decide_False by done. eauto.
Qed.

(** The relative steps in the arithmetic of the integers: a step up is
    stopped at the upper bound only, a step down at the lower bound
    only. *)
Lemma steps_one_sided (v : Z) :
  - 2 ^ 62 <= v <= 2 ^ 62 ->
  newBright_plus v = Z.min 100 (v + 5) /\
  newBright_minus v = Z.max 3 (v - 5) /\
  newTemp_plus v = Z.min 7000 (v + 200) /\
  newTemp_minus v = Z.max 2900 (v - 200).
Proof.
  intros Hv. unfold newBright_plus, newBright_minus, newTemp_plus, newTemp_minus.
  rewrite !add_small, !sub_small
    by (unfold GoInt.in_range, GoInt.min_int, GoInt.max_int; lia).
  repeat case_decide; lia.
Qed.

Lemma cliTemperature_step_writes (E : Env) (config : Config)
    (args : list string) (action : string) (step : Z -> Z) (st : St) :
  Env_kelvin_between 0 1000000 E ->
  (action, step) ∈ [("+", newTemp_plus); ("-", newTemp_minus)] ->
  args !! 2%nat = Some action ->
  exists st' t,
    cliTemperature E config args st = (Ret config, st') /\
    trace st' = trace st ++ t /\ disk st' = disk st /\
    (gets_of t).*1 = (range_order E (tick st) (map_to_list (Lights config))).*2 /\
    puts_of t = omap (temp_step_write step) (gets_of t).
Proof.
  intros HE Hstep Hact.
  assert (~ length args < 3)%nat as Hlen
    by (apply lookup_lt_Some in Hact; lia).
  unfold cliTemperature. rewrite (decide_False (P := (length args < 3)%nat)) by done.
  unfold at_index. rewrite Hact. run.
  set (entries := range_order E (tick st) (map_to_list (Lights config))).
  set (s1 := {| tick := S (tick st); disk := disk st; trace := trace st |}).
  assert (step = newTemp_plus \/ step = newTemp_minus) as Hwhich.
  { rewrite !elem_of_cons in Hstep.
    destruct Hstep as [[= _ ->] | [[= _ ->] | Hnil]]; auto.
    by apply elem_of_nil in Hnil. }
  destruct (temp_step_loop E step entries s1 (newTemp_defined E step Hwhich HE))
    as (st' & t & Hrun & Ht & Hd & Hg & Hp & _).
  exists st', t.
  rewrite !elem_of_cons in Hstep.
  destruct Hstep as [[= -> ->] | [[= -> ->] | Hnil]]; [| |by apply elem_of_nil in Hnil].
  - rewrite (decide_True (P := "+" = "+")) by done.
    run. rewrite range_map_run. run. fold entries s1.
    change (for_range _ entries tt s1) with
      (for_range (fun (_ : unit) '(name, ip) =>
        r ← getLightState E ip;
        match r with
        | Err _ =>
            Println ("✗ Failed to get state for " +:+ name);;
            mret (Continue, tt)
        | Ok state =>
            current ← eval (currentTemp (Temperature state));
            err ← setLight E ip None None (Some (newTemp_plus current));
            match err with
            | Some _ => Println ("✗ Failed to adjust " +:+ name)
            | None => Println ("✓ " +:+ name +:+ " temperature: "
                               +:+ pretty (newTemp_plus current) +:+ "K")
            end;;
            mret (Continue, tt)
        end) entries tt s1).
    rewrite Hrun. done.
  - rewrite (decide_False (P := "-" = "+")) by done.
    rewrite (decide_True (P := "-" = "-")) by done.
    run. rewrite range_map_run. run. fold entries s1.
    change (for_range _ entries tt s1) with
      (for_range (fun (_ : unit) '(name, ip) =>
        r ← getLightState E ip;
        match r with
        | Err _ =>
            Println ("✗ Failed to get state for " +:+ name);;
            mret (Continue, tt)
        | Ok state =>
            current ← eval (currentTemp (Temperature state));
            err ← setLight E ip None None (Some (newTemp_minus current));
            match err with
            | Some _ => Println ("✗ Failed to adjust " +:+ name)
            | None => Println ("✓ " +:+ name +:+ " temperature: "
                               +:+ pretty (newTemp_minus current) +:+ "K")
            end;;
            mret (Continue, tt)
        end) entries tt s1).
    rewrite Hrun. done.
Qed.


(** ** Relative steps on a single light *)

Lemma cliSpecificLight_bright_step (E : Env) (config : Config) (id : string)
    (args : list string) (action : string) (step : Z -> Z)
    (st st1 : St) (targetIP targetName : string) :
  findLight E config id st = (Ret (targetIP, targetName), st1) ->
  targetIP <> "" ->
  args !! 2%nat = Some "bright" -> args !! 3%nat = Some action ->
  (action, step) ∈ [("+", newBright_plus); ("-", newBright_minus)] ->
  exists t,
    trace (cliSpecificLight E config id args st).2 = trace st1 ++ t /\
    gets_of t = [(targetIP, http_get E targetIP (tick st1))] /\
    puts_of t = omap (step_write step) (gets_of t) /\
    saves_of t = [].
Proof.
  intros Hfind Hip Hcmd Hact Hstep.
  assert (~ length args < 3)%nat as Hlen3
    by (apply lookup_lt_Some in Hact; lia).
  assert (~ length args < 4)%nat as Hlen4
    by (apply lookup_lt_Some in Hact; lia).
  unfold cliSpecificLight. run. rewrite Hfind.
  rewrite (decide_False (P := targetIP = "")) by done.
  rewrite (decide_False (P := (length args < 3)%nat)) by done.
  unfold at_index. rewrite Hcmd. run.
  rewrite (decide_False (P := "bright" = "on")) by done.
  rewrite (decide_False (P := "bright" = "off")) by done.
  rewrite (decide_True (P := "bright" = "bright")) by done.
  rewrite (decide_False (P := (length args < 4)%nat)) by done.
  rewrite Hact. run.
  set (r := http_get E targetIP (tick st1)).
  rewrite !elem_of_cons in Hstep.
  destruct Hstep as [[= -> ->] | [[= -> ->] | Hnil]]; [| |by apply elem_of_nil in Hnil].
  - rewrite (decide_True (P := "+" = "+")) by done.
    run. rewrite getLightState_run. run. fold r.
    destruct (read_result r) as [state|e] eqn:Hread; run.
    + rewrite setLight_run. run.
      destruct (put_error _); run; cbv beta iota; rewrite Println_run; cbn [snd trace];
        eexists [_; _; _]; rewrite <- !app_assoc; (split; [reflexivity|]);
        cbn; unfold step_write, readable; cbn; rewrite Hread; done.
    + rewrite Println_run. cbn [snd trace]. eexists [_; _].
      rewrite <- !app_assoc. split; [reflexivity|].
      cbn. unfold step_write, readable. cbn. rewrite Hread. done.
  - rewrite (decide_False (P := "-" = "+")) by done.
    rewrite (decide_True (P := "-" = "-")) by done.
    run. rewrite getLightState_run. run. fold r.
    destruct (read_result r) as [state|e] eqn:Hread; run.
    + rewrite setLight_run. run.
      destruct (put_error _); run; cbv beta iota; rewrite Println_run; cbn [snd trace];
        eexists [_; _; _]; rewrite <- !app_assoc; (split; [reflexivity|]);
        cbn; unfold step_write, readable; cbn; rewrite Hread; done.
    + rewrite Println_run. cbn [snd trace]. eexists [_; _].
      rewrite <- !app_assoc. split; [reflexivity|].
      cbn. unfold step_write, readable. cbn. rewrite Hread. done.
Qed.

Lemma cliSpecificLight_temp_step (E : Env) (config : Config) (id : string)
    (args : list string) (action : string) (step : Z -> Z)
    (st st1 : St) (targetIP targetName : string) :
  Env_kelvin_between 0 1000000 E ->
  findLight E config id st = (Ret (targetIP, targetName), st1) ->
  targetIP <> "" ->
  args !! 2%nat = Some "temp" -> args !! 3%nat = Some action ->
  (action, step) ∈ [("+", newTemp_plus); ("-", newTemp_minus)] ->
  exists t,
    trace (cliSpecificLight E config id args st).2 = trace st1 ++ t /\
    gets_of t = [(targetIP, http_get E targetIP (tick st1))] /\
    puts_of t = omap (temp_step_write step) (gets_of t) /\
    saves_of t = [].
Proof.
  intros HE Hfind Hip Hcmd Hact Hstep.
  assert (~ length args < 3)%nat as Hlen3
    by (apply lookup_lt_Some in Hact; lia).
  assert (~ length args < 4)%nat as Hlen4
    by (apply lookup_lt_Some in Hact; lia).
  assert (step = newTemp_plus \/ step = newTemp_minus) as Hwhich.
  { rewrite !elem_of_cons in Hstep.
    destruct Hstep as [[= _ ->] | [[= _ ->] | Hnil]]; auto.
    by apply elem_of_nil in Hnil. }
  pose proof (newTemp_defined E step Hwhich HE targetIP (tick st1)) as Hdef.
  unfold cliSpecificLight. run. rewrite Hfind.
  rewrite (decide_False (P := targetIP = "")) by done.
  rewrite (decide_False (P := (length args < 3)%nat)) by done.
  unfold at_index. rewrite Hcmd. run.
  rewrite (decide_False (P := "temp" = "on")) by done.
  rewrite (decide_False (P := "temp" = "off")) by done.
  rewrite (decide_False (P := "temp" = "bright")) by done.
  rewrite (decide_True (P := "temp" = "temp")) by done.
  rewrite (decide_False (P := (length args < 4)%nat)) by done.
  rewrite Hact. run.
  set (r := http_get E targetIP (tick st1)). fold r in Hdef. unfold readable in Hdef.
  rewrite !elem_of_cons in Hstep.
  destruct Hstep as [[= -> ->] | [[= -> ->] | Hnil]]; [| |by apply elem_of_nil in Hnil].
  - rewrite (decide_True (P := "+" = "+")) by done.
    run. rewrite getLightState_run. run. fold r.
    destruct (read_result r) as [state|e] eqn:Hread; run.
    + destruct (Hdef state eq_refl) as (k & w & Hk & Hw).
      rewrite Hk. cbn [eval]. run.
      rewrite (setLight_temp_run _ _ _ _ _ _ _ Hw). run.
      destruct (put_error _); run; cbv beta iota; rewrite Println_run; cbn [snd trace];
        eexists [_; _; _]; rewrite <- !app_assoc; (split; [reflexivity|]);
        cbn; unfold temp_step_write, readable; cbn; rewrite Hread; cbn;
        rewrite Hk; cbn; rewrite Hw; done.
    + rewrite Println_run. cbn [snd trace]. eexists [_; _].
      rewrite <- !app_assoc. split; [reflexivity|].
      cbn. unfold temp_step_write, readable. cbn. rewrite Hread. done.
  - rewrite (decide_False (P := "-" = "+")) by done.
    rewrite (decide_True (P := "-" = "-")) by done.
    run. rewrite getLightState_run. run. fold r.
    destruct (read_result r) as [state|e] eqn:Hread; run.
    + destruct (Hdef state eq_refl) as (k & w & Hk & Hw).
      rewrite Hk. cbn [eval]. run.
      rewrite (setLight_temp_run _ _ _ _ _ _ _ Hw). run.
      destruct (put_error _); run; cbv beta iota; rewrite Println_run; cbn [snd trace];
        eexists [_; _; _]; rewrite <- !app_assoc; (split; [reflexivity|]);
        cbn; unfold temp_step_write, readable; cbn; rewrite Hread; cbn;
        rewrite Hk; cbn; rewrite Hw; done.
    + rewrite Println_run. cbn [snd trace]. eexists [_; _].
      rewrite <- !app_assoc. split; [reflexivity|].
      cbn. unfold temp_step_write, readable. cbn. rewrite Hread. done.
Qed.


(** ** What the relative steps write *)

Lemma findLight_silent (E : Env) (config : Config) (id : string)
    (st st1 : St) (r : string * string) :
  findLight E config id st = (Ret r, st1) ->
  trace st1 = trace st /\ disk st1 = disk st.
Proof.
  intros Hfind.
  destruct (emits_findLight (fun _ => False) E config id st) as (Hd & t & Ht & HP).
  rewrite Hfind in Hd, Ht. cbn in Hd, Ht.
  destruct t as [|e t]; [|by apply Forall_cons in HP as [[] _]].
  by rewrite app_nil_r in Ht.
Qed.

Lemma cliBrightness_step_writes (E : Env) (config : Config)
    (args : list string) (action : string) (step : Z -> Z) (st : St) :
  (action, step) ∈ [("+", newBright_plus); ("-", newBright_minus)] ->
  args !! 2%nat = Some action ->
  exists st' t,
    cliBrightness E config args st = (Ret config, st') /\
    trace st' = trace st ++ t /\ disk st' = disk st /\
    (gets_of t).*1 = (range_order E (tick st) (map_to_list (Lights config))).*2 /\
    puts_of t = omap (step_write step) (gets_of t).
Proof.
  intros Hstep Hact.
  assert (~ length args < 3)%nat as Hlen
    by (apply lookup_lt_Some in Hact; lia).
  unfold cliBrightness. rewrite (decide_False (P := (length args < 3)%nat)) by done.
  unfold at_index. rewrite Hact. run.
  set (entries := range_order E (tick st) (map_to_list (Lights config))).
  set (s1 := {| tick := S (tick st); disk := disk st; trace := trace st |}).
  destruct (step_loop E step entries s1) as (st' & t & Hrun & Ht & Hd & Hg & Hp & _).
  exists st', t.
  rewrite !elem_of_cons in Hstep.
  destruct Hstep as [[= -> ->] | [[= -> ->] | Hnil]]; [| |by apply elem_of_nil in Hnil].
  - rewrite (decide_True (P := "+" = "+")) by done.
    run. rewrite range_map_run. run. fold entries s1.
    change (for_range _ entries tt s1) with
      (for_range (fun (_ : unit) '(name, ip) =>
        r ← getLightState E ip;
        match r with
        | Err _ =>
            Println ("✗ Failed to get state for " +:+ name);;
            mret (Continue, tt)
        | Ok state =>
            err ← setLight E ip None (Some (newBright_plus (Brightness state))) None;
            match err with
            | Some _ => Println ("✗ Failed to adjust " +:+ name)
            | None => Println ("✓ " +:+ name +:+ " brightness: "
                               +:+ pretty (newBright_plus (Brightness state)) +:+ "%")
            end;;
            mret (Continue, tt)
        end) entries tt s1).
    rewrite Hrun. done.
  - rewrite (decide_False (P := "-" = "+")) by done.
    rewrite (decide_True (P := "-" = "-")) by done.
    run. rewrite range_map_run. run. fold entries s1.
    change (for_range _ entries tt s1) with
      (for_range (fun (_ : unit) '(name, ip) =>
        r ← getLightState E ip;
        match r with
        | Err _ =>
            Println ("✗ Failed to get state for " +:+ name);;
            mret (Continue, tt)
        | Ok state =>
            err ← setLight E ip None (Some (newBright_minus (Brightness state))) None;
            match err with
            | Some _ => Println ("✗ Failed to adjust " +:+ name)
            | None => Println ("✓ " +:+ name +:+ " brightness: "
                               +:+ pretty (newBright_minus (Brightness state)) +:+ "%")
            end;;
            mret (Continue, tt)
        end) entries tt s1).
    rewrite Hrun. done.
Qed.

Lemma step_write_in_range (E : Env) (step : Z -> Z) (ip : string) (n : nat)
    (y : string * Patch) :
  step = newBright_plus \/ step = newBright_minus ->
  Env_bright_in_range E ->
  step_write step (ip, http_get E ip n) = Some y -> bright_in_range y.
Proof.
  intros Hstep HE Hy. unfold step_write in Hy. cbn in Hy.
  destruct (readable (http_get E ip n)) as [s|] eqn:Hs; [|done].
  injection Hy as <-. pose proof (HE ip n s Hs) as Hb.
  eexists. split; [reflexivity|].
  destruct Hstep as [-> | ->].
  - rewrite newBright_plus_clamp by done. apply clamp_in_range. lia.
  - rewrite newBright_minus_clamp by done. apply clamp_in_range. lia.
Qed.

Lemma temp_step_write_in_range (E : Env) (step : Z -> Z) (ip : string) (n : nat)
    (y : string * Patch) :
  step = newTemp_plus \/ step = newTemp_minus ->
  Env_kelvin_between 2700 7200 E ->
  temp_step_write step (ip, http_get E ip n) = Some y -> temp_in_range y.
Proof.
  intros Hstep HE Hy. unfold temp_step_write in Hy. cbn in Hy.
  destruct (readable (http_get E ip n)) as [s|] eqn:Hs; [|done].
  destruct (HE ip n s Hs) as (k & Hk & Hbnd). cbn in Hy. rewrite Hk in Hy.
  cbn in Hy. destruct (elgatoTemp (step k)) as [w|] eqn:Hw; [|done].
  injection Hy as <-. exists (step k), w. split; [done|]. split; [done|].
  destruct (newTemp_step_range k Hbnd). by destruct Hstep as [-> | ->].
Qed.

Lemma which_bright_step (action : string) (step : Z -> Z) :
  (action, step) ∈ [("+", newBright_plus); ("-", newBright_minus)] ->
  (action = "+" \/ action = "-") /\
  (step = newBright_plus \/ step = newBright_minus).
Proof.
  rewrite !elem_of_cons. intros [[= -> ->] | [[= -> ->] | Hnil]]; auto.
  by apply elem_of_nil in Hnil.
Qed.

Lemma which_temp_step (action : string) (step : Z -> Z) :
  (action, step) ∈ [("+", newTemp_plus); ("-", newTemp_minus)] ->
  (action = "+" \/ action = "-") /\
  (step = newTemp_plus \/ step = newTemp_minus).
Proof.
  rewrite !elem_of_cons. intros [[= -> ->] | [[= -> ->] | Hnil]]; auto.
  by apply elem_of_nil in Hnil.
Qed.

(** C4 (amended): a value that starts within its range stays within it, and
    each step is stopped at one bound only.

    In a session, left leaves the pending value moved down and stopped
    at the lower bound, right leaves it moved up and stopped at the upper
    bound; pending values within [3,100] and [2900,7000] stay there
    through every message, and a step keeps the value it moves within
    its range whatever the other value is.

    On the command line, [bright +] and [bright -], for every light and
    for a single light, send each device that answers its own brightness
    moved by 5, and [temp +] and [temp -] the Kelvin value of its
    temperature moved by 200, stopped in the same way; a device that
    reports a brightness within [3,100] is sent one within [3,100], and a
    device whose temperature is within 200K of [2900,7000] is sent the
    wire value of one within [2900,7000].

    [bright =] and [temp =] send the mean of the readings as it is: it
    lies in the range when the readings do.

    In the arithmetic of the integers a step up is [min hi (v + d)] and a
    step down [max lo (v - d)]; on a value within the range this is the
    moved value clamped to the range. *)
Theorem adjustments_stay_in_range (E : Env) (config : Config)
    (args : list string) (m : model) (st : St) :
  let b := brightnessValue m in
  let k := temperatureValue m in
  (in_range_model m ->
     (forall msg, returns_model in_range_model (Update E m msg st)) /\
     (forall key, key ∈ ["left"; "right"; "h"; "l"] ->
        exists m', Update E m (KeyMsg key) st = (Ret (m', None), st) /\
                   in_range_model m')) /\
  (focusedControl m = focusBrightness ->
     exists ml mr,
       Update E m (KeyMsg "left") st = (Ret (ml, None), st) /\
       brightnessValue ml = Z.max 3 (GoInt.sub b 5) /\ temperatureValue ml = k /\
       Update E m (KeyMsg "right") st = (Ret (mr, None), st) /\
       brightnessValue mr = Z.min 100 (GoInt.add b 5) /\ temperatureValue mr = k /\
       (3 <= b <= 100 ->
          3 <= brightnessValue ml <= 100 /\ 3 <= brightnessValue mr <= 100)) /\
  (focusedControl m = focusTemperature ->
     exists ml mr,
       Update E m (KeyMsg "left") st = (Ret (ml, None), st) /\
       temperatureValue ml = Z.max 2900 (GoInt.sub k 200) /\ brightnessValue ml = b /\
       Update E m (KeyMsg "right") st = (Ret (mr, None), st) /\
       temperatureValue mr = Z.min 7000 (GoInt.add k 200) /\ brightnessValue mr = b /\
       (2900 <= k <= 7000 ->
          2900 <= temperatureValue ml <= 7000 /\
          2900 <= temperatureValue mr <= 7000)) /\
  (forall action step,
     (action, step) ∈ [("+", newBright_plus); ("-", newBright_minus)] ->
     args !! 2%nat = Some action ->
     exists st' t,
       cliBrightness E config args st = (Ret config, st') /\
       trace st' = trace st ++ t /\
       puts_of t = omap (step_write step) (gets_of t) /\
       (Env_bright_in_range E -> Forall bright_in_range (puts_of t))) /\
  (forall action step,
     (action, step) ∈ [("+", newTemp_plus); ("-", newTemp_minus)] ->
     args !! 2%nat = Some action ->
     Env_kelvin_between 0 1000000 E ->
     exists st' t,
       cliTemperature E config args st = (Ret config, st') /\
       trace st' = trace st ++ t /\
       puts_of t = omap (temp_step_write step) (gets_of t) /\
       (Env_kelvin_between 2700 7200 E -> Forall temp_in_range (puts_of t))) /\
  (forall id targetIP targetName st1 action step,
     findLight E config id st = (Ret (targetIP, targetName), st1) ->
     targetIP <> "" ->
     args !! 2%nat = Some "bright" -> args !! 3%nat = Some action ->
     (action, step) ∈ [("+", newBright_plus); ("-", newBright_minus)] ->
     exists t,
       trace (cliSpecificLight E config id args st).2 = trace st ++ t /\
       gets_of t = [(targetIP, http_get E targetIP (tick st1))] /\
       puts_of t = omap (step_write step) (gets_of t) /\
       (Env_bright_in_range E -> Forall bright_in_range (puts_of t))) /\
  (forall id targetIP targetName st1 action step,
     findLight E config id st = (Ret (targetIP, targetName), st1) ->
     targetIP <> "" ->
     args !! 2%nat = Some "temp" -> args !! 3%nat = Some action ->
     (action, step) ∈ [("+", newTemp_plus); ("-", newTemp_minus)] ->
     Env_kelvin_between 0 1000000 E ->
     exists t,
       trace (cliSpecificLight E config id args st).2 = trace st ++ t /\
       gets_of t = [(targetIP, http_get E targetIP (tick st1))] /\
       puts_of t = omap (temp_step_write step) (gets_of t) /\
       (Env_kelvin_between 2700 7200 E -> Forall temp_in_range (puts_of t))) /\
  (Env_ok E -> Z.of_nat (size (Lights config)) < 2 ^ 32 ->
   args !! 2%nat = Some "=" ->
     (exists st',
        cliBrightness E config args st = (Ret config, st') /\
        equalized E config Brightness (fun avg => Some (bright_patch avg)) st st' /\
        (Env_bright_in_range E ->
         exists t, trace st' = trace st ++ t /\
                   Forall bright_in_range (puts_of t))) /\
     (Env_kelvin_between 2900 7000 E ->
      exists st' t,
        cliTemperature E config args st = (Ret config, st') /\
        equalized E config kelvin_reading
          (fun avg => temp_patch <$> elgatoTemp avg) st st' /\
        trace st' = trace st ++ t /\ Forall temp_in_range (puts_of t))) /\
  (forall v, - 2 ^ 62 <= v <= 2 ^ 62 ->
     newBright_plus v = Z.min 100 (v + 5) /\
     newBright_minus v = Z.max 3 (v - 5) /\
     newTemp_plus v = Z.min 7000 (v + 200) /\
     newTemp_minus v = Z.max 2900 (v - 200)) /\
  (forall v, 3 <= v <= 100 ->
     newBright_plus v = clamp 3 100 (v + 5) /\
     newBright_minus v = clamp 3 100 (v - 5)) /\
  (forall v, 2900 <= v <= 7000 ->
     newTemp_plus v = clamp 2900 7000 (v + 200) /\
     newTemp_minus v = clamp 2900 7000 (v - 200)).
Proof.
  intros b k. subst b k. repeat apply conj.
  - intros Hm. split.
    + intros msg. by apply Update_in_range.
    + intros key Hkey. by apply adjust_keys_in_range.
  - intros Hf.
    destruct (Update_value_rows E m "left" st) as (Hl & _).
    destruct (Update_value_rows E m "right" st) as (_ & Hr & _).
    destruct (Hl Hf) as (ml & ? & ? & Hvl & Hvl'); [apply list_elem_of_here|].
    destruct (Hr Hf) as (mr & ? & ? & Hvr & Hvr'); [apply list_elem_of_here|].
    exists ml, mr. repeat (split; [done|]). intros Hv.
    rewrite ?Hvl, ?Hvl', ?Hvr, ?Hvr'.
    rewrite add_small, sub_small
      by (unfold GoInt.in_range, GoInt.min_int, GoInt.max_int; lia).
    lia.
  - intros Hf.
    destruct (Update_value_rows E m "left" st) as (_ & _ & Hl & _).
    destruct (Update_value_rows E m "right" st) as (_ & _ & _ & Hr).
    destruct (Hl Hf) as (ml & ? & ? & Hvl & Hvl'); [apply list_elem_of_here|].
    destruct (Hr Hf) as (mr & ? & ? & Hvr & Hvr'); [apply list_elem_of_here|].
    exists ml, mr. repeat (split; [done|]). intros Hv.
    rewrite ?Hvl, ?Hvl', ?Hvr, ?Hvr'.
    rewrite add_small, sub_small
      by (unfold GoInt.in_range, GoInt.min_int, GoInt.max_int; lia).
    lia.
  - intros action step Hstep Hact.
    destruct (cliBrightness_step_writes E config args action step st Hstep Hact)
      as (st' & t & Hrun & Ht & _ & _ & Hp).
    exists st', t. split; [done|]. split; [done|]. split; [done|].
    intros HE. destruct (which_bright_step _ _ Hstep) as (Ha & _).
    destruct (cliBrightness_step_in_range E config args st HE)
      as (st2 & t2 & Hrun2 & Ht2 & _ & _ & Hall).
    { destruct Ha as [-> | ->]; auto. }
    rewrite Hrun in Hrun2. injection Hrun2 as <-.
    rewrite Ht in Ht2. apply app_inv_head in Ht2 as ->. done.
  - intros action step Hstep Hact HE0.
    destruct (cliTemperature_step_writes E config args action step st HE0 Hstep Hact)
      as (st' & t & Hrun & Ht & _ & _ & Hp).
    exists st', t. split; [done|]. split; [done|]. split; [done|].
    intros HE. destruct (which_temp_step _ _ Hstep) as (Ha & _).
    destruct (cliTemperature_step_in_range E config args st HE)
      as (st2 & t2 & Hrun2 & Ht2 & _ & _ & Hall).
    { destruct Ha as [-> | ->]; auto. }
    rewrite Hrun in Hrun2. injection Hrun2 as <-.
    rewrite Ht in Ht2. apply app_inv_head in Ht2 as ->. done.
  - intros id targetIP targetName st1 action step Hfind Hip Hcmd Hact Hstep.
    destruct (findLight_silent _ _ _ _ _ _ Hfind) as (Ht1 & _).
    destruct (cliSpecificLight_bright_step E config id args action step st st1
                targetIP targetName Hfind Hip Hcmd Hact Hstep)
      as (t & Ht & Hg & Hp & _).
    exists t. rewrite <- Ht1. split; [done|]. split; [done|]. split; [done|].
    intros HE. rewrite Hp, Hg. destruct (which_bright_step _ _ Hstep) as (_ & Hs).
    cbn [omap list_omap].
    destruct (step_write step (targetIP, http_get E targetIP (tick st1)))
      as [y|] eqn:Hy; [|constructor].
    apply Forall_singleton. by eapply step_write_in_range.
  - intros id targetIP targetName st1 action step Hfind Hip Hcmd Hact Hstep HE0.
    destruct (findLight_silent _ _ _ _ _ _ Hfind) as (Ht1 & _).
    destruct (cliSpecificLight_temp_step E config id args action step st st1
                targetIP targetName HE0 Hfind Hip Hcmd Hact Hstep)
      as (t & Ht & Hg & Hp & _).
    exists t. rewrite <- Ht1. split; [done|]. split; [done|]. split; [done|].
    intros HE. rewrite Hp, Hg. destruct (which_temp_step _ _ Hstep) as (_ & Hs).
    cbn [omap list_omap].
    destruct (temp_step_write step (targetIP, http_get E targetIP (tick st1)))
      as [y|] eqn:Hy; [|constructor].
    apply Forall_singleton. by eapply temp_step_write_in_range.
  - intros HE Hsize Hargs. split.
    + destruct (equalize_brightness E config args st HE Hargs)
        as (st' & Hrun & Heq).
      exists st'. split; [done|]. split; [done|]. intros Hb.
      by apply (equalized_brightness_in_range E config st st' Hb Hsize).
    + intros Hk.
      destruct (equalize_temperature E config args st HE Hk Hsize Hargs)
        as (st' & Hrun & Heq).
      destruct (equalized_temperature_in_range E config st st' Hk Hsize Heq)
        as (t & Ht & Hp).
      exists st', t. done.
  - apply steps_one_sided.
  - intros v Hv. split;
      [by apply newBright_plus_clamp | by apply newBright_minus_clamp].
  - intros v Hv. split;
      [by apply newTemp_plus_clamp | by apply newTemp_minus_clamp].
Qed.


Lemma edge_env_bright : Env_bright_in_range edge_env.
Proof. intros ip n s [= <-]. cbn. lia. Qed.

Lemma edge_env_kelvin : Env_kelvin_between 2700 7200 edge_env.
Proof. intros ip n s [= <-]. exists 7042. split; [reflexivity | lia]. Qed.

Lemma adjustments_stay_in_range_witness :
  (exists m',
     Update mixed_env (demo_model focusBrightness 98 4000) (KeyMsg "right") st0
       = (Ret (m', None), st0) /\ in_range_model m') /\
  (exists st' t,
     cliBrightness mixed_env (demo_config three_lights 50 4000)
       ["keylight"; "bright"; "+"] st0
       = (Ret (demo_config three_lights 50 4000), st') /\
     trace st' = trace st0 ++ t /\
     puts_of t = omap (step_write newBright_plus) (gets_of t) /\
     Forall bright_in_range (puts_of t)) /\
  (exists st' t,
     cliTemperature mixed_env (demo_config three_lights 50 4000)
       ["keylight"; "temp"; "="] st0
       = (Ret (demo_config three_lights 50 4000), st') /\
     trace st' = trace st0 ++ t /\ Forall temp_in_range (puts_of t)) /\
  (exists t,
     trace (cliSpecificLight edge_env (demo_config two_lights 50 4000) "Left"
              ["keylight"; "Left"; "bright"; "+"] st0).2 = trace st0 ++ t /\
     puts_of t = omap (step_write newBright_plus) (gets_of t) /\
     Forall bright_in_range (puts_of t)) /\
  (exists t,
     trace (cliSpecificLight edge_env (demo_config two_lights 50 4000) "Left"
              ["keylight"; "Left"; "temp"; "-"] st0).2 = trace st0 ++ t /\
     puts_of t = omap (temp_step_write newTemp_minus) (gets_of t) /\
     Forall temp_in_range (puts_of t)) /\
  newBright_plus 98 = clamp 3 100 (98 + 5).
Proof.
  destruct (adjustments_stay_in_range mixed_env
              (demo_config three_lights 50 4000) ["keylight"; "bright"; "+"]
              (demo_model focusBrightness 98 4000) st0)
    as (Htui & _ & _ & Hstep & _ & _ & _ & _ & _ & Hclamp & _).
  destruct (adjustments_stay_in_range mixed_env
              (demo_config three_lights 50 4000) ["keylight"; "temp"; "="]
              (demo_model focusBrightness 98 4000) st0)
    as (_ & _ & _ & _ & _ & _ & _ & Heq & _).
  destruct (adjustments_stay_in_range edge_env
              (demo_config two_lights 50 4000) ["keylight"; "Left"; "bright"; "+"]
              (demo_model focusBrightness 98 4000) st0)
    as (_ & _ & _ & _ & _ & Hone & _).
  destruct (adjustments_stay_in_range edge_env
              (demo_config two_lights 50 4000) ["keylight"; "Left"; "temp"; "-"]
              (demo_model focusBrightness 98 4000) st0)
    as (_ & _ & _ & _ & _ & _ & Honet & _).
  split.
  { apply Htui; [unfold in_range_model; simpl; lia|].
    apply list_elem_of_further, list_elem_of_here. }
  split.
  { destruct (Hstep "+" newBright_plus) as (st' & t & Hrun & Ht & Hp & Hall);
      [apply list_elem_of_here | reflexivity |].
    exists st', t. split; [exact Hrun|]. split; [exact Ht|]. split; [exact Hp|].
    apply Hall. apply Env_in_range_bright. exact mixed_env_in_range. }
  split.
  { destruct Heq as (_ & Htemp);
      [exact mixed_env_ok | vm_compute; reflexivity | reflexivity |].
    destruct Htemp as (st' & t & Hrun & _ & Ht & Hall);
      [apply Env_in_range_kelvin; exact mixed_env_in_range|].
    exists st', t. split; [exact Hrun|]. split; [exact Ht | exact Hall]. }
  split.
  { destruct (Hone "Left" "10.0.0.1" "Left"
                {| tick := 1; disk := Unreadable; trace := [] |}
                "+" newBright_plus)
      as (t & Ht & _ & Hp & Hall);
      [vm_compute; reflexivity | discriminate | reflexivity | reflexivity
      | apply list_elem_of_here |].
    exists t. split; [exact Ht|]. split; [exact Hp|].
    apply Hall. exact edge_env_bright. }
  split.
  { destruct (Honet "Left" "10.0.0.1" "Left"
                {| tick := 1; disk := Unreadable; trace := [] |}
                "-" newTemp_minus)
      as (t & Ht & _ & Hp & Hall);
      [vm_compute; reflexivity | discriminate | reflexivity | reflexivity
      | apply list_elem_of_further, list_elem_of_here
      | apply (Env_kelvin_between_weaken _ 2700 7200); [lia | lia | exact edge_env_kelvin] |].
    exists t. split; [exact Ht|]. split; [exact Hp|].
    apply Hall. exact edge_env_kelvin. }
  apply Hclamp. lia.
Defined.
